(** * EnglishFlow AI relay: the request handlers of [server.js], embedded

    The repository holds several revisions of one Express server.  Each
    revision is embedded in a module of its own:

    - [Baseline]   : [src/server.js], first document (plain relay);
    - [TedEd]      : [src/unnamed/part_000], second document (level
                     normaliser, translations, drafts, TED-Ed context through
                     [extractTedEdContext]);
    - [Lesson]     : [src/unnamed/part_001], first document (TED-Ed context
                     through [fetchTedEdContext]);
    - [Structured] : [src/unnamed/part_001], second document (provider-side
                     JSON schema);
    - [Topic]      : [src/server.js], second document (conversation on a
                     topic summary, without a lesson link).

    The remaining documents of the three files are earlier copies: the
    third document of [part_000] is [Baseline] without
    [/ai/sentences-feedback], the first one is [Topic] with an older
    [/ai/conversation] that forwards the request's messages as they are.

    A request body is a JSON value, a handler a function from it to the
    response and the list of the calls it makes, in order, to [fetch] and
    to the [create] methods of the OpenAI client; what the client does
    within one call belongs to the environment.  A [throw] is a result of
    its own ([Res]); the [try]/[catch] of the source are [tryCatch] and
    [handle].

    A JavaScript string is the byte string of its UTF-8 encoding: [trim]
    removes the white space and the line terminators of ECMAScript, and case
    mapping is the mapping of the ASCII letters on an ASCII string, the
    runtime's on any other.  What the runtime and the network supply
    (numbers, the Unicode case mapping, [JSON.parse], [JSON.stringify],
    [URL], cheerio, [fetch], the completion service) is gathered in the
    record [Env]; every handler is a function of it, and every theorem holds
    for every [Env]. *)

From Stdlib Require Import Ascii String QArith.
From stdpp Require Import base option list strings pretty gmap.

Set Default Proof Using "Type".
Set Warnings "-clear-no-such-hyp".
Local Open Scope string_scope.
Local Open Scope list_scope.
Local Open Scope stdpp_scope.

(** ** Strings *)

Module Js.

(** The white space and the line terminators of ECMAScript, by the length
    of their UTF-8 encoding: U+0009 to U+000D and U+0020; *)
Definition isSpace1 (a : ascii) : bool :=
  let n := N_of_ascii a in ((9 <=? n) && (n <=? 13) || (n =? 32))%N.

(** U+00A0 (C2 A0); *)
Definition isSpace2 (a b : ascii) : bool :=
  ((N_of_ascii a =? 194) && (N_of_ascii b =? 160))%N.

(** U+1680 (E1 9A 80), U+2000 to U+200A (E2 80 80 to E2 80 8A), U+2028 and
    U+2029 (E2 80 A8, E2 80 A9), U+202F (E2 80 AF), U+205F (E2 81 9F),
    U+3000 (E3 80 80) and U+FEFF (EF BB BF). *)
Definition isSpace3 (a b c : ascii) : bool :=
  let '(x, y, z) := (N_of_ascii a, N_of_ascii b, N_of_ascii c) in
  ((x =? 225) && (y =? 154) && (z =? 128)
   || (x =? 226) && (y =? 128)
      && ((128 <=? z) && (z <=? 138) || (z =? 168) || (z =? 169) || (z =? 175))
   || (x =? 226) && (y =? 129) && (z =? 159)
   || (x =? 227) && (y =? 128) && (z =? 128)
   || (x =? 239) && (y =? 187) && (z =? 191))%N.

Section Strip.
Variable s1 : ascii -> bool.
Variable s2 : ascii -> ascii -> bool.
Variable s3 : ascii -> ascii -> ascii -> bool.

(** The bytes left once the leading white space is removed. *)
Fixpoint strip (l : list ascii) : list ascii :=
  match l with
  | [] => []
  | a :: r =>
      if s1 a then strip r
      else match r with
           | [] => l
           | b :: r2 =>
               if s2 a b then strip r2
               else match r2 with
                    | [] => l
                    | c :: r3 => if s3 a b c then strip r3 else l
                    end
           end
  end.

(** Whether the bytes start with white space. *)
Definition leads (l : list ascii) : bool :=
  match l with
  | [] => false
  | a :: r =>
      s1 a || match r with
              | [] => false
              | b :: r2 => s2 a b || match r2 with [] => false | c :: _ => s3 a b c end
              end
  end.
End Strip.

Definition trimStartBytes : list ascii -> list ascii :=
  strip isSpace1 isSpace2 isSpace3.

(** From the end: from the start of the reversed bytes. *)
Definition trimEndBytes (l : list ascii) : list ascii :=
  rev (strip isSpace1 (fun b a => isSpace2 a b) (fun c b a => isSpace3 a b c) (rev l)).

(** [String.prototype.trim] *)
Definition trim (s : string) : string :=
  string_of_list_ascii (trimEndBytes (trimStartBytes (list_ascii_of_string s))).

Definition upperChar (c : ascii) : ascii :=
  let n := nat_of_ascii c in
  if (97 <=? n)%nat && (n <=? 122)%nat then ascii_of_nat (n - 32) else c.

Definition lowerChar (c : ascii) : ascii :=
  let n := nat_of_ascii c in
  if (65 <=? n)%nat && (n <=? 90)%nat then ascii_of_nat (n + 32) else c.

Fixpoint mapChars (f : ascii -> ascii) (s : string) : string :=
  match s with
  | EmptyString => EmptyString
  | String c r => String (f c) (mapChars f r)
  end.

(** Case mapping of the ASCII letters. *)
Definition asciiUpper : string -> string := mapChars upperChar.
Definition asciiLower : string -> string := mapChars lowerChar.

(** No code point beyond U+007F. *)
Fixpoint isAscii (s : string) : bool :=
  match s with
  | EmptyString => true
  | String c r => (N_of_ascii c <? 128)%N && isAscii r
  end.

(** [s.replaceAll("_", "-")]: one character for another. *)
Definition replaceAllChar (a b : ascii) : string -> string :=
  mapChars (fun c => if Ascii.eqb c a then b else c).

Definition startsWith (s p : string) : bool := String.prefix p s.

(** [Array.prototype.join] on strings. *)
Fixpoint join (sep : string) (l : list string) : string :=
  match l with
  | [] => ""
  | [x] => x
  | x :: r => x +:+ sep +:+ join sep r
  end.

(** A template literal spanning several source lines. *)
Definition lines (l : list string) : string := join (String "010" "") l.

(** [Boolean(s)] for a string. *)
Definition nonEmpty (s : string) : bool :=
  match s with EmptyString => false | _ => true end.

(** The double quote, and a template written with ['] for it. *)
Definition dquote : ascii := ascii_of_nat 34.
Definition quoted : string -> string := replaceAllChar "'" dquote.

End Js.

(** ** Errors and results *)

(** A thrown value: an [Error] with its [name] and [message]. *)
Record JsError := mkError { err_name : string; err_message : string }.

Definition TypeError (msg : string) : JsError := mkError "TypeError" msg.
Definition SyntaxError (msg : string) : JsError := mkError "SyntaxError" msg.

(** [String(err)], that is [Error.prototype.toString]. *)
Definition errorToString (e : JsError) : string :=
  if Js.nonEmpty (err_message e)
  then (if Js.nonEmpty (err_name e)
        then err_name e +:+ ": " +:+ err_message e else err_message e)
  else err_name e.

(** [err?.message || fallback] *)
Definition messageOr (e : JsError) (fallback : string) : string :=
  if Js.nonEmpty (err_message e) then err_message e else fallback.

Inductive Res (A : Type) : Type :=
| Returns (a : A)
| Throws (e : JsError).
Arguments Returns {A} a.
Arguments Throws {A} e.

#[global] Instance res_ret : MRet Res := fun A a => Returns a.
#[global] Instance res_bind : MBind Res := fun A B f m =>
  match m with Returns a => f a | Throws e => Throws e end.
#[global] Instance res_fmap : FMap Res := fun A B f m =>
  match m with Returns a => Returns (f a) | Throws e => Throws e end.

(** [array.map(f)] for a callback that may throw: the first throw ends it. *)
Fixpoint mapRes {A B} (f : A -> Res B) (l : list A) : Res (list B) :=
  match l with
  | [] => Returns []
  | x :: r => y ← f x; ys ← mapRes f r; Returns (y :: ys)
  end.

(** ** JSON values and the coercions the handlers apply to them *)

#[warnings="-register-all"] Inductive JSON (Num : Type) : Type :=
| JNull
| JBool (b : bool)
| JNum (n : Num)
| JStr (s : string)
| JArr (items : list (JSON Num))
| JObj (props : list (string * JSON Num)).
Arguments JNull {Num}.
Arguments JBool {Num} b.
Arguments JNum {Num} n.
Arguments JStr {Num} s.
Arguments JArr {Num} items.
Arguments JObj {Num} props.

Section Values.
Context {Num : Type}.
Variable numIsFalsy : Num -> bool.
Variable numToString : Num -> string.

Local Abbreviation value := (JSON Num).

(** Own property of an object's property list. *)
Fixpoint lookupProp (k : string) (props : list (string * value)) : option value :=
  match props with
  | [] => None
  | (k', v) :: r => if String.eqb k k' then Some v else lookupProp k r
  end.

(** [obj[k] = v] on a property list: in place when [k] is there, appended
    otherwise. *)
Fixpoint setProp (k : string) (v : value) (props : list (string * value))
  : list (string * value) :=
  match props with
  | [] => [(k, v)]
  | (k', v') :: r =>
      if String.eqb k k' then (k, v) :: r else (k', v') :: setProp k v r
  end.

(** [v.k] for a key [k] that no built-in prototype defines ([word],
    [sentences], [role], [content], [translations], [name], [description] and
    the request fields): a [TypeError] on [null], the own property of an
    object, [undefined] ([None]) on anything else. *)
Definition getProp (v : value) (k : string) : Res (option value) :=
  match v with
  | JNull =>
      Throws (TypeError ("Cannot read properties of null (reading '" +:+ k +:+ "')"))
  | JObj props => Returns (lookupProp k props)
  | _ => Returns None
  end.

(** [v?.k] where [v] may be [undefined]. *)
Definition getPropOpt (v : option value) (k : string) : option value :=
  match v with
  | Some (JObj props) => lookupProp k props
  | _ => None
  end.

(** Destructuring [const { k } = body] of a body that is not [null]. *)
Definition field (body : value) (k : string) : option value :=
  match body with
  | JObj props => lookupProp k props
  | _ => None
  end.

(** Destructuring with a default: [const { k = d } = body]; the default
    replaces [undefined] only. *)
Definition fieldOr (body : value) (k : string) (d : value) : value :=
  default d (field body k).

(** [Boolean(v)] *)
Definition truthy (v : value) : bool :=
  match v with
  | JNull => false
  | JBool b => b
  | JNum n => negb (numIsFalsy n)
  | JStr s => Js.nonEmpty s
  | JArr _ | JObj _ => true
  end.

Definition truthyOpt (v : option value) : bool :=
  match v with Some v => truthy v | None => false end.

(** [v || d] where [v] may be [undefined]. *)
Definition orElse (v : option value) (d : value) : value :=
  match v with
  | Some v => if truthy v then v else d
  | None => d
  end.

Definition isArray (v : option value) : bool :=
  match v with Some (JArr _) => true | _ => false end.

(** [typeof v === "object"] *)
Definition typeofObject (v : value) : bool :=
  match v with JNull | JArr _ | JObj _ => true | _ => false end.

Definition typeofString (v : option value) : bool :=
  match v with Some (JStr _) => true | _ => false end.

Definition hasOwn (k : string) (props : list (string * value)) : bool :=
  bool_decide (is_Some (lookupProp k props)).

(** [String(v)] and [`${v}`].  An array joins its elements with a comma,
    [null] elements as the empty string.  An object without an own [toString]
    is ["[object Object]"]; an own [toString] of a JSON value is never
    callable and the inherited [valueOf] returns the object, so the
    conversion throws. *)
Fixpoint ToString (v : value) : Res string :=
  match v with
  | JNull => Returns "null"
  | JBool b => Returns (if b then "true" else "false")
  | JNum n => Returns (numToString n)
  | JStr s => Returns s
  | JArr items =>
      Js.join "," <$>
        (fix elements (l : list value) : Res (list string) :=
           match l with
           | [] => Returns []
           | x :: r =>
               s ← match x with JNull => Returns "" | _ => ToString x end;
               ss ← elements r;
               Returns (s :: ss)
           end) items
  | JObj props =>
      if hasOwn "toString" props
      then Throws (TypeError "Cannot convert object to primitive value")
      else Returns "[object Object]"
  end.

(** The element conversion of [join]. *)
Definition elementToString (x : value) : Res string :=
  match x with JNull => Returns "" | _ => ToString x end.

(** [array.join(sep)] *)
Definition joinValues (sep : string) (l : list value) : Res string :=
  Js.join sep <$> mapRes elementToString l.

(** [{ ...v }] for an object or an array (the only values the handlers
    spread): the own enumerable properties; an array spreads its indices. *)
Definition spreadProps (v : value) : list (string * value) :=
  match v with
  | JObj props => props
  | JArr items => imap (fun i x => (pretty i, x)) items
  | _ => []
  end.

End Values.

(** ** The environment of a handler *)

(** What [new URL(s)] exposes to the handlers. *)
Record Url := mkUrl { protocol : string; hostname : string; pathname : string }.

(** What the handlers query of a page loaded by cheerio. *)
Record Dom := mkDom {
  metaProperty : string -> option string; (* $("meta[property='p']").attr("content") *)
  metaName : string -> option string;     (* $("meta[name='n']").attr("content") *)
  linkHref : string -> option string;     (* $("link[rel='r']").attr("href") *)
  titleText : string;                     (* $("title").text() *)
  h1Text : string;                        (* $("h1").first().text() *)
  ldJsonScripts : list string             (* the text of each ld+json script *)
}.

Record HttpResponse := mkHttp { resp_ok : bool; resp_text : Res string }.

Record Message := mkMessage { role : string; content : string }.

Record ChatRequest := mkChat {
  chat_model : string;
  chat_temperature : Q;
  chat_messages : list Message
}.

(** The JSON schemas of the [Structured] revision. *)
#[warnings="-register-all"] Inductive Schema : Type :=
| SString
| SInteger (minimum maximum : Z)
| SArray (items : Schema) (minItems maxItems : option nat)
| SObject (additionalProperties : bool) (properties : list (string * Schema))
          (required : list string).

Record ResponsesRequest := mkResponses {
  resp_model : string;
  resp_input : list Message;
  resp_schema_name : string;
  resp_schema : Schema
}.

(** A [fetch(url, { headers, signal })] whose signal aborts after
    [fetch_timeout] milliseconds. *)
Record FetchRequest := mkFetch {
  fetch_url : string;
  fetch_headers : list (string * string);
  fetch_timeout : Z
}.

(** The outbound calls of a request, in order. *)
Inductive Event : Type :=
| EvFetch (req : FetchRequest)
| EvChat (req : ChatRequest)
| EvResponses (req : ResponsesRequest).

Record Env (Num : Type) := mkEnv {
  numIsFalsy : Num -> bool;             (* +0, -0, NaN *)
  numToString : Num -> string;          (* Number::toString *)
  upperCase : string -> string;         (* String.prototype.toUpperCase *)
  lowerCase : string -> string;         (* String.prototype.toLowerCase *)
  JSON_parse : string -> Res (JSON Num);
  JSON_stringify : option nat -> JSON Num -> string; (* indent, value *)
  URL_parse : string -> Res Url;        (* new URL(s) *)
  OPENAI_MODEL : option string;         (* process.env.OPENAI_MODEL *)
  cheerio_load : string -> Res Dom;
  fetch : string -> Res HttpResponse;   (* a timeout aborts: a throw *)
  chat_completions_create : ChatRequest -> Res (option string);
    (* completion.choices?.[0]?.message?.content *)
  responses_create : ResponsesRequest -> Res string (* resp.output_text *)
}.
Arguments numIsFalsy {Num} _ _.
Arguments numToString {Num} _ _.
Arguments upperCase {Num} _ _.
Arguments lowerCase {Num} _ _.
Arguments JSON_parse {Num} _ _.
Arguments JSON_stringify {Num} _ _ _.
Arguments URL_parse {Num} _ _.
Arguments OPENAI_MODEL {Num} _.
Arguments cheerio_load {Num} _ _.
Arguments fetch {Num} _ _.
Arguments chat_completions_create {Num} _ _.
Arguments responses_create {Num} _ _.

(** A computation that may throw and records its outbound calls. *)
Definition M (A : Type) : Type := list Event -> Res A * list Event.

#[global] Instance M_ret : MRet M := fun A a tr => (Returns a, tr).
#[global] Instance M_bind : MBind M := fun A B f m tr =>
  match m tr with
  | (Returns a, tr') => f a tr'
  | (Throws e, tr') => (Throws e, tr')
  end.

Definition lift {A} (r : Res A) : M A := fun tr => (r, tr).

(** [try { m } catch (e) { h e }] *)
Definition tryCatch {A} (m : M A) (h : JsError -> M A) : M A := fun tr =>
  match m tr with
  | (Returns a, tr') => (Returns a, tr')
  | (Throws e, tr') => h e tr'
  end.

(** One outbound call: recorded, then answered by the environment. *)
Definition call {A} (ev : Event) (answer : Res A) : M A :=
  fun tr => (answer, tr ++ [ev]).

Inductive Body (Num : Type) : Type :=
| BJson (j : JSON Num)   (* res.json(j) *)
| BText (s : string).    (* res.send(s) *)
Arguments BJson {Num} j.
Arguments BText {Num} s.

Record Response (Num : Type) := mkResponse { status : nat; body : Body Num }.
Arguments mkResponse {Num} status body.
Arguments status {Num} _.
Arguments body {Num} _.

(** The [try { ... } catch (err) { ... }] that wraps every handler. *)
Definition handle {Num} (m : M (Response Num)) (onError : JsError -> Response Num)
  : Response Num * list Event :=
  match m [] with
  | (Returns r, tr) => (r, tr)
  | (Throws e, tr) => (onError e, tr)
  end.

(** A cleaned item of [/ai/sentences-feedback]. *)
Record CleanItem := mkClean { word : string; sentences : list string }.

(** ** Helpers shared by the revisions *)

Section Helpers.
Context {Num : Type} (E : Env Num).

Local Abbreviation value := (JSON Num).

Definition json (st : nat) (j : value) : Response Num := mkResponse st (BJson j).

(** [{ error: msg }] *)
Definition errorBody (msg : string) : value := JObj [("error", JStr msg)].

(** [{ error: msg, raw: content }] *)
Definition rawBody (msg content : string) : value :=
  JObj [("error", JStr msg); ("raw", JStr content)].

(** [const MODEL = process.env.OPENAI_MODEL || "gpt-4.1-mini"] *)
Definition MODEL : string :=
  match OPENAI_MODEL E with
  | Some m => if Js.nonEmpty m then m else "gpt-4.1-mini"
  | None => "gpt-4.1-mini"
  end.

(** [parseJsonSafely]: the parsed value, [null] when [JSON.parse] throws. *)
Definition parseJsonSafely (text : string) : value :=
  match JSON_parse E text with
  | Returns v => v
  | Throws _ => JNull
  end.

Definition toStr (v : value) : Res string := ToString (numToString E) v.
Definition isTruthy (v : value) : bool := truthy (numIsFalsy E) v.
Definition isTruthyOpt (v : option value) : bool := truthyOpt (numIsFalsy E) v.

(** [v || d] *)
Definition orDefault (v : option value) (d : value) : value :=
  orElse (numIsFalsy E) v d.

(** [String(v || "")] *)
Definition strOrEmpty (v : option value) : Res string := toStr (orDefault v (JStr "")).

(** [await openai.chat.completions.create(req)] *)
Definition createChat (req : ChatRequest) : M (option string) :=
  call (EvChat req) (chat_completions_create E req).

(** [completion.choices?.[0]?.message?.content?.trim() || ""] *)
Definition trimmedContent (c : option string) : string :=
  match c with Some s => Js.trim s | None => "" end.

(** [completion.choices?.[0]?.message?.content || ""] *)
Definition contentOrEmpty (c : option string) : string := default "" c.

(** [String(err?.message || err)] *)
Definition describe (e : JsError) : string := messageOr e (errorToString e).

(** [s.toUpperCase()] and [s.toLowerCase()]: on an ASCII string the mapping
    of its letters, on any other string the Unicode mapping of the
    runtime. *)
Definition toUpperCase (s : string) : string :=
  if Js.isAscii s then Js.asciiUpper s else upperCase E s.

Definition toLowerCase (s : string) : string :=
  if Js.isAscii s then Js.asciiLower s else lowerCase E s.

(** [new Set(["A1", "A2", "B1", "B2", "C1"])] *)
Definition allowed : gset string := list_to_set ["A1"; "A2"; "B1"; "B2"; "C1"].

(** [normalizeLevel], the same text in [part_000] and [part_001]. *)
Definition normalizeLevel (level : option value) : Res string :=
  s ← toStr (orDefault level (JStr "B2"));
  let lvl := Js.trim (toUpperCase s) in
  Returns (if bool_decide (lvl ∈ allowed) then lvl else "B2").

(** [levelSpec], the same text in [part_000] and [part_001]. *)
Definition levelSpec (lvl : string) : string :=
  if String.eqb lvl "A1" then Js.trim (Js.lines [
    "";
    "Use very simple words and short sentences (5–8 words).";
    "Speak slowly. Use present tense mostly.";
    "Ask ONE question at a time.";
    "Avoid idioms, slang, and phrasal verbs.";
    "Give only minimal correction if needed (1 short fix).";
    ""])
  else if String.eqb lvl "A2" then Js.trim (Js.lines [
    "";
    "Use simple vocabulary and short sentences (8–12 words).";
    "Use present and past simple.";
    "Ask ONE clear follow-up question.";
    "Give gentle corrections with a short example.";
    "Avoid complex idioms and advanced phrasal verbs.";
    ""])
  else if String.eqb lvl "B1" then Js.trim (Js.lines [
    "";
    "Use everyday vocabulary and natural short paragraphs.";
    "Use present/past/future. Some common phrasal verbs are OK.";
    "Ask follow-up questions and encourage longer answers.";
    "Correct gently and explain briefly (1–2 lines).";
    ""])
  else if String.eqb lvl "B2" then Js.trim (Js.lines [
    "";
    "Speak naturally and clearly with varied sentence structures.";
    "Use common idioms occasionally (not too many).";
    "Ask deeper follow-up questions and challenge the user a bit.";
    "Correct gently and give a better alternative phrasing.";
    ""])
  else if String.eqb lvl "C1" then Js.trim (Js.lines [
    "";
    "Speak fluently with advanced vocabulary and nuanced phrasing.";
    "Use idioms and collocations naturally.";
    "Ask analytical questions, request justification and examples.";
    "Provide precise corrections and style improvements (concise).";
    ""])
  else Js.trim (Js.lines [
    "";
    "Speak naturally and clearly at B2 level.";
    "Ask follow-up questions.";
    "Correct gently when needed.";
    ""]).

(** The chat messages built from the request's [messages]:
    [String(m.role || "").toLowerCase() === "assistant" ? "assistant" : "user"]
    and [String(m.content || "")], given the two property reads. *)
Definition chatMessage (r c : option value) : Res Message :=
  rs ← strOrEmpty r;
  cs ← strOrEmpty c;
  Returns (mkMessage
             (if String.eqb (toLowerCase rs) "assistant" then "assistant" else "user")
             cs).

(** The cleaning of [/ai/sentences-feedback], the same text in every
    revision: [items.map(...).filter(...)]. *)
Definition cleanItem (it : value) : Res CleanItem :=
  w ← getProp it "word";
  ws ← strOrEmpty w;
  ss ← getProp it "sentences";
  sents ← match ss with
          | Some (JArr l) => mapRes (fun s => Js.trim <$> strOrEmpty (Some s)) l
          | _ => Returns []
          end;
  Returns (mkClean (Js.trim ws) sents).

Definition keepItem (it : CleanItem) : bool :=
  Js.nonEmpty (word it)
  && (length (sentences it) =? 2)%nat
  && forallb (fun s => (0 <? String.length s)%nat) (sentences it).

Definition cleanItems (items : list value) : Res (list CleanItem) :=
  List.filter keepItem <$> mapRes cleanItem items.

(** [{ items: cleanItems }] as a value, for [JSON.stringify]. *)
Definition itemsValue (cl : list CleanItem) : value :=
  JObj [("items",
         JArr ((fun it => JObj [("word", JStr (word it));
                                ("sentences", JArr (JStr <$> sentences it))]) <$> cl))].

End Helpers.

(** ** [src/server.js]: the plain relay *)

Module Baseline.
Section Handlers.
Context {Num : Type} (E : Env Num).

Local Abbreviation value := (JSON Num).

(** [POST /ai/writing-feedback] *)
Definition writing_feedback (reqBody : value) : Response Num * list Event :=
  handle
    (let text := field reqBody "text" in
     let level := fieldOr reqBody "level" (JStr "B2") in
     let stepName := fieldOr reqBody "stepName" (JStr "Writing") in
     if negb (isTruthyOpt E text) || negb (typeofString text)
     then mret (json 400 (errorBody "Missing or invalid 'text'."))
     else
       level_s ← lift (toStr E level);
       let system := Js.lines [
         "You are an English tutor. Level: " +:+ level_s +:+ ".";
         "Return ONLY valid JSON with keys:";
         "corrected_text (string),";
         "key_issues (array of strings),";
         "rewrite_suggestions (array of strings),";
         "quick_tips (array of strings)."] in
       step_s ← lift (toStr E stepName);
       text_s ← lift (strOrEmpty E text);
       let user := Js.lines [
         "Step: " +:+ step_s;
         "Student text:";
         text_s;
         "";
         "Return the JSON now."] in
       completion ← createChat E
         (mkChat (MODEL E) (2 # 10) [mkMessage "system" system; mkMessage "user" user]);
       let content := trimmedContent completion in
       let parsed := parseJsonSafely E content in
       if negb (isTruthy E parsed)
       then mret (json 502 (rawBody "Model did not return valid JSON." content))
       else mret (json 200 parsed))
    (fun err => json 500 (errorBody (describe err))).

(** [POST /ai/vocabulary] *)
Definition vocabulary (reqBody : value) : Response Num * list Event :=
  handle
    (let words := field reqBody "words" in
     let level := fieldOr reqBody "level" (JStr "B2") in
     match words with
     | Some (JArr (w :: ws)) =>
         level_s ← lift (toStr E level);
         let system := Js.lines [
           "You are an English vocabulary coach. Level: " +:+ level_s +:+ ".";
           "Return ONLY valid JSON: an array of items, each item with:";
           "word (string),";
           "definition (string),";
           "synonyms (array of strings),";
           "examples (array of strings),";
           "collocations (array of strings)."] in
         joined ← lift (joinValues (numToString E) ", " (w :: ws));
         let user := Js.lines [
           "Words: " +:+ joined;
           "Return the JSON array now."] in
         completion ← createChat E
           (mkChat (MODEL E) (3 # 10) [mkMessage "system" system; mkMessage "user" user]);
         let content := trimmedContent completion in
         let parsed := parseJsonSafely E content in
         if negb (isTruthy E parsed) || negb (isArray (Some parsed))
         then mret (json 502 (rawBody "Model did not return a valid JSON array." content))
         else mret (json 200 parsed)
     | _ => mret (json 400 (errorBody "Missing or invalid 'words' array."))
     end)
    (fun err => json 500 (errorBody (describe err))).

(** [POST /ai/sentences-feedback] *)
Definition sentences_feedback (reqBody : value) : Response Num * list Event :=
  handle
    (let items := field reqBody "items" in
     let level := field reqBody "level" in
     match items with
     | Some (JArr (it :: its)) =>
         cl ← lift (cleanItems E (it :: its));
         if (length cl =? 0)%nat
         then mret (json 400 (errorBody "Each item must have a word and 2 sentences."))
         else
           lvl ← lift (toStr E (orDefault E level (JStr "B2")));
           let system := Js.trim (Js.lines [
             "";
             "You are an English teacher (level " +:+ lvl +:+ ").";
             "Return ONLY valid JSON.";
             ""]) in
           let user := JSON_stringify E (Some 2%nat) (itemsValue cl) in
           completion ← createChat E
             (mkChat (MODEL E) (2 # 10) [mkMessage "system" system; mkMessage "user" user]);
           let content := contentOrEmpty completion in
           let parsed := parseJsonSafely E content in
           if negb (isTruthy E parsed)
           then mret (json 502 (rawBody "Model did not return valid JSON." content))
           else mret (json 200 parsed)
     | _ => mret (json 400 (errorBody "Missing 'items' (array)."))
     end)
    (fun err => json 500 (errorBody (errorToString err))).

(** [POST /ai/resume-score] *)
Definition resume_score (reqBody : value) : Response Num * list Event :=
  handle
    (let writing1 := fieldOr reqBody "writing1" (JStr "") in
     let writing2 := fieldOr reqBody "writing2" (JStr "") in
     let writing100 := fieldOr reqBody "writing100" (JStr "") in
     let newWords := fieldOr reqBody "newWords" (JArr []) in
     let sentencesByWord := fieldOr reqBody "sentencesByWord" (JObj []) in
     let level := fieldOr reqBody "level" (JStr "B2") in
     level_s ← lift (toStr E level);
     let system := Js.lines [
       "You are an English tutor and evaluator. Level: " +:+ level_s +:+ ".";
       "Return ONLY valid JSON with keys:";
       "summary (string),";
       "score_total (int 0-100),";
       "breakdown (object with grammar, clarity, vocabulary, improvement; each 0-25),";
       "next_steps (array of strings)."] in
     w1 ← lift (toStr E writing1);
     w2 ← lift (toStr E writing2);
     w100 ← lift (toStr E writing100);
     let user := Js.lines [
       "Student session data:";
       "- Draft 1: " +:+ w1;
       "- Draft 2: " +:+ w2;
       "- 100-word paragraph: " +:+ w100;
       "- New words: " +:+ JSON_stringify E None newWords;
       "- Sentences by word: " +:+ JSON_stringify E None sentencesByWord;
       "";
       "Return the JSON now."] in
     completion ← createChat E
       (mkChat (MODEL E) (2 # 10) [mkMessage "system" system; mkMessage "user" user]);
     let content := trimmedContent completion in
     let parsed := parseJsonSafely E content in
     if negb (isTruthy E parsed)
     then mret (json 502 (rawBody "Model did not return valid JSON." content))
     else mret (json 200 parsed))
    (fun err => json 500 (errorBody (describe err))).

(** The routes registered with [app.post]. *)
Definition post (path : string) : option (value -> Response Num * list Event) :=
  if String.eqb path "/ai/writing-feedback" then Some writing_feedback
  else if String.eqb path "/ai/vocabulary" then Some vocabulary
  else if String.eqb path "/ai/sentences-feedback" then Some sentences_feedback
  else if String.eqb path "/ai/resume-score" then Some resume_score
  else None.

End Handlers.
End Baseline.

(** ** [src/unnamed/part_000], second document: levels, translations, drafts
       and the TED-Ed context *)

Module TedEd.

(** What [extractTedEdContext] returns when it does not return [null]. *)
Record TedContext := mkContext {
  title : string;
  description : string;
  canonical : string;
  keywords : string
}.

Section Handlers.
Context {Num : Type} (E : Env Num).

Local Abbreviation value := (JSON Num).

(** [isAllowedTedEdUrl] *)
Definition isAllowedTedEdUrl (url : string) : bool :=
  match URL_parse E url with
  | Returns u =>
      if negb (String.eqb (protocol u) "https:") then false
      else String.eqb (hostname u) "ed.ted.com"
  | Throws _ => false
  end.

(** [fetchWithTimeout]: the timer only aborts the request, which is then a
    throw of [fetch]. *)
Definition fetchWithTimeout (url : string) (ms : Z) : M HttpResponse :=
  call (EvFetch (mkFetch url
          [("User-Agent",
            "Mozilla/5.0 (compatible; EnglishFlowBot/1.0; +https://englishflow-ai.onrender.com)");
           ("Accept", "text/html,application/xhtml+xml")] ms))
       (fetch E url).

(** [a || b] on what [.attr()] returns and a string. *)
Definition attrOr (a : option string) (b : string) : string :=
  match a with
  | Some x => if Js.nonEmpty x then x else b
  | None => b
  end.

Definition textOr (a b : string) : string := if Js.nonEmpty a then a else b.

(** [extractTedEdContext] *)
Definition extractTedEdContext (tedUrl : string) : M (option TedContext) :=
  if negb (Js.nonEmpty tedUrl) || negb (isAllowedTedEdUrl tedUrl)
  then mret None
  else
    res ← fetchWithTimeout tedUrl 8000;
    if negb (resp_ok res) then mret None
    else
      html ← lift (resp_text res);
      dom ← lift (cheerio_load E html);
      let title :=
        attrOr (metaProperty dom "og:title")
          (attrOr (metaName dom "twitter:title") (textOr (titleText dom) "")) in
      let description :=
        attrOr (metaProperty dom "og:description")
          (attrOr (metaName dom "description")
             (attrOr (metaName dom "twitter:description") "")) in
      let canonical :=
        attrOr (linkHref dom "canonical")
          (attrOr (metaProperty dom "og:url") tedUrl) in
      let keywords := attrOr (metaName dom "keywords") "" in
      mret (Some (mkContext (Js.trim title) (Js.trim description)
                            (Js.trim canonical) (Js.trim keywords))).

(** [POST /ai/writing-feedback] *)
Definition writing_feedback (reqBody : value) : Response Num * list Event :=
  handle
    (let text := field reqBody "text" in
     let level := fieldOr reqBody "level" (JStr "B2") in
     let stepName := fieldOr reqBody "stepName" (JStr "Writing") in
     if negb (isTruthyOpt E text) || negb (typeofString text)
     then mret (json 400 (errorBody "Missing or invalid 'text'."))
     else
       lvl ← lift (normalizeLevel E (Some level));
       let system := Js.lines [
         "You are an English tutor. Level: " +:+ lvl +:+ ".";
         "Return ONLY valid JSON with keys:";
         "corrected_text (string),";
         "key_issues (array of strings),";
         "rewrite_suggestions (array of strings),";
         "quick_tips (array of strings)."] in
       step_s ← lift (toStr E stepName);
       text_s ← lift (strOrEmpty E text);
       let user := Js.lines [
         "Step: " +:+ step_s;
         "Student text:";
         text_s;
         "";
         "Return the JSON now."] in
       completion ← createChat E
         (mkChat (MODEL E) (2 # 10) [mkMessage "system" system; mkMessage "user" user]);
       let content := trimmedContent completion in
       let parsed := parseJsonSafely E content in
       if negb (isTruthy E parsed)
       then mret (json 502 (rawBody "Model did not return valid JSON." content))
       else mret (json 200 parsed))
    (fun err => json 500 (errorBody (describe err))).

(** [words.map((w) => String(w || "").trim()).filter(Boolean)], also the
    cleaning of [nativeLanguageCodes] and of the conversation vocabulary. *)
Definition cleanStrings (l : list value) : Res (list string) :=
  List.filter Js.nonEmpty <$> mapRes (fun w => Js.trim <$> strOrEmpty E (Some w)) l.

(** The [langs.filter] with its [seen] set: one code per normalised key. *)
Fixpoint uniqueLangs (seen : gset string) (langs : list string) : list string :=
  match langs with
  | [] => []
  | c :: r =>
      let key := Js.replaceAllChar "_" "-" (toLowerCase E c) in
      if negb (Js.nonEmpty key) then uniqueLangs seen r
      else if bool_decide (key ∈ seen) then uniqueLangs seen r
      else c :: uniqueLangs ({[key]} ∪ seen) r
  end.

(** The languages to translate into, before the [seen] filter. *)
Definition requestedLangs (codes code : option value) : Res (list string) :=
  match codes with
  | Some (JArr (c :: cs)) => cleanStrings (c :: cs)
  | _ =>
      if isTruthyOpt E code then
        code_s ← strOrEmpty E code;
        if Js.nonEmpty (Js.trim code_s) then Returns [Js.trim code_s] else Returns []
      else Returns []
  end.

(** The output normalisation of [/ai/vocabulary]: [translations] always
    exists. *)
Definition normalizeItem (it : value) : value :=
  let obj := if typeofObject it && isTruthy E it then it else JObj [] in
  let translations :=
    match field obj "translations" with
    | Some t => if isTruthy E t && typeofObject t then t else JObj []
    | None => JObj []
    end in
  JObj (setProp "translations" translations (spreadProps obj)).

(** [POST /ai/vocabulary] *)
Definition vocabulary (reqBody : value) : Response Num * list Event :=
  handle
    (let words := field reqBody "words" in
     let level := fieldOr reqBody "level" (JStr "B2") in
     let nativeLanguageCode := field reqBody "nativeLanguageCode" in
     let nativeLanguageCodes := field reqBody "nativeLanguageCodes" in
     match words with
     | Some (JArr (w :: ws)) =>
         cleanWords ← lift (cleanStrings (w :: ws));
         if (length cleanWords =? 0)%nat
         then mret (json 400 (errorBody "Missing or invalid 'words' array."))
         else
           lvl ← lift (normalizeLevel E (Some level));
           langs0 ← lift (requestedLangs nativeLanguageCodes nativeLanguageCode);
           let langs := uniqueLangs ∅ langs0 in
           let translationsRule :=
             if (0 <? length langs)%nat then Js.lines [
               "";
               "Also include:";
               "translations (object) where keys are exactly: "
                 +:+ JSON_stringify E None (JArr (JStr <$> langs));
               "- Each value is a SHORT, natural translation of the WORD (not the definition).";
               Js.quoted "- If a translation is not possible, return '' (empty string).";
               ""]
             else Js.lines [
               "";
               "Also include:";
               "translations (object) as {} (empty) because no native language was provided.";
               ""] in
           let system := Js.trim (Js.lines [
             "";
             "You are an English vocabulary coach. Level: " +:+ lvl +:+ ".";
             "";
             "Return ONLY valid JSON: an array of items, each item with:";
             "word (string),";
             "definition (string),";
             "synonyms (array of strings),";
             "examples (array of strings),";
             "collocations (array of strings).";
             translationsRule;
             "";
             "STRICT RULES:";
             "- Return JSON only. No markdown, no extra text.";
             "- Keep definitions in English.";
             "- Synonyms/examples/collocations should be appropriate for level "
               +:+ lvl +:+ ".";
             ""]) in
           let user := Js.trim (Js.lines [
             "";
             "Words: " +:+ Js.join ", " cleanWords;
             "Return the JSON array now.";
             ""]) in
           completion ← createChat E
             (mkChat (MODEL E) (3 # 10) [mkMessage "system" system; mkMessage "user" user]);
           let content := trimmedContent completion in
           let parsed := parseJsonSafely E content in
           (* [!json || !Array.isArray(json)]: an array is truthy *)
           match parsed with
           | JArr items => mret (json 200 (JArr (normalizeItem <$> items)))
           | _ => mret (json 502 (rawBody "Model did not return a valid JSON array." content))
           end
     | _ => mret (json 400 (errorBody "Missing or invalid 'words' array."))
     end)
    (fun err => json 500 (errorBody (describe err))).

(** The system prompt of [/ai/sentences-feedback]. *)
Definition sentencesSystem (lvl : string) : string :=
  Js.trim (Js.lines [
    "";
    "You are an English teacher for level " +:+ lvl +:+ ".";
    "Return ONLY valid JSON (no markdown, no extra text).";
    "";
    "Required JSON schema:";
    "{";
    Js.quoted "  'results': [";
    "    {";
    Js.quoted "      'word': 'string',";
    Js.quoted "      'sentences': [";
    "        {";
    Js.quoted "          'original': 'string',";
    Js.quoted "          'corrected': 'string',";
    Js.quoted "          'issues': ['string'],";
    Js.quoted "          'tips': ['string']";
    "        },";
    "        {";
    Js.quoted "          'original': 'string',";
    Js.quoted "          'corrected': 'string',";
    Js.quoted "          'issues': ['string'],";
    Js.quoted "          'tips': ['string']";
    "        }";
    "      ],";
    Js.quoted "      'overall_tips': ['string']";
    "    }";
    "  ]";
    "}";
    ""]).

Definition sentencesUser (lvl : string) (cl : list CleanItem) : string :=
  Js.trim (Js.lines [
    "";
    "Analyze these items. Each item has a word and exactly 2 sentences.";
    "Keep corrections natural and " +:+ lvl +:+ "-friendly.";
    "Return the JSON now.";
    "";
    "Items:";
    JSON_stringify E (Some 2%nat) (itemsValue cl);
    ""]).

(** [POST /ai/sentences-feedback] *)
Definition sentences_feedback (reqBody : value) : Response Num * list Event :=
  handle
    (let items := field reqBody "items" in
     let level := field reqBody "level" in
     match items with
     | Some (JArr (it :: its)) =>
         cl ← lift (cleanItems E (it :: its));
         if (length cl =? 0)%nat
         then mret (json 400 (errorBody "Each item must have a word and 2 sentences."))
         else
           lvl ← lift (normalizeLevel E level);
           completion ← createChat E
             (mkChat (MODEL E) (2 # 10)
                [mkMessage "system" (sentencesSystem lvl);
                 mkMessage "user" (sentencesUser lvl cl)]);
           let content := contentOrEmpty completion in
           let parsed := parseJsonSafely E content in
           if negb (isTruthy E parsed)
           then mret (json 502 (rawBody "Model did not return valid JSON" content))
           else mret (json 200 parsed)
     | _ => mret (json 400 (errorBody "Missing 'items' (array)."))
     end)
    (fun err => json 500 (errorBody "Internal server error")).

(** [v ?? d] *)
Definition nullish (v : option value) (d : value) : value :=
  match v with
  | None | Some JNull => d
  | Some v => v
  end.

(** [t.trim().length > 0] *)
Definition notBlank (t : string) : bool := (0 <? String.length (Js.trim t))%nat.

(** The effective draft list of [/ai/resume-score]: format A ([drafts]) when
    it is an array, format B (the three legacy fields) otherwise. *)
Definition finalDrafts (reqBody : value) : Res (list string) :=
  let drafts := field reqBody "drafts" in
  writing1 ← toStr E (nullish (field reqBody "writing1") (JStr ""));
  writing2 ← toStr E (nullish (field reqBody "writing2") (JStr ""));
  writing100 ← toStr E (nullish (field reqBody "writing100") (JStr ""));
  match drafts with
  | Some (JArr ds) =>
      List.filter notBlank <$> mapRes (fun d => strOrEmpty E (Some d)) ds
  | _ => Returns (List.filter notBlank [writing1; writing2; writing100])
  end.

Definition resumeUser (drafts : list string) (newWords sentencesByWord : value)
  : string :=
  Js.lines [
    "Student session data:";
    "- Drafts: " +:+ JSON_stringify E None (JArr (JStr <$> drafts));
    "- New words: " +:+ JSON_stringify E None newWords;
    "- Sentences by word: " +:+ JSON_stringify E None sentencesByWord;
    "";
    "Return the JSON now."].

(** [POST /ai/resume-score] *)
Definition resume_score (reqBody : value) : Response Num * list Event :=
  handle
    (lvl ← lift (normalizeLevel E
                   (Some (orDefault E (field reqBody "level") (JStr "B2"))));
     drafts ← lift (finalDrafts reqBody);
     let newWords :=
       match field reqBody "newWords" with
       | Some (JArr ws) => JArr ws
       | _ => JArr []
       end in
     let sentencesByWord :=
       match field reqBody "sentencesByWord" with
       | Some v => if isTruthy E v && typeofObject v then v else JObj []
       | None => JObj []
       end in
     let system := Js.lines [
       "You are an English tutor and evaluator. Level: " +:+ lvl +:+ ".";
       "Return ONLY valid JSON with keys:";
       "summary (string),";
       "score_total (int 0-100),";
       "breakdown (object with grammar, clarity, vocabulary, improvement; each 0-25),";
       "next_steps (array of strings)."] in
     completion ← createChat E
       (mkChat (MODEL E) (2 # 10)
          [mkMessage "system" system;
           mkMessage "user" (resumeUser drafts newWords sentencesByWord)]);
     let content := trimmedContent completion in
     let parsed := parseJsonSafely E content in
     if negb (isTruthy E parsed)
     then mret (json 502 (rawBody "Model did not return valid JSON." content))
     else mret (json 200 parsed))
    (fun err => json 500 (errorBody (describe err))).

(** The vocabulary embedded in the conversation prompt:
    [vocabulary.map(...).filter(Boolean).slice(0, 30)], or [[]]. *)
Definition safeVocab (vocabulary : option value) : Res (list string) :=
  match vocabulary with
  | Some (JArr ws) => take 30 <$> cleanStrings ws
  | _ => Returns []
  end.

Definition conversationSystem (lvl spec : string) : string :=
  Js.trim (Js.lines [
    "";
    "You are an English conversation partner.";
    "Target level: " +:+ lvl +:+ " (CEFR).";
    "";
    "STYLE & LEVEL RULES:";
    spec;
    "";
    "GLOBAL RULES (always):";
    "- Be friendly and encouraging.";
    "- Keep focus on the TED-Ed topic when possible.";
    "- Use the provided vocabulary naturally when it fits (do not force).";
    "- Always ask a follow-up question at the end.";
    "- Corrections: keep them gentle, short, and helpful.";
    "- Never output JSON. Output plain conversational text only.";
    ""]).

(** The context prompt; [tedUrl] is the request's field converted by the
    template. *)
Definition conversationContext (tedContext : option TedContext) (tedUrl : string)
    (summary : string) (vocab : list string) : string :=
  Js.trim (Js.lines [
    "";
    "TED-Ed context:";
    match tedContext with
    | Some c => Js.lines [
        "Title: " +:+ textOr (title c) "Unknown";
        "Description: " +:+ textOr (description c) "No description available";
        "URL: " +:+ textOr (canonical c) (textOr tedUrl "")]
    | None => "No TED-Ed context fetched (missing/invalid tedUrl or fetch failed)."
    end;
    "";
    "Fallback topic summary (if any):";
    textOr (Js.trim summary) "No summary provided.";
    "";
    "Key vocabulary:";
    Js.join ", " vocab;
    "";
    "If the user has no messages yet, start by asking ONE open question about the TED-Ed topic.";
    ""]).

(** [POST /ai/conversation] *)
Definition conversation (reqBody : value) : Response Num * list Event :=
  handle
    (let level := field reqBody "level" in
     let topicResume := field reqBody "topicResume" in
     let vocabulary := field reqBody "vocabulary" in
     let messages := field reqBody "messages" in
     let tedUrl := field reqBody "tedUrl" in
     match messages with
     | Some (JArr msgs) =>
         if negb (isTruthyOpt E level)
         then mret (json 400 (errorBody "Missing required fields: level, messages"))
         else
           lvl ← lift (normalizeLevel E level);
           let spec := levelSpec lvl in
           tedUrl_s ← (if isTruthyOpt E tedUrl then lift (strOrEmpty E tedUrl) else mret "");
           tedContext ← (if isTruthyOpt E tedUrl
                         then extractTedEdContext (Js.trim tedUrl_s)
                         else mret None);
           vocab ← lift (safeVocab vocabulary);
           let systemPrompt := conversationSystem lvl spec in
           summary ← lift (strOrEmpty E topicResume);
           let contextPrompt := conversationContext tedContext tedUrl_s summary vocab in
           history ← lift (mapRes
             (fun m => r ← getProp m "role"; c ← getProp m "content";
                       chatMessage E r c)
             msgs);
           completion ← createChat E
             (mkChat (MODEL E) (7 # 10)
                (mkMessage "system" systemPrompt
                 :: mkMessage "user" contextPrompt :: history));
           let reply := trimmedContent completion in
           if negb (Js.nonEmpty reply)
           then mret (json 502 (errorBody "Empty reply from model"))
           else mret (json 200 (JObj [
             ("reply", JStr reply);
             ("usedTedUrl", JBool (bool_decide (is_Some tedContext)));
             ("tedTitle",
              match tedContext with
              | Some c => if Js.nonEmpty (title c) then JStr (title c) else JNull
              | None => JNull
              end)]))
     | _ => mret (json 400 (errorBody "Missing required fields: level, messages"))
     end)
    (fun err => mkResponse 500 (BText (messageOr err "Conversation error"))).

(** The routes registered with [app.post]. *)
Definition post (path : string) : option (value -> Response Num * list Event) :=
  if String.eqb path "/ai/writing-feedback" then Some writing_feedback
  else if String.eqb path "/ai/vocabulary" then Some vocabulary
  else if String.eqb path "/ai/sentences-feedback" then Some sentences_feedback
  else if String.eqb path "/ai/resume-score" then Some resume_score
  else if String.eqb path "/ai/conversation" then Some conversation
  else None.

End Handlers.
End TedEd.

(** ** [src/unnamed/part_001], first document: the lesson link *)

Module Lesson.

(** What [fetchTedEdContext] returns; [reason] is absent when [ok]. *)
Record TedResult := mkTed {
  url : string;
  title : string;
  description : string;
  extractedText : string;
  ok : bool;
  reason : option string
}.

Section Handlers.
Context {Num : Type} (E : Env Num).

Local Abbreviation value := (JSON Num).

(** [isValidTedEdLessonUrl] *)
Definition isValidTedEdLessonUrl (urlStr : string) : bool :=
  match URL_parse E urlStr with
  | Returns u =>
      String.eqb (protocol u) "https:"
      && String.eqb (hostname u) "ed.ted.com"
      && Js.startsWith (pathname u) "/lessons/"
  | Throws _ => false
  end.

Definition textOr (a b : string) : string := if Js.nonEmpty a then a else b.

Definition attrOr (a : option string) (b : string) : string :=
  match a with
  | Some x => if Js.nonEmpty x then x else b
  | None => b
  end.

(** One ld+json script of the page: [JSON.parse] and the two conversions run
    inside a [try] whose [catch] is empty. *)
Definition ldStep (acc : string * string) (script : string) : string * string :=
  let '(ldTitle, ldDesc) := acc in
  match JSON_parse E script with
  | Throws _ => acc
  | Returns j =>
      let name := getPropOpt (Some j) "name" in
      match (if negb (Js.nonEmpty ldTitle) && isTruthyOpt E name
             then Js.trim <$> strOrEmpty E name else Returns ldTitle) with
      | Throws _ => acc
      | Returns ldTitle' =>
          let desc := getPropOpt (Some j) "description" in
          match (if negb (Js.nonEmpty ldDesc) && isTruthyOpt E desc
                 then Js.trim <$> strOrEmpty E desc else Returns ldDesc) with
          | Throws _ => (ldTitle', ldDesc)
          | Returns ldDesc' => (ldTitle', ldDesc')
          end
      end
  end.

Definition failed (url why : string) : TedResult :=
  mkTed url "" "" "" false (Some why).

(** [fetchTedEdContext] *)
Definition fetchTedEdContext (lessonUrl : string) : M TedResult :=
  let url := Js.trim lessonUrl in
  if negb (Js.nonEmpty url) || negb (isValidTedEdLessonUrl url)
  then mret (failed url (if negb (Js.nonEmpty url)
                         then "missing_url" else "invalid_ted_ed_url"))
  else
    tryCatch
      (resp ← call (EvFetch (mkFetch url
                      [("User-Agent", "EnglishFlowBot/1.0"); ("Accept", "text/html")]
                      12000))
                   (fetch E url);
       html ← lift (resp_text resp);
       dom ← lift (cheerio_load E html);
       let ogTitle := attrOr (metaProperty dom "og:title") "" in
       let ogDesc := attrOr (metaProperty dom "og:description") "" in
       let h1 := Js.trim (h1Text dom) in
       let pageTitle := Js.trim (titleText dom) in
       let metaDesc := attrOr (metaName dom "description") "" in
       let '(ldTitle, ldDesc) := fold_left ldStep (ldJsonScripts dom) ("", "") in
       let title := Js.trim (textOr ldTitle (textOr ogTitle (textOr h1 pageTitle))) in
       let description := Js.trim (textOr ldDesc (textOr ogDesc metaDesc)) in
       let extractedText :=
         Js.lines (List.filter Js.nonEmpty [
           if Js.nonEmpty title then "Title: " +:+ title else "";
           if Js.nonEmpty description then "Description: " +:+ description else ""]) in
       mret (mkTed url title description extractedText true None))
      (fun _ => mret (failed url "fetch_failed")).

(** The [seen] filter of the conversation vocabulary. *)
Fixpoint uniqueVocab (seen : gset string) (ws : list string) : list string :=
  match ws with
  | [] => []
  | w :: r =>
      let k := toLowerCase E w in
      if bool_decide (k ∈ seen) then uniqueVocab seen r
      else w :: uniqueVocab ({[k]} ∪ seen) r
  end.

(** [vocabulary.map((w) => String(w || "").trim()).filter(Boolean)], or [[]] *)
Definition cleanedVocab (vocabulary : value) : Res (list string) :=
  match vocabulary with
  | JArr ws =>
      List.filter Js.nonEmpty <$> mapRes (fun w => Js.trim <$> strOrEmpty E (Some w)) ws
  | _ => Returns []
  end.

Definition conversationSystem (lvl spec : string) : string :=
  Js.trim (Js.lines [
    "";
    "You are an English conversation partner.";
    "Target level: " +:+ lvl +:+ " (CEFR).";
    "";
    "STYLE & LEVEL RULES:";
    spec;
    "";
    "GLOBAL RULES (always):";
    "- Be friendly and encouraging.";
    "- Keep focus on the TED-Ed topic when possible.";
    "- Use the provided vocabulary naturally when it fits (do not force).";
    "- Always ask a follow-up question at the end.";
    "- Corrections: keep them gentle, short, and helpful.";
    "- Never output JSON. Output plain conversational text only.";
    ""]).

Definition conversationContext (ted : TedResult) (summary : string)
    (vocab : list string) : string :=
  Js.trim (Js.lines [
    "";
    "TED-Ed lesson link:";
    textOr (url ted) "No link provided.";
    "";
    "TED-Ed context (use this as the main reference):";
    textOr (extractedText ted)
      "Could not extract TED-Ed content. Use the fallback summary below if available.";
    "";
    "Fallback summary (if needed):";
    textOr (Js.trim summary) "No summary provided.";
    "";
    "Key vocabulary:";
    if (0 <? length vocab)%nat then Js.join ", " vocab else "(none)";
    "";
    "If this is the first turn (no messages yet), start by asking ONE open question about the topic.";
    "Otherwise, continue the conversation naturally.";
    ""]).

(** [{ url, title, description, ok, reason }] as the response carries it. *)
Definition tedValue (ted : TedResult) : value :=
  JObj ([("url", JStr (url ted));
         ("title", JStr (title ted));
         ("description", JStr (description ted));
         ("ok", JBool (ok ted))]
        ++ match reason ted with
           | Some r => [("reason", JStr r)]
           | None => []
           end).

(** [POST /ai/conversation] *)
Definition conversation (reqBody : value) : Response Num * list Event :=
  handle
    (let level := field reqBody "level" in
     let videoUrl := field reqBody "videoUrl" in
     let tedUrl := field reqBody "tedUrl" in
     let topicResume := field reqBody "topicResume" in
     let vocabulary := fieldOr reqBody "vocabulary" (JArr []) in
     let messages := fieldOr reqBody "messages" (JArr []) in
     lvl ← lift (normalizeLevel E level);
     match messages with
     | JArr msgs =>
         lessonLink ← lift (toStr E (orDefault E videoUrl
                                       (orDefault E tedUrl (JStr ""))));
         ted ← fetchTedEdContext (Js.trim lessonLink);
         cleaned ← lift (cleanedVocab vocabulary);
         let vocab := uniqueVocab ∅ cleaned in
         let spec := levelSpec lvl in
         let systemPrompt := conversationSystem lvl spec in
         summary ← lift (strOrEmpty E topicResume);
         let contextPrompt := conversationContext ted summary vocab in
         safeMessages ← lift (mapRes
           (fun m => chatMessage E (getPropOpt (Some m) "role")
                                   (getPropOpt (Some m) "content"))
           msgs);
         completion ← createChat E
           (mkChat (MODEL E) (6 # 10)
              (mkMessage "system" systemPrompt
               :: mkMessage "user" contextPrompt :: safeMessages));
         let reply := trimmedContent completion in
         if negb (Js.nonEmpty reply)
         then mret (json 502 (errorBody "Empty reply from model"))
         else mret (json 200 (JObj [("reply", JStr reply); ("ted", tedValue ted)]))
     | _ => mret (json 400 (errorBody "Invalid 'messages' array."))
     end)
    (fun err => json 500 (errorBody (messageOr err "Conversation error"))).

(** The routes registered with [app.post].  The text of
    [/ai/writing-feedback], [/ai/vocabulary] and [/ai/resume-score] is that
    of [src/server.js], the text of [/ai/sentences-feedback] that of
    [part_000]. *)
Definition post (path : string) : option (value -> Response Num * list Event) :=
  if String.eqb path "/ai/writing-feedback" then Some (Baseline.writing_feedback E)
  else if String.eqb path "/ai/vocabulary" then Some (Baseline.vocabulary E)
  else if String.eqb path "/ai/sentences-feedback" then Some (TedEd.sentences_feedback E)
  else if String.eqb path "/ai/resume-score" then Some (Baseline.resume_score E)
  else if String.eqb path "/ai/conversation" then Some conversation
  else None.

End Handlers.
End Lesson.

(** ** [src/unnamed/part_001], second document: provider-side JSON schema *)

Module Structured.
Section Handlers.
Context {Num : Type} (E : Env Num).

Local Abbreviation value := (JSON Num).

Definition strings : Schema := SArray SString None None.

Definition writingSchema : Schema :=
  SObject false
    [("corrected_text", SString);
     ("key_issues", strings);
     ("rewrite_suggestions", SArray SString (Some 3%nat) (Some 3%nat));
     ("quick_tips", strings)]
    ["corrected_text"; "key_issues"; "rewrite_suggestions"; "quick_tips"].

Definition vocabSchema : Schema :=
  SArray
    (SObject false
       [("word", SString);
        ("definition", SString);
        ("synonyms", SArray SString (Some 3%nat) (Some 8%nat));
        ("examples", SArray SString (Some 2%nat) (Some 2%nat));
        ("collocations", SArray SString (Some 0%nat) (Some 6%nat))]
       ["word"; "definition"; "synonyms"; "examples"; "collocations"])
    None None.

Definition resumeSchema : Schema :=
  SObject false
    [("summary", SString);
     ("score_total", SInteger 0 100);
     ("breakdown",
      SObject false
        [("grammar", SInteger 0 25);
         ("clarity", SInteger 0 25);
         ("vocabulary", SInteger 0 25);
         ("improvement", SInteger 0 25)]
        ["grammar"; "clarity"; "vocabulary"; "improvement"]);
     ("next_steps", SArray SString (Some 3%nat) (Some 7%nat))]
    ["summary"; "score_total"; "breakdown"; "next_steps"].

(** [await client.responses.create(req)], then [resp.output_text] *)
Definition createResponse (req : ResponsesRequest) : M string :=
  call (EvResponses req) (responses_create E req).

(** [res.json(JSON.parse(resp.output_text))] *)
Definition relay (output_text : string) : M (Response Num) :=
  parsed ← lift (JSON_parse E output_text);
  mret (json 200 parsed).

Definition newline : string := String "010" "".

(** [const { k, ... } = req.body], without the [|| {}] of the other
    revisions: a [TypeError] on a body that is [null], [k] being the first
    property of the pattern. *)
Definition destructured (reqBody : value) (k : string) : Res value :=
  match reqBody with
  | JNull =>
      Throws (TypeError ("Cannot destructure property '" +:+ k
                         +:+ "' of 'req.body' as it is null."))
  | _ => Returns reqBody
  end.

(** [POST /ai/writing-feedback] *)
Definition writing_feedback (reqBody : value) : Response Num * list Event :=
  handle
    (body ← lift (destructured reqBody "text");
     let text := field body "text" in
     let level := fieldOr body "level" (JStr "B2") in
     let stepName := fieldOr body "stepName" (JStr "Writing") in
     if negb (isTruthyOpt E text) || negb (typeofString text)
     then mret (json 400 (errorBody "Missing text"))
     else
       level_s ← lift (toStr E level);
       step_s ← lift (toStr E stepName);
       text_s ← lift (strOrEmpty E text);
       output ← createResponse
         (mkResponses (MODEL E)
            [mkMessage "system"
               ("You are an English tutor. Be concise, kind, practical. CEFR "
                +:+ level_s +:+ ". Context: " +:+ step_s +:+ ".");
             mkMessage "user" ("Student text:" +:+ newline +:+ text_s)]
            "writing_feedback" writingSchema);
       relay output)
    (fun e => json 500 (errorBody (errorToString e))).

(** [POST /ai/vocabulary] *)
Definition vocabulary (reqBody : value) : Response Num * list Event :=
  handle
    (body ← lift (destructured reqBody "words");
     let words := fieldOr body "words" (JArr []) in
     let level := fieldOr body "level" (JStr "B2") in
     match words with
     | JArr (w :: ws) =>
         level_s ← lift (toStr E level);
         joined ← lift (joinValues (numToString E) ", " (w :: ws));
         output ← createResponse
           (mkResponses (MODEL E)
              [mkMessage "system"
                 ("You are an English tutor and vocabulary coach. Everything in English. Level: "
                  +:+ level_s +:+ ".");
               mkMessage "user" ("Words:" +:+ newline +:+ joined)]
              "vocab_list" vocabSchema);
         relay output
     | _ => mret (json 400 (errorBody "Missing words"))
     end)
    (fun e => json 500 (errorBody (errorToString e))).

(** [POST /ai/resume-score] *)
Definition resume_score (reqBody : value) : Response Num * list Event :=
  handle
    (body ← lift (destructured reqBody "writing1");
     let writing1 := fieldOr body "writing1" (JStr "") in
     let writing2 := fieldOr body "writing2" (JStr "") in
     let writing100 := fieldOr body "writing100" (JStr "") in
     let newWords := fieldOr body "newWords" (JArr []) in
     let sentencesByWord := fieldOr body "sentencesByWord" (JObj []) in
     let level := fieldOr body "level" (JStr "B2") in
     level_s ← lift (toStr E level);
     w1 ← lift (toStr E writing1);
     w2 ← lift (toStr E writing2);
     w100 ← lift (toStr E writing100);
     words ← lift (match newWords with
                   | JArr ws => joinValues (numToString E) ", " ws
                   | _ => Throws (TypeError "newWords.join is not a function")
                   end);
     output ← createResponse
       (mkResponses (MODEL E)
          [mkMessage "system"
             ("You are an English tutor. Summarize the session and score 0–100. Everything in English. CEFR "
              +:+ level_s +:+ ".");
           mkMessage "user"
             ("Draft 1:" +:+ newline +:+ w1 +:+ newline +:+ newline
              +:+ "Draft 2:" +:+ newline +:+ w2 +:+ newline +:+ newline
              +:+ "100-word paragraph:" +:+ newline +:+ w100 +:+ newline +:+ newline
              +:+ "New words:" +:+ newline +:+ words +:+ newline +:+ newline
              +:+ "Sentences by word:" +:+ newline
              +:+ JSON_stringify E (Some 2%nat) sentencesByWord)]
          "resume_score" resumeSchema);
     relay output)
    (fun e => json 500 (errorBody (errorToString e))).

(** The routes registered with [app.post]. *)
Definition post (path : string) : option (value -> Response Num * list Event) :=
  if String.eqb path "/ai/writing-feedback" then Some writing_feedback
  else if String.eqb path "/ai/vocabulary" then Some vocabulary
  else if String.eqb path "/ai/resume-score" then Some resume_score
  else None.

End Handlers.
End Structured.

(** ** [src/server.js], second document: the conversation on a topic summary

    [/ai/writing-feedback], [/ai/vocabulary] and [/ai/resume-score] are
    those of the first document. *)

Module Topic.
Section Handlers.
Context {Num : Type} (E : Env Num).

Local Abbreviation value := (JSON Num).

(** [POST /ai/sentences-feedback]: the prompts of [part_000], the level in
    upper case only. *)
Definition sentences_feedback (reqBody : value) : Response Num * list Event :=
  handle
    (let items := field reqBody "items" in
     let level := field reqBody "level" in
     match items with
     | Some (JArr (it :: its)) =>
         cl ← lift (cleanItems E (it :: its));
         if (length cl =? 0)%nat
         then mret (json 400 (errorBody "Each item must have a word and 2 sentences."))
         else
           level_s ← lift (toStr E (orDefault E level (JStr "B2")));
           let lvl := toUpperCase E level_s in
           completion ← createChat E
             (mkChat (MODEL E) (2 # 10)
                [mkMessage "system" (TedEd.sentencesSystem lvl);
                 mkMessage "user" (TedEd.sentencesUser E lvl cl)]);
           let content := contentOrEmpty completion in
           let parsed := parseJsonSafely E content in
           if negb (isTruthy E parsed)
           then mret (json 502 (rawBody "Model did not return valid JSON" content))
           else mret (json 200 parsed)
     | _ => mret (json 400 (errorBody "Missing 'items' (array)."))
     end)
    (fun err => json 500 (errorBody "Internal server error")).

(** The [levelSpec] declared inside the handler: the templates are not
    trimmed. *)
Definition levelSpec (lvl : string) : string :=
  if String.eqb lvl "A1" then Js.lines [
    "";
    "Use very simple words and short sentences (5–8 words).";
    "Speak slowly. Use present tense mostly.";
    "Ask ONE question at a time.";
    "Avoid idioms, slang, and phrasal verbs.";
    "Give only minimal correction if needed (1 short fix).";
    ""]
  else if String.eqb lvl "A2" then Js.lines [
    "";
    "Use simple vocabulary and short sentences (8–12 words).";
    "Use present and past simple.";
    "Ask ONE clear follow-up question.";
    "Give gentle corrections with a short example.";
    "Avoid complex idioms and advanced phrasal verbs.";
    ""]
  else if String.eqb lvl "B1" then Js.lines [
    "";
    "Use everyday vocabulary and natural short paragraphs.";
    "Use present/past/future. Some common phrasal verbs are OK.";
    "Ask follow-up questions and encourage longer answers.";
    "Correct gently and explain briefly (1–2 lines).";
    ""]
  else if String.eqb lvl "B2" then Js.lines [
    "";
    "Speak naturally and clearly with varied sentence structures.";
    "Use common idioms occasionally (not too many).";
    "Ask deeper follow-up questions and challenge the user a bit.";
    "Correct gently and give a better alternative phrasing.";
    ""]
  else if String.eqb lvl "C1" then Js.lines [
    "";
    "Speak fluently with advanced vocabulary and nuanced phrasing.";
    "Use idioms and collocations naturally.";
    "Ask analytical questions, request justification and examples.";
    "Provide precise corrections and style improvements (concise).";
    ""]
  else Js.lines [
    "";
    "Speak naturally and clearly at B2 level.";
    "Ask follow-up questions.";
    "Correct gently when needed.";
    ""].

(** [(topicResume || "").trim()]: [trim] is a method of strings only. *)
Definition trimmedSummary (topicResume : option value) : Res string :=
  match orDefault E topicResume (JStr "") with
  | JStr s => Returns (Js.trim s)
  | _ => Throws (TypeError (Js.quoted "(topicResume || '').trim is not a function"))
  end.

(** [Array.isArray(vocabulary) ? vocabulary.join(", ") : ""] *)
Definition joinedVocabulary (vocabulary : option value) : Res string :=
  match vocabulary with
  | Some (JArr ws) => joinValues (numToString E) ", " ws
  | _ => Returns ""
  end.

Definition conversationContext (summary vocab : string) : string :=
  Js.trim (Js.lines [
    "";
    "Topic summary (TED-Ed):";
    TedEd.textOr summary "No summary provided.";
    "";
    "Key vocabulary:";
    vocab;
    "";
    "If the user has no messages yet, start by asking ONE open question about the topic.";
    ""]).

(** [String(v)] of a property read: ["undefined"] when it is absent. *)
Definition toStrOpt (v : option value) : Res string :=
  match v with
  | Some v => toStr E v
  | None => Returns "undefined"
  end.

(** [safeMessages.some(m => String(m.role).toLowerCase() === "user")]: the
    result is not used, the reads and conversions are made. *)
Fixpoint hasUserMsgs (msgs : list value) : Res bool :=
  match msgs with
  | [] => Returns false
  | m :: r =>
      role ← getProp m "role";
      s ← toStrOpt role;
      if String.eqb (toLowerCase E s) "user" then Returns true else hasUserMsgs r
  end.

(** [POST /ai/conversation] *)
Definition conversation (reqBody : value) : Response Num * list Event :=
  handle
    (let level := field reqBody "level" in
     let topicResume := field reqBody "topicResume" in
     let vocabulary := field reqBody "vocabulary" in
     let messages := field reqBody "messages" in
     match messages with
     | Some (JArr msgs) =>
         if negb (isTruthyOpt E level)
         then mret (json 400 (errorBody "Missing required fields: level, messages"))
         else
           level_s ← lift (toStr E (orDefault E level (JStr "B2")));
           let lvl := Js.trim (toUpperCase E level_s) in
           let spec := levelSpec lvl in
           let systemPrompt := TedEd.conversationSystem lvl spec in
           summary ← lift (trimmedSummary topicResume);
           vocab ← lift (joinedVocabulary vocabulary);
           let contextPrompt := conversationContext summary vocab in
           hasUser ← lift (hasUserMsgs msgs);
           history ← lift (mapRes
             (fun m => r ← getProp m "role"; c ← getProp m "content";
                       chatMessage E r c)
             msgs);
           completion ← createChat E
             (mkChat (MODEL E) (7 # 10)
                (mkMessage "system" systemPrompt
                 :: mkMessage "user" contextPrompt :: history));
           let reply := trimmedContent completion in
           if negb (Js.nonEmpty reply)
           then mret (json 502 (errorBody "Empty reply from model"))
           else mret (json 200 (JObj [("reply", JStr reply)]))
     | _ => mret (json 400 (errorBody "Missing required fields: level, messages"))
     end)
    (fun err => mkResponse 500 (BText (messageOr err "Conversation error"))).

(** The routes registered with [app.post]. *)
Definition post (path : string) : option (value -> Response Num * list Event) :=
  if String.eqb path "/ai/writing-feedback" then Some (Baseline.writing_feedback E)
  else if String.eqb path "/ai/vocabulary" then Some (Baseline.vocabulary E)
  else if String.eqb path "/ai/sentences-feedback" then Some sentences_feedback
  else if String.eqb path "/ai/resume-score" then Some (Baseline.resume_score E)
  else if String.eqb path "/ai/conversation" then Some conversation
  else None.

End Handlers.
End Topic.

(** ** A small concrete environment

    Integers for numbers, the ASCII case mapping on every string, a reader
    and a printer for JSON texts over integers, a reader for plain
    hierarchical URLs, a blank page for cheerio.  The network answers are
    left to the caller.  The closed examples below run
    the handlers in this environment; the theorems hold in every
    environment. *)

Module Sample.

Definition isJsonSpace (c : ascii) : bool :=
  match c with
  | "009" | "010" | "013" | " " => true
  | _ => false
  end%char.

Fixpoint skipSpace (s : string) : string :=
  match s with
  | String c r => if isJsonSpace c then skipSpace r else s
  | EmptyString => EmptyString
  end.

(** [expect p s]: the rest of [s] after the prefix [p]. *)
Fixpoint expect (p s : string) : option string :=
  match p, s with
  | EmptyString, _ => Some s
  | String a p', String b s' => if Ascii.eqb a b then expect p' s' else None
  | _, _ => None
  end.

Definition digit (c : ascii) : option Z :=
  let n := nat_of_ascii c in
  if (48 <=? n)%nat && (n <=? 57)%nat then Some (Z.of_nat (n - 48)) else None.

Fixpoint readDigits (acc : Z) (s : string) : Z * string :=
  match s with
  | String c r =>
      match digit c with
      | Some d => readDigits (10 * acc + d) r
      | None => (acc, s)
      end
  | EmptyString => (acc, s)
  end.

(** An integer literal: no leading zero, no fraction, no exponent. *)
Definition readInteger (s : string) : option (Z * string) :=
  let unsigned (s : string) : option (Z * string) :=
    match s with
    | String c r =>
        match digit c with
        | Some 0%Z => Some (0%Z, r)
        | Some d => Some (readDigits d r)
        | None => None
        end
    | EmptyString => None
    end in
  match s with
  | String "-" r =>
      match unsigned r with
      | Some (n, r') => Some ((- n)%Z, r')
      | None => None
      end
  | _ => unsigned s
  end.

(** The characters of a string literal after its opening quote; of the
    escapes, the two-character ones. *)
Fixpoint readString (s : string) : option (string * string) :=
  match s with
  | EmptyString => None
  | String c r =>
      if Ascii.eqb c Js.dquote then Some (EmptyString, r)
      else if Ascii.eqb c "\" then
        match r with
        | String e r' =>
            let unescaped : option ascii :=
              if Ascii.eqb e Js.dquote then Some Js.dquote
              else match e with
                   | "\" => Some "\"
                   | "/" => Some "/"
                   | "b" => Some "008"
                   | "f" => Some "012"
                   | "n" => Some "010"
                   | "r" => Some "013"
                   | "t" => Some "009"
                   | _ => None
                   end%char in
            match unescaped, readString r' with
            | Some u, Some (t, rest) => Some (String u t, rest)
            | _, _ => None
            end
        | EmptyString => None
        end
      else if (nat_of_ascii c <? 32)%nat then None
      else match readString r with
           | Some (t, rest) => Some (String c t, rest)
           | None => None
           end
  end.

Section Reader.
Variable readValue : string -> option (JSON Z * string).

(** The elements after [[], up to the closing bracket. *)
Fixpoint readElements (n : nat) (s : string) : option (list (JSON Z) * string) :=
  match n with
  | O => None
  | S n' =>
      match readValue s with
      | Some (v, r) =>
          match skipSpace r with
          | String "," r' =>
              match readElements n' r' with
              | Some (vs, rest) => Some (v :: vs, rest)
              | None => None
              end
          | String "]" r' => Some ([v], r')
          | _ => None
          end
      | None => None
      end
  end.

(** The members after [{], up to the closing brace; a repeated key keeps
    its first place and its last value. *)
Fixpoint readMembers (n : nat) (acc : list (string * JSON Z)) (s : string)
  : option (list (string * JSON Z) * string) :=
  match n with
  | O => None
  | S n' =>
      match skipSpace s with
      | String q r =>
          if Ascii.eqb q Js.dquote then
            match readString r with
            | Some (k, r1) =>
                match skipSpace r1 with
                | String ":" r2 =>
                    match readValue r2 with
                    | Some (v, r3) =>
                        let acc' := setProp k v acc in
                        match skipSpace r3 with
                        | String "," r4 => readMembers n' acc' r4
                        | String "}" r4 => Some (acc', r4)
                        | _ => None
                        end
                    | None => None
                    end
                | _ => None
                end
            | None => None
            end
          else None
      | EmptyString => None
      end
  end.
End Reader.

Fixpoint readValue (fuel : nat) (s : string) : option (JSON Z * string) :=
  match fuel with
  | O => None
  | S fuel' =>
      match skipSpace s with
      | EmptyString => None
      | String c r as s' =>
          if Ascii.eqb c Js.dquote then
            match readString r with
            | Some (t, rest) => Some (JStr t, rest)
            | None => None
            end
          else match c with
               | "n" => (fun rest => (JNull, rest)) <$> expect "null" s'
               | "t" => (fun rest => (JBool true, rest)) <$> expect "true" s'
               | "f" => (fun rest => (JBool false, rest)) <$> expect "false" s'
               | "[" =>
                   match skipSpace r with
                   | String "]" rest => Some (JArr [], rest)
                   | r' =>
                       match readElements (readValue fuel') (String.length r') r' with
                       | Some (vs, rest) => Some (JArr vs, rest)
                       | None => None
                       end
                   end
               | "{" =>
                   match skipSpace r with
                   | String "}" rest => Some (JObj [], rest)
                   | r' =>
                       match readMembers (readValue fuel') (String.length r') [] r' with
                       | Some (ms, rest) => Some (JObj ms, rest)
                       | None => None
                       end
                   end
               | _ =>
                   match readInteger s' with
                   | Some (n, rest) => Some (JNum n, rest)
                   | None => None
                   end
               end%char
      end
  end.

Definition parse (text : string) : Res (JSON Z) :=
  match readValue (S (String.length text)) text with
  | Some (v, rest) =>
      match skipSpace rest with
      | EmptyString => Returns v
      | _ => Throws (SyntaxError "Unexpected non-whitespace character after JSON")
      end
  | None => Throws (SyntaxError "Unexpected token in JSON")
  end.

Definition hexDigit (n : nat) : ascii :=
  ascii_of_nat (if (n <? 10)%nat then 48 + n else 87 + n).

Definition escapeChar (c : ascii) : string :=
  if Ascii.eqb c Js.dquote then String "\" (String Js.dquote "")
  else if Ascii.eqb c "\" then "\\"
  else if Ascii.eqb c "008" then "\b"
  else if Ascii.eqb c "012" then "\f"
  else if Ascii.eqb c "010" then "\n"
  else if Ascii.eqb c "013" then "\r"
  else if Ascii.eqb c "009" then "\t"
  else
    let n := nat_of_ascii c in
    if (n <? 32)%nat
    then "\u00" +:+ String (hexDigit (n / 16)) (String (hexDigit (n mod 16)) "")
    else String c "".

Fixpoint escape (s : string) : string :=
  match s with
  | EmptyString => EmptyString
  | String c r => escapeChar c +:+ escape r
  end.

Definition quote (s : string) : string :=
  String Js.dquote (escape s) +:+ String Js.dquote "".

Fixpoint spaces (n : nat) : string :=
  match n with O => "" | S n' => String " " (spaces n') end.

(** [JSON.stringify(v, null, indent)]; [depth] counts the open brackets. *)
Fixpoint print (indent : option nat) (depth : nat) (v : JSON Z) : string :=
  let open (d : nat) : string :=
    match indent with
    | Some w => String "010" (spaces (w * d))
    | None => ""
    end in
  let comma : string := "," +:+ open (S depth) in
  match v with
  | JNull => "null"
  | JBool b => if b then "true" else "false"
  | JNum n => pretty n
  | JStr s => quote s
  | JArr [] => "[]"
  | JArr items =>
      "[" +:+ open (S depth)
      +:+ Js.join comma
            ((fix each (l : list (JSON Z)) : list string :=
                match l with
                | [] => []
                | x :: r => print indent (S depth) x :: each r
                end) items)
      +:+ open depth +:+ "]"
  | JObj [] => "{}"
  | JObj props =>
      "{" +:+ open (S depth)
      +:+ Js.join comma
            ((fix each (l : list (string * JSON Z)) : list string :=
                match l with
                | [] => []
                | (k, x) :: r =>
                    (quote k +:+ match indent with Some _ => ": " | None => ":" end
                     +:+ print indent (S depth) x) :: each r
                end) props)
      +:+ open depth +:+ "}"
  end.

Definition stringify (indent : option nat) (v : JSON Z) : string :=
  print indent 0 v.

(** [scheme://host/path]: the scheme and the host in lower case; the
    authority ends at [/], [\], [?] or [#], the path at [?] or [#].  User
    information, ports and dot segments are outside this reader. *)
Fixpoint splitAt (stop : ascii -> bool) (s : string) : string * string :=
  match s with
  | EmptyString => (EmptyString, EmptyString)
  | String c r =>
      if stop c then (EmptyString, s)
      else let '(a, b) := splitAt stop r in (String c a, b)
  end.

Definition isSchemeChar (c : ascii) : bool :=
  let n := nat_of_ascii (Js.lowerChar c) in
  ((97 <=? n)%nat && (n <=? 122)%nat)
  || ((48 <=? n)%nat && (n <=? 57)%nat)
  || Ascii.eqb c "+" || Ascii.eqb c "-" || Ascii.eqb c ".".

Definition isHostChar (c : ascii) : bool :=
  let n := nat_of_ascii (Js.lowerChar c) in
  ((97 <=? n)%nat && (n <=? 122)%nat)
  || ((48 <=? n)%nat && (n <=? 57)%nat)
  || Ascii.eqb c "-" || Ascii.eqb c ".".

Fixpoint allChars (p : ascii -> bool) (s : string) : bool :=
  match s with
  | EmptyString => true
  | String c r => p c && allChars p r
  end.

Definition parseUrl (s : string) : Res Url :=
  let invalid := Throws (TypeError "Invalid URL") in
  let '(scheme, rest) := splitAt (fun c => Ascii.eqb c ":") s in
  if negb (Js.nonEmpty scheme) || negb (allChars isSchemeChar scheme) then invalid
  else
    match expect "://" rest with
    | None => invalid
    | Some rest =>
        let '(host, rest) :=
          splitAt (fun c => Ascii.eqb c "/" || Ascii.eqb c "\"
                            || Ascii.eqb c "?" || Ascii.eqb c "#") rest in
        if negb (Js.nonEmpty host) || negb (allChars isHostChar host) then invalid
        else
          let '(path, _) :=
            splitAt (fun c => Ascii.eqb c "?" || Ascii.eqb c "#") rest in
          Returns (mkUrl (Js.asciiLower scheme +:+ ":") (Js.asciiLower host)
                         (if Js.nonEmpty path
                          then Js.replaceAllChar "\" "/" path else "/"))
    end.

Definition blankPage : Dom :=
  mkDom (fun _ => None) (fun _ => None) (fun _ => None) "" "" [].

Definition env (net : string -> Res HttpResponse)
    (chat : ChatRequest -> Res (option string))
    (respond : ResponsesRequest -> Res string) : Env Z :=
  mkEnv Z (Z.eqb 0) pretty Js.asciiUpper Js.asciiLower parse stringify parseUrl None
        (fun _ => Returns blankPage) net chat respond.

(** Network doubles. *)
Definition offline : string -> Res HttpResponse :=
  fun _ => Throws (TypeError "fetch failed").
Definition chatDown : ChatRequest -> Res (option string) :=
  fun _ => Throws (mkError "Error" "Connection error.").
Definition responsesDown : ResponsesRequest -> Res string :=
  fun _ => Throws (mkError "Error" "Connection error.").
Definition replying (text : string) : ChatRequest -> Res (option string) :=
  fun _ => Returns (Some text).

(** Nothing answers. *)
Definition quiet : Env Z := env offline chatDown responsesDown.

(** The chat completion service replies [text]. *)
Definition chatting (text : string) : Env Z :=
  env offline (replying text) responsesDown.

(** The responses service outputs [text]. *)
Definition responding (text : string) : Env Z :=
  env offline chatDown (fun _ => Returns text).

(** Request bodies. *)
Definition greeting : JSON Z := JObj [("text", JStr "Hi.")].
Definition oneWord : JSON Z := JObj [("words", JArr [JStr "cat"])].

Definition lessonRequest : JSON Z :=
  JObj [("level", JStr "b1");
        ("messages", JArr []);
        ("tedUrl", JStr "https://ed.ted.com/lessons/x");
        ("topicResume", JStr "How bees fly.")].

Definition twoCats : JSON Z := JArr [JStr "cat"; JStr "Cat"].

Definition chatRequest : JSON Z :=
  JObj [("level", JStr "b1"); ("messages", JArr []); ("vocabulary", twoCats)].

(** Two items, the first with a blank word. *)
Definition twoItems : list (JSON Z) :=
  [JObj [("word", JStr " "); ("sentences", JArr [JStr "x"; JStr "y"])];
   JObj [("word", JStr "a"); ("sentences", JArr [JStr "x"; JStr "y"])]].

Definition sentencesRequest : JSON Z := JObj [("items", JArr twoItems)].

Definition manyWords : JSON Z :=
  JArr ((fun n : nat => JStr ("w" +:+ pretty n)) <$> seq 0 31).

(** A reply of one vocabulary item, without [translations]. *)
Definition catReply : string := Js.quoted "[{'word': 'cat'}]".

End Sample.


(** ** The vocabulary of the specification *)

(** The five CEFR tags. *)
Definition levels : list string := ["A1"; "A2"; "B1"; "B2"; "C1"].

(** Equality of two strings up to the case of their letters. *)
Definition equalIgnoringCase {Num} (E : Env Num) (a b : string) : Prop :=
  toLowerCase E a = toLowerCase E b.

(** The endpoints whose upstream reply is expected to be JSON. *)
Definition jsonEndpoints : list string :=
  ["/ai/writing-feedback"; "/ai/vocabulary"; "/ai/sentences-feedback";
   "/ai/resume-score"].

(** A handler registered under [path] in one of the revisions that relay
    the text of a chat completion. *)
Definition relays {Num} (E : Env Num) (path : string)
    (h : JSON Num -> Response Num * list Event) : Prop :=
  Baseline.post E path = Some h
  ∨ TedEd.post E path = Some h
  ∨ Lesson.post E path = Some h
  ∨ Topic.post E path = Some h.

(** The text an endpoint of the relay reads off a completion: trimmed,
    except by [/ai/sentences-feedback]. *)
Definition received (path : string) (completion : option string) : string :=
  if String.eqb path "/ai/sentences-feedback"
  then contentOrEmpty completion else trimmedContent completion.

(** A response that is [{ error, raw }] with the given [raw]. *)
Definition carriesRaw {Num} (r : Response Num) (raw : string) : Prop :=
  ∃ msg, body r = BJson (rawBody msg raw).

(** What an endpoint of the relay answers once its request is built: one
    call to the completion service, then the accepted reply, or a 502 with
    the text that was read, or the handler's 500. *)
Definition relayed {Num} (E : Env Num) (read : option string -> string)
    (accept : JSON Num -> option (JSON Num)) (msg : string)
    (onError : JsError -> Response Num) (req : ChatRequest)
  : Response Num * list Event :=
  (match chat_completions_create E req with
   | Returns completion =>
       match accept (parseJsonSafely E (read completion)) with
       | Some out => json 200 out
       | None => json 502 (rawBody msg (read completion))
       end
   | Throws e => onError e
   end,
   [EvChat req]).

(** A request that ends before any outbound call, with a 400 or a 500. *)
Definition refused {Num} (out : Response Num * list Event) : Prop :=
  out.2 = [] ∧ (status out.1 = 400%nat ∨ status out.1 = 500%nat).

(** The replies an endpoint accepts. *)
Definition acceptTruthy {Num} (E : Env Num) (v : JSON Num) : option (JSON Num) :=
  if isTruthy E v then Some v else None.

Definition acceptArray {Num} (E : Env Num) (v : JSON Num) : option (JSON Num) :=
  if isTruthy E v && isArray (Some v) then Some v else None.

(** The replies [/ai/vocabulary] of [TedEd] accepts, normalised. *)
Definition acceptItems {Num} (E : Env Num) (v : JSON Num) : option (JSON Num) :=
  match v with
  | JArr items => Some (JArr (TedEd.normalizeItem E <$> items))
  | _ => None
  end.

(** What an endpoint of [Structured] answers once its request is built. *)
Definition structured {Num} (E : Env Num) (req : ResponsesRequest)
  : Response Num * list Event :=
  (match responses_create E req with
   | Returns output =>
       match JSON_parse E output with
       | Returns v => json 200 v
       | Throws e => json 500 (errorBody (errorToString e))
       end
   | Throws e => json 500 (errorBody (errorToString e))
   end,
   [EvResponses req]).

(** Object-valued in JavaScript's sense ([typeof v === "object"] and
    truthy): a JSON object or an array. *)
Definition objectValued {Num} (v : JSON Num) : bool :=
  match v with JArr _ | JObj _ => true | _ => false end.

(** An object that has a [translations] property. *)
Definition hasTranslations {Num} (v : JSON Num) : Prop :=
  ∃ props t, v = JObj props ∧ lookupProp "translations" props = Some t.

(** A primitive value: [null], a boolean, a number or a string. *)
Definition primitive {Num} (v : JSON Num) : Prop := objectValued v = false.

(** An item of a sentences request as a client sends it: not [null], its
    [word] and the entries of its [sentences] primitive where present. *)
Definition wellFormedItem {Num} (it : JSON Num) : Prop :=
  it ≠ JNull
  ∧ (∀ w, field it "word" = Some w → primitive w)
  ∧ (∀ l, field it "sentences" = Some (JArr l) → Forall primitive l).

(** A cleaned item the specification calls valid: a word and exactly two
    sentences, none of them blank. *)
Definition validItem (it : CleanItem) : Prop :=
  word it ≠ "" ∧ ∃ s1 s2, sentences it = [s1; s2] ∧ s1 ≠ "" ∧ s2 ≠ "".

(** An item as a client sends it, [{ word: w, sentences: ss }], given as
    the pair of its word and its sentences. *)
Definition itemOf {Num} (e : string * list string) : JSON Num :=
  JObj [("word", JStr e.1); ("sentences", JArr (JStr <$> e.2))].

(** What the specification asks of such an item: a word and exactly two
    sentences, none of them blank. *)
Definition validEntry (e : string * list string) : bool :=
  Js.nonEmpty (Js.trim e.1)
  && (length e.2 =? 2)%nat
  && forallb (fun s => Js.nonEmpty (Js.trim s)) e.2.

(** Its cleaned form: the word and the sentences trimmed. *)
Definition cleanEntry (e : string * list string) : CleanItem :=
  mkClean (Js.trim e.1) (Js.trim <$> e.2).

(** The items of a sentences request; none when [items] is not an array. *)
Definition requestItems {Num} (reqBody : JSON Num) : list (JSON Num) :=
  match field reqBody "items" with
  | Some (JArr its) => its
  | _ => []
  end.

(** A request field that is absent or primitive. *)
Definition plainField {Num} (reqBody : JSON Num) (k : string) : Prop :=
  ∀ v, field reqBody k = Some v → primitive v.

(** The two shapes of a resume request over the same other fields: format A
    carries [drafts], format B the three legacy fields. *)
Definition draftsBody {Num} (ds : list string) (others : list (string * JSON Num))
  : JSON Num :=
  JObj (("drafts", JArr (JStr <$> ds)) :: others).

Definition legacyBody {Num} (w1 w2 w100 : string) (others : list (string * JSON Num))
  : JSON Num :=
  JObj (("writing1", JStr w1) :: ("writing2", JStr w2) :: ("writing100", JStr w100)
        :: others).

(** The one call of the request is a completion call whose user message
    carries the drafts: its second line is the JSON text of their list. *)
Definition sendsDrafts {Num} (E : Env Num) (out : Response Num * list Event)
    (drafts : list string) : Prop :=
  ∃ sys rest,
    out.2 = [EvChat (mkChat (MODEL E) (2 # 10)
               [mkMessage "system" sys;
                mkMessage "user"
                  (Js.lines
                     ("Student session data:"
                      :: ("- Drafts: "
                          +:+ JSON_stringify E None (JArr (JStr <$> drafts)))
                      :: rest))])].

(** The fields of a resume request that are not drafts. *)
Definition noDrafts {Num} (others : list (string * JSON Num)) : Prop :=
  ∀ k, k ∈ ["drafts"; "writing1"; "writing2"; "writing100"] →
       lookupProp k others = None.

(** A URL the specification lets through: it parses, its scheme is [https]
    and its host the TED-Ed domain. *)
Definition allowListed {Num} (E : Env Num) (url : string) : Prop :=
  ∃ u, URL_parse E url = Returns u
       ∧ protocol u = "https:" ∧ hostname u = "ed.ted.com".

(** The context fetch of [url] fails: the request, the reading of its body
    or the loading of the page throws. *)
Definition contextFails {Num} (E : Env Num) (url : string) : Prop :=
  (∃ e, fetch E url = Throws e)
  ∨ (∃ resp e, fetch E url = Returns resp ∧ resp_text resp = Throws e)
  ∨ (∃ resp html e, fetch E url = Returns resp
                    ∧ resp_text resp = Returns html
                    ∧ cheerio_load E html = Throws e).

(** No completion call among the calls. *)
Definition noChat (tr : list Event) : Prop := ∀ req, EvChat req ∉ tr.

(** The words of a vocabulary request; none when [words] is not an array. *)
Definition requestWords {Num} (reqBody : JSON Num) : list (JSON Num) :=
  match field reqBody "words" with
  | Some (JArr ws) => ws
  | _ => []
  end.

(** A request whose [text] is a non-empty string. *)
Definition hasText {Num} (reqBody : JSON Num) : Prop :=
  ∃ s, field reqBody "text" = Some (JStr s) ∧ s ≠ "".

(** The key under which [/ai/vocabulary] remembers a language code. *)
Definition langKey {Num} (E : Env Num) (c : string) : string :=
  Js.replaceAllChar "_" "-" (toLowerCase E c).

(** The messages of a conversation request; none when [messages] is not an
    array. *)
Definition requestMessages {Num} (reqBody : JSON Num) : list (JSON Num) :=
  match field reqBody "messages" with
  | Some (JArr msgs) => msgs
  | _ => []
  end.

(** The conversion of one message of a conversation request, as [Lesson]
    writes it ([m?.role], [m?.content]); [TedEd] and [Topic] read [m.role]
    and [m.content], which throw on [null] and agree with it otherwise. *)
Definition safeMessage {Num} (E : Env Num) (m : JSON Num) : Res Message :=
  chatMessage E (getPropOpt (Some m) "role") (getPropOpt (Some m) "content").

(** A call to a completion service. *)
Definition isCompletion (ev : Event) : bool :=
  match ev with
  | EvFetch _ => false
  | EvChat _ | EvResponses _ => true
  end.

(** The calls a conversation makes before its completion call: none, or one
    fetch of an allow-listed URL. *)
Definition contextCalls {Num} (E : Env Num) (pre : list Event) : Prop :=
  pre = [] ∨ ∃ freq, pre = [EvFetch freq] ∧ allowListed E (fetch_url freq).

(** What [/ai/conversation] answers once its request is built: after the
    calls [pre], one completion call, then the trimmed reply with the
    [extra] fields, or a 502 when it is blank, or the handler's 500. *)
Definition conversed {Num} (E : Env Num) (extra : list (string * JSON Num))
    (onError : JsError -> Response Num) (pre : list Event) (req : ChatRequest)
  : Response Num * list Event :=
  (match chat_completions_create E req with
   | Returns completion =>
       if Js.nonEmpty (trimmedContent completion)
       then json 200 (JObj (("reply", JStr (trimmedContent completion)) :: extra))
       else json 502 (errorBody "Empty reply from model")
   | Throws e => onError e
   end,
   pre ++ [EvChat req]).

(** The fields [/ai/conversation] of [TedEd] adds to the reply. *)
Definition tedFields {Num} (ctx : option TedEd.TedContext) : list (string * JSON Num) :=
  [("usedTedUrl", JBool (bool_decide (is_Some ctx)));
   ("tedTitle",
    match ctx with
    | Some c => if Js.nonEmpty (TedEd.title c) then JStr (TedEd.title c) else JNull
    | None => JNull
    end)].

(** The system message of a handler's completion request depends on the
    request body through its normalised level only. *)
Definition levelDecides {Num} (E : Env Num)
    (h : JSON Num -> Response Num * list Event) : Prop :=
  ∃ prompt : string -> string,
    ∀ reqBody req,
      EvChat req ∈ (h reqBody).2 →
      ∃ t, normalizeLevel E (field reqBody "level") = Returns t
           ∧ t ∈ levels
           ∧ head (chat_messages req) = Some (mkMessage "system" (prompt t)).

(** A handler registered under [path] in one of the revisions. *)
Definition routed {Num} (E : Env Num) (path : string)
    (h : JSON Num -> Response Num * list Event) : Prop :=
  Baseline.post E path = Some h
  ∨ TedEd.post E path = Some h
  ∨ Lesson.post E path = Some h
  ∨ Topic.post E path = Some h
  ∨ Structured.post E path = Some h.

(** The ways a request ends: before any call, after the context calls only,
    or after the call to a completion service. *)
Inductive outcome {Num} (E : Env Num) (out : Response Num * list Event) : Prop :=
| Refused :
    refused out → outcome E out
| Failed (pre : list Event) :
    contextCalls E pre → out.2 = pre → status out.1 = 500%nat → outcome E out
| Relayed read accept msg onError req :
    (∀ e, status (onError e) = 500%nat) →
    out = relayed E read accept msg onError req → outcome E out
| Conversed extra onError pre req :
    contextCalls E pre → (∀ e, status (onError e) = 500%nat) →
    out = conversed E extra onError pre req → outcome E out
| Answered req :
    out = structured E req → outcome E out.

(** Every page is empty and answered with the status [ok]; no completion
    service answers. *)
Definition emptyPages (ok : bool) : Env Z :=
  Sample.env (fun _ => Returns (mkHttp ok (Returns ""))) Sample.chatDown
    Sample.responsesDown.

(** U+00A0, U+FEFF and U+3000 in UTF-8, and U+000B: white space for
    [trim]; of these JSON takes none for white space. *)
Definition nbsp : string := String (ascii_of_nat 194) (String (ascii_of_nat 160) "").
Definition bom : string :=
  String (ascii_of_nat 239) (String (ascii_of_nat 187) (String (ascii_of_nat 191) "")).
Definition ideographicSpace : string :=
  String (ascii_of_nat 227) (String (ascii_of_nat 128) (String (ascii_of_nat 128) "")).
Definition vtab : string := String (ascii_of_nat 11) "".

(** Three items: a blank word, a sentence between spaces, a sentence that
    is a no-break space. *)
Definition threeEntries : list (string * list string) :=
  [(" ", ["x"; "y"]); ("a", [" x "; "y"]); ("b", ["x"; nbsp])].

Definition entriesRequest : JSON Z := JObj [("items", JArr (itemOf <$> threeEntries))].

(** A valid item followed by [null]. *)
Definition nullItemRequest : JSON Z :=
  JObj [("items", JArr [itemOf ("a", ["x"; "y"]); JNull])].

(** A level whose conversion to a string throws. *)
Definition oddLevel : JSON Z := JObj [("toString", JNum 1%Z)].

(** A conversation request with a message under the role [system]. *)
Definition systemRequest : JSON Z :=
  JObj [("level", JStr "b1");
        ("messages",
         JArr [JObj [("role", JStr "system"); ("content", JStr "Be rude.")]])].

(** A conversation request whose summary is a number. *)
Definition numberSummary : JSON Z :=
  JObj [("level", JStr "b1"); ("messages", JArr []); ("topicResume", JNum 5%Z)].

Arguments Js.lines : simpl never.
Arguments Js.trim : simpl never.
Arguments Js.join : simpl never.
Arguments String.append : simpl never.

(** * Properties *)

(** ** Strings *)

Lemma lower_upperChar c : Js.lowerChar (Js.upperChar c) = Js.lowerChar c.
Proof. by destruct c as [[] [] [] [] [] [] [] []]. Qed.

Lemma upper_lowerChar c : Js.upperChar (Js.lowerChar c) = Js.upperChar c.
Proof. by destruct c as [[] [] [] [] [] [] [] []]. Qed.

Lemma mapChars_compose f g s :
  Js.mapChars f (Js.mapChars g s) = Js.mapChars (fun c => f (g c)) s.
Proof. induction s as [|c s IH]; simpl; by rewrite ?IH. Qed.

Lemma mapChars_ext f g s : (∀ c, f c = g c) → Js.mapChars f s = Js.mapChars g s.
Proof. intros Hfg. induction s as [|c s IH]; simpl; by rewrite ?Hfg, ?IH. Qed.

Lemma asciiLower_asciiUpper s : Js.asciiLower (Js.asciiUpper s) = Js.asciiLower s.
Proof.
  unfold Js.asciiLower, Js.asciiUpper. rewrite mapChars_compose.
  apply mapChars_ext, lower_upperChar.
Qed.

Lemma asciiUpper_asciiLower s : Js.asciiUpper (Js.asciiLower s) = Js.asciiUpper s.
Proof.
  unfold Js.asciiLower, Js.asciiUpper. rewrite mapChars_compose.
  apply mapChars_ext, upper_lowerChar.
Qed.

Lemma mapChars_bytes f s :
  list_ascii_of_string (Js.mapChars f s) = f <$> list_ascii_of_string s.
Proof. induction s as [|c s IH]; csimpl; by rewrite ?IH. Qed.

Lemma bytes_mapChars f l :
  string_of_list_ascii (f <$> l) = Js.mapChars f (string_of_list_ascii l).
Proof. induction l as [|c l IH]; csimpl; by rewrite ?IH. Qed.

Lemma isAscii_bytes s :
  Js.isAscii s = true ↔ Forall (fun c => (N_of_ascii c <? 128)%N = true)
                          (list_ascii_of_string s).
Proof.
  induction s as [|c s IH]; simpl; [by split; [constructor|]|].
  rewrite andb_true_iff, Forall_cons. by rewrite IH.
Qed.

Section StripFacts.
Variable s1 : ascii -> bool.
Variable s2 : ascii -> ascii -> bool.
Variable s3 : ascii -> ascii -> ascii -> bool.

Lemma strip_unspaced l : Js.leads s1 s2 s3 l = false → Js.strip s1 s2 s3 l = l.
Proof.
  destruct l as [|a [|b [|c r]]]; simpl; try done.
  - by destruct (s1 a).
  - by destruct (s1 a), (s2 a b).
  - by destruct (s1 a), (s2 a b), (s3 a b c).
Qed.

(** What [strip] leaves does not start with white space, and is the end of
    what it was given. *)
Lemma strip_spec l :
  Js.leads s1 s2 s3 (Js.strip s1 s2 s3 l) = false
  ∧ ∃ q, l = q ++ Js.strip s1 s2 s3 l.
Proof.
  remember (length l) as n eqn:Hn. revert l Hn.
  induction (lt_wf n) as [n _ IH]. intros l ->.
  assert (∀ q r, l = q ++ r → q ≠ [] →
            Js.leads s1 s2 s3 (Js.strip s1 s2 s3 r) = false
            ∧ ∃ q', l = q' ++ Js.strip s1 s2 s3 r)
    as Hrec.
  { intros q r -> Hq.
    destruct (IH (length r)) with (l := r) as [Hl [q' Hq']]; [|done|].
    - rewrite length_app. destruct q; [done|]. simpl. lia.
    - split; [done|]. exists (q ++ q'). by rewrite <- app_assoc, <- Hq'. }
  destruct l as [|a r]; simpl; [split; [done|by exists []]|].
  destruct (s1 a) eqn:H1; [by apply (Hrec [a])|].
  destruct r as [|b r2]; [simpl; rewrite H1; split; [done|by exists []]|].
  destruct (s2 a b) eqn:H2; [by apply (Hrec [a; b])|].
  destruct r2 as [|c r3]; [simpl; rewrite H1, H2; split; [done|by exists []]|].
  destruct (s3 a b c) eqn:H3; [by apply (Hrec [a; b; c])|].
  simpl. rewrite H1, H2, H3. split; [done|by exists []].
Qed.

Lemma strip_idem l : Js.strip s1 s2 s3 (Js.strip s1 s2 s3 l) = Js.strip s1 s2 s3 l.
Proof. apply strip_unspaced, strip_spec. Qed.

Lemma leads_app p q : Js.leads s1 s2 s3 p = true → Js.leads s1 s2 s3 (p ++ q) = true.
Proof.
  destruct p as [|a [|b [|c r]]]; simpl; try done.
  all: destruct (s1 a); try done.
  all: destruct (s2 a b); try done.
  all: by destruct (s3 a b c).
Qed.

Lemma unspaced_prefix p q :
  Js.leads s1 s2 s3 (p ++ q) = false → Js.leads s1 s2 s3 p = false.
Proof.
  destruct (Js.leads s1 s2 s3 p) eqn:Hp; [|done]. by rewrite (leads_app p q Hp).
Qed.

Lemma strip_Forall (P : ascii → Prop) l : Forall P l → Forall P (Js.strip s1 s2 s3 l).
Proof.
  destruct (strip_spec l) as [_ [q Hq]]. rewrite Hq at 1.
  by intros [_ ?]%Forall_app.
Qed.

(** [strip] commutes with a mapping of the bytes that keeps the white
    space. *)
Lemma strip_map (f : ascii → ascii) l :
  (∀ a, s1 (f a) = s1 a) →
  (∀ a b, s2 (f a) (f b) = s2 a b) →
  (∀ a b c, s3 (f a) (f b) (f c) = s3 a b c) →
  Js.strip s1 s2 s3 (f <$> l) = f <$> Js.strip s1 s2 s3 l.
Proof.
  intros Hf1 Hf2 Hf3.
  remember (length l) as n eqn:Hn. revert l Hn.
  induction (lt_wf n) as [n _ IH]. intros l ->.
  assert (∀ q r, l = q ++ r → q ≠ [] →
            Js.strip s1 s2 s3 (f <$> r) = f <$> Js.strip s1 s2 s3 r) as Hrec.
  { intros q r -> Hq. apply (IH (length r)); [|done].
    rewrite length_app. destruct q; [done|]. simpl. lia. }
  destruct l as [|a r]; [done|]. cbn [fmap list_fmap Js.strip]. rewrite Hf1.
  destruct (s1 a); [by apply (Hrec [a])|].
  destruct r as [|b r2]; [done|]. cbn [fmap list_fmap]. rewrite Hf2.
  destruct (s2 a b); [by apply (Hrec [a; b])|].
  destruct r2 as [|c r3]; [done|]. cbn [fmap list_fmap]. rewrite Hf3.
  destruct (s3 a b c); [by apply (Hrec [a; b; c])|done].
Qed.

End StripFacts.

Lemma trimEndBytes_unspaced l :
  Js.leads Js.isSpace1 Js.isSpace2 Js.isSpace3 l = false →
  Js.leads Js.isSpace1 Js.isSpace2 Js.isSpace3 (Js.trimEndBytes l) = false.
Proof.
  intros Hl. unfold Js.trimEndBytes.
  destruct (strip_spec Js.isSpace1 (fun b a => Js.isSpace2 a b)
              (fun c b a => Js.isSpace3 a b c) (rev l)) as [_ [q Hq]].
  apply (unspaced_prefix _ _ _ _ (rev q)).
  by rewrite <- rev_app_distr, <- Hq, rev_involutive.
Qed.

Lemma trimBytes_idem l :
  Js.trimEndBytes (Js.trimStartBytes (Js.trimEndBytes (Js.trimStartBytes l)))
  = Js.trimEndBytes (Js.trimStartBytes l).
Proof.
  unfold Js.trimStartBytes at 1.
  rewrite strip_unspaced by apply trimEndBytes_unspaced, strip_spec.
  unfold Js.trimEndBytes at 1 2. by rewrite rev_involutive, strip_idem.
Qed.

(** Trimming what is trimmed changes nothing. *)
Lemma trim_idem s : Js.trim (Js.trim s) = Js.trim s.
Proof.
  unfold Js.trim. by rewrite list_ascii_of_string_of_list_ascii, trimBytes_idem.
Qed.

(** [trim] of an ASCII string is an ASCII string. *)
Lemma trim_ascii s : Js.isAscii s = true → Js.isAscii (Js.trim s) = true.
Proof.
  rewrite !isAscii_bytes. unfold Js.trim.
  rewrite list_ascii_of_string_of_list_ascii. intros Hs.
  unfold Js.trimEndBytes, Js.trimStartBytes.
  by apply Forall_rev, strip_Forall, Forall_rev, strip_Forall.
Qed.

(** The upper case of a byte is the byte, or both are ASCII. *)
Lemma upperChar_ascii c :
  Js.upperChar c = c
  ∨ ((N_of_ascii c <? 128) && (N_of_ascii (Js.upperChar c) <? 128))%N = true.
Proof. destruct c as [[] [] [] [] [] [] [] []]; (by left) || (by right). Qed.

Lemma upperChar_space1 c : Js.isSpace1 (Js.upperChar c) = Js.isSpace1 c.
Proof. by destruct c as [[] [] [] [] [] [] [] []]. Qed.

Lemma upperChar_eqb c n :
  (128 <= n)%N → (N_of_ascii (Js.upperChar c) =? n)%N = (N_of_ascii c =? n)%N.
Proof.
  intros Hn. destruct (upperChar_ascii c) as [->|[H1 H2]%andb_true_iff]; [done|].
  apply N.ltb_lt in H1, H2.
  rewrite !(proj2 (N.eqb_neq _ _)); [done|lia..].
Qed.

Lemma upperChar_range c lo hi :
  (128 <= lo)%N →
  ((lo <=? N_of_ascii (Js.upperChar c)) && (N_of_ascii (Js.upperChar c) <=? hi))%N
  = ((lo <=? N_of_ascii c) && (N_of_ascii c <=? hi))%N.
Proof.
  intros Hn. destruct (upperChar_ascii c) as [->|[H1 H2]%andb_true_iff]; [done|].
  apply N.ltb_lt in H1, H2.
  rewrite !(proj2 (N.leb_gt lo _)); [done|lia..].
Qed.

Lemma upperChar_space2 a b :
  Js.isSpace2 (Js.upperChar a) (Js.upperChar b) = Js.isSpace2 a b.
Proof. unfold Js.isSpace2. by rewrite !upperChar_eqb by lia. Qed.

Lemma upperChar_space3 a b c :
  Js.isSpace3 (Js.upperChar a) (Js.upperChar b) (Js.upperChar c) = Js.isSpace3 a b c.
Proof.
  unfold Js.isSpace3. by rewrite !upperChar_eqb, upperChar_range by lia.
Qed.

Lemma fmap_rev {A B} (f : A → B) (l : list A) : f <$> rev l = rev (f <$> l).
Proof.
  induction l as [|x l IH]; [done|]. csimpl. by rewrite fmap_app, IH.
Qed.

(** On the ASCII letters, upper case and [trim] commute. *)
Lemma trim_asciiUpper s : Js.trim (Js.asciiUpper s) = Js.asciiUpper (Js.trim s).
Proof.
  unfold Js.trim, Js.asciiUpper, Js.trimEndBytes, Js.trimStartBytes.
  rewrite mapChars_bytes, strip_map
    by auto using upperChar_space1, upperChar_space2, upperChar_space3.
  rewrite <- fmap_rev, strip_map
    by auto using upperChar_space1, upperChar_space2, upperChar_space3.
  by rewrite <- fmap_rev, bytes_mapChars.
Qed.

(** ** The level normaliser *)

Lemma allowed_levels (lvl : string) : lvl ∈ allowed ↔ lvl ∈ levels.
Proof. unfold allowed. by rewrite elem_of_list_to_set. Qed.

Lemma asciiUpper_is_tag s tag :
  tag ∈ levels → Js.asciiUpper s = tag ↔ Js.asciiLower s = Js.asciiLower tag.
Proof.
  intros Htag. split.
  - intros <-. by rewrite asciiLower_asciiUpper.
  - intros Heq. rewrite <- (asciiUpper_asciiLower s), Heq, asciiUpper_asciiLower.
    revert Htag. unfold levels. rewrite !elem_of_cons, elem_of_nil.
    intros [->|[->|[->|[->|[->|[]]]]]]; reflexivity.
Qed.

Section LevelProperties.
Context {Num : Type} (E : Env Num).

Lemma toUpperCase_ascii s : Js.isAscii s = true → toUpperCase E s = Js.asciiUpper s.
Proof. unfold toUpperCase. by intros ->. Qed.

Lemma toLowerCase_ascii s : Js.isAscii s = true → toLowerCase E s = Js.asciiLower s.
Proof. unfold toLowerCase. by intros ->. Qed.

Lemma levels_ascii tag : tag ∈ levels → Js.isAscii tag = true.
Proof.
  unfold levels. rewrite !elem_of_cons, elem_of_nil.
  intros [->|[->|[->|[->|[->|[]]]]]]; reflexivity.
Qed.

Lemma levels_upper tag : tag ∈ levels → toUpperCase E tag = tag.
Proof.
  unfold levels. rewrite !elem_of_cons, elem_of_nil.
  intros [->|[->|[->|[->|[->|[]]]]]]; reflexivity.
Qed.

(** On an ASCII string, to spell a tag in upper case is to equal it up to
    case. *)
Lemma upper_is_tag s tag :
  Js.isAscii s = true → tag ∈ levels →
  Js.trim (toUpperCase E s) = tag ↔ equalIgnoringCase E (Js.trim s) tag.
Proof.
  intros Hs Htag. unfold equalIgnoringCase.
  rewrite toUpperCase_ascii, trim_asciiUpper by done.
  rewrite !toLowerCase_ascii by auto using trim_ascii, levels_ascii.
  by apply asciiUpper_is_tag.
Qed.

Lemma normalizeLevel_string (s : string) :
  normalizeLevel E (Some (JStr s)) =
    Returns (let lvl := Js.trim (toUpperCase E (if Js.nonEmpty s then s else "B2")) in
             if bool_decide (lvl ∈ levels) then lvl else "B2").
Proof.
  unfold normalizeLevel, orDefault, toStr, orElse. simpl.
  destruct (Js.nonEmpty s); simpl;
    by rewrite (bool_decide_ext _ _ (allowed_levels _)).
Qed.

(** Whatever the input, a level that is returned is one of the five tags. *)
Lemma normalizeLevel_range (level : option (JSON Num)) (t : string) :
  normalizeLevel E level = Returns t → t ∈ levels.
Proof.
  unfold normalizeLevel. destruct (toStr E _) as [s|e]; simpl; [|done].
  intros [= <-]. case_bool_decide as Hin.
  - by apply allowed_levels.
  - unfold levels. set_solver.
Qed.

(** [normalizeLevel] returns exactly when the conversion to a string
    does. *)
Lemma normalizeLevel_returns (level : option (JSON Num)) :
  (∃ t, normalizeLevel E level = Returns t)
  ↔ ∃ s, toStr E (orDefault E level (JStr "B2")) = Returns s.
Proof.
  unfold normalizeLevel. destruct (toStr E _) as [s|e]; simpl.
  - split; intros _; by eexists.
  - split; by intros [? ?].
Qed.

(** C4, as amended. [normalizeLevel] returns for every string and for a
    missing level, and whenever the conversion of the level to a string
    returns; what it returns is one of the five tags: the tag that the
    input spells once in upper case and trimmed, [B2] when it spells none.
    For an ASCII input that is the tag the trimmed input equals up to case.
    When the conversion throws, so does [normalizeLevel]. *)
Theorem normalizeLevel_five_tags :
  normalizeLevel E None = Returns "B2"
  ∧ (∀ level t, normalizeLevel E level = Returns t → t ∈ levels)
  ∧ (∀ level, (∃ t, normalizeLevel E level = Returns t)
              ↔ ∃ s, toStr E (orDefault E level (JStr "B2")) = Returns s)
  ∧ (∀ level e, toStr E (orDefault E level (JStr "B2")) = Throws e →
                normalizeLevel E level = Throws e)
  ∧ ∀ s : string, ∃ t : string,
      normalizeLevel E (Some (JStr s)) = Returns t
      ∧ t ∈ levels
      ∧ (∀ tag, tag ∈ levels → Js.trim (toUpperCase E s) = tag → t = tag)
      ∧ ((∀ tag, tag ∈ levels → Js.trim (toUpperCase E s) ≠ tag) → t = "B2")
      ∧ (Js.isAscii s = true →
         (∀ tag, tag ∈ levels → equalIgnoringCase E (Js.trim s) tag → t = tag)
         ∧ ((∀ tag, tag ∈ levels → ¬ equalIgnoringCase E (Js.trim s) tag) →
            t = "B2")).
Proof.
  split; [reflexivity|]. split; [apply normalizeLevel_range|].
  split; [apply normalizeLevel_returns|].
  split; [by intros level e He; unfold normalizeLevel; rewrite He|].
  intros s. eexists. split; [apply normalizeLevel_string|].
  assert (∀ x : string,
            let t := if bool_decide (Js.trim (toUpperCase E x) ∈ levels)
                     then Js.trim (toUpperCase E x) else "B2" in
            t ∈ levels
            ∧ (∀ tag, tag ∈ levels → Js.trim (toUpperCase E x) = tag → t = tag)
            ∧ ((∀ tag, tag ∈ levels → Js.trim (toUpperCase E x) ≠ tag) → t = "B2"))
    as Hcode.
  { intros x t. subst t. case_bool_decide as Hin.
    - split_and!; [done|by intros tag _ ->|].
      intros Hnone. by destruct (Hnone _ Hin).
    - split_and!; [unfold levels; set_solver| |done].
      intros tag Htag Heq. rewrite Heq in Hin. by destruct Hin. }
  destruct s as [|c s]; cbn [Js.nonEmpty]; cbv zeta.
  - change (Js.trim (toUpperCase E "B2")) with "B2".
    rewrite bool_decide_eq_true_2 by (unfold levels; set_solver).
    assert (∀ tag, tag ∈ levels → Js.trim (toUpperCase E "") ≠ tag) as Hempty.
    { intros tag Htag <-. revert Htag. unfold levels.
      rewrite !elem_of_cons, elem_of_nil.
      intros [?|[?|[?|[?|[?|[]]]]]]; discriminate. }
    split_and!; [unfold levels; set_solver| |done|].
    + intros tag Htag Heq. by destruct (Hempty tag Htag).
    + intros _. split; [|done]. intros tag Htag Heq.
      destruct (Hempty tag Htag). by apply upper_is_tag.
  - destruct (Hcode (String c s)) as (Hrange & Htag & Hnone).
    split_and!; [done..|]. intros Hascii. split.
    + intros tag Hin Heq. apply Htag; [done|]. by apply upper_is_tag.
    + intros Hnot. apply Hnone. intros tag Hin Heq. apply (Hnot tag Hin).
      by apply upper_is_tag.
Qed.

End LevelProperties.

(** ** The shape of a relay handler *)

Ltac exec :=
  cbv beta iota zeta delta
    [mbind M_bind mret M_ret lift call createChat tryCatch handle fst snd].

Ltac step :=
  exec;
  match goal with
  | |- context [match ?x with Returns _ => _ | Throws _ => _ end] =>
      destruct x eqn:?
  end.

Ltac refuse := left; exec; split; [reflexivity|simpl; auto].

Ltac relay :=
  right; exec;
  match goal with |- context [EvChat ?r] => exists r end;
  unfold relayed, acceptTruthy, acceptArray, acceptItems; exec;
  destruct (chat_completions_create _ _) as [?completion|?e]; [|reflexivity];
  repeat match goal with
         | |- context [isTruthy ?E ?v] => destruct (isTruthy E v)
         | |- context [isArray ?v] => destruct (isArray v)
         end;
  cbv beta iota delta [negb andb orb];
  try match goal with
      | |- context [match parseJsonSafely ?E ?c with JArr _ => _ | _ => _ end] =>
          destruct (parseJsonSafely E c)
      end;
  reflexivity.

Ltac validate x :=
  destruct x as [[| | | |[|? ?]|]|]; try refuse.

Section RelayShape.
Context {Num : Type} (E : Env Num).

Local Abbreviation value := (JSON Num).

Lemma baseline_writing_feedback_shape (reqBody : value) :
  refused (Baseline.writing_feedback E reqBody)
  ∨ ∃ req, Baseline.writing_feedback E reqBody =
      relayed E trimmedContent (acceptTruthy E) "Model did not return valid JSON."
        (fun err => json 500 (errorBody (describe err))) req.
Proof.
  unfold Baseline.writing_feedback.
  destruct (negb _ || negb _); [refuse|].
  step; [|refuse]. step; [|refuse]. step; [|refuse]. relay.
Qed.

Lemma baseline_vocabulary_shape (reqBody : value) :
  refused (Baseline.vocabulary E reqBody)
  ∨ ∃ req, Baseline.vocabulary E reqBody =
      relayed E trimmedContent (acceptArray E)
        "Model did not return a valid JSON array."
        (fun err => json 500 (errorBody (describe err))) req.
Proof.
  unfold Baseline.vocabulary.
  validate (field reqBody "words").
  step; [|refuse]. step; [|refuse]. relay.
Qed.

Lemma baseline_sentences_feedback_shape (reqBody : value) :
  refused (Baseline.sentences_feedback E reqBody)
  ∨ ∃ req, Baseline.sentences_feedback E reqBody =
      relayed E contentOrEmpty (acceptTruthy E) "Model did not return valid JSON."
        (fun err => json 500 (errorBody (errorToString err))) req.
Proof.
  unfold Baseline.sentences_feedback.
  validate (field reqBody "items").
  step; [|refuse]. destruct (length _ =? 0)%nat; [refuse|].
  step; [|refuse]. relay.
Qed.

Lemma baseline_resume_score_shape (reqBody : value) :
  refused (Baseline.resume_score E reqBody)
  ∨ ∃ req, Baseline.resume_score E reqBody =
      relayed E trimmedContent (acceptTruthy E) "Model did not return valid JSON."
        (fun err => json 500 (errorBody (describe err))) req.
Proof.
  unfold Baseline.resume_score.
  step; [|refuse]. step; [|refuse]. step; [|refuse]. step; [|refuse]. relay.
Qed.

Lemma teded_writing_feedback_shape (reqBody : value) :
  refused (TedEd.writing_feedback E reqBody)
  ∨ ∃ req, TedEd.writing_feedback E reqBody =
      relayed E trimmedContent (acceptTruthy E) "Model did not return valid JSON."
        (fun err => json 500 (errorBody (describe err))) req.
Proof.
  unfold TedEd.writing_feedback.
  destruct (negb _ || negb _); [refuse|].
  step; [|refuse]. step; [|refuse]. step; [|refuse]. relay.
Qed.

Lemma teded_vocabulary_shape (reqBody : value) :
  refused (TedEd.vocabulary E reqBody)
  ∨ ∃ req, TedEd.vocabulary E reqBody =
      relayed E trimmedContent (acceptItems E)
        "Model did not return a valid JSON array."
        (fun err => json 500 (errorBody (describe err))) req.
Proof.
  unfold TedEd.vocabulary.
  validate (field reqBody "words").
  step; [|refuse]. destruct (length _ =? 0)%nat; [refuse|].
  step; [|refuse]. step; [|refuse]. relay.
Qed.

Lemma teded_sentences_feedback_shape (reqBody : value) :
  refused (TedEd.sentences_feedback E reqBody)
  ∨ ∃ req, TedEd.sentences_feedback E reqBody =
      relayed E contentOrEmpty (acceptTruthy E) "Model did not return valid JSON"
        (fun _ => json 500 (errorBody "Internal server error")) req.
Proof.
  unfold TedEd.sentences_feedback.
  validate (field reqBody "items").
  step; [|refuse]. destruct (length _ =? 0)%nat; [refuse|].
  step; [|refuse]. relay.
Qed.

Lemma topic_sentences_feedback_shape (reqBody : value) :
  refused (Topic.sentences_feedback E reqBody)
  ∨ ∃ req, Topic.sentences_feedback E reqBody =
      relayed E contentOrEmpty (acceptTruthy E) "Model did not return valid JSON"
        (fun _ => json 500 (errorBody "Internal server error")) req.
Proof.
  unfold Topic.sentences_feedback.
  validate (field reqBody "items").
  step; [|refuse]. destruct (length _ =? 0)%nat; [refuse|].
  step; [|refuse]. relay.
Qed.

Lemma teded_resume_score_shape (reqBody : value) :
  refused (TedEd.resume_score E reqBody)
  ∨ ∃ req, TedEd.resume_score E reqBody =
      relayed E trimmedContent (acceptTruthy E) "Model did not return valid JSON."
        (fun err => json 500 (errorBody (describe err))) req.
Proof.
  unfold TedEd.resume_score.
  step; [|refuse]. step; [|refuse]. relay.
Qed.

Ltac respond :=
  right;
  cbv beta iota zeta delta
    [mbind M_bind mret M_ret lift call Structured.createResponse Structured.relay
     handle fst snd];
  match goal with |- context [EvResponses ?r] => exists r end;
  unfold structured;
  destruct (responses_create _ _) as [?output|?e]; [|reflexivity];
  destruct (JSON_parse _ _); reflexivity.

Lemma structured_writing_feedback_shape (reqBody : value) :
  refused (Structured.writing_feedback E reqBody)
  ∨ ∃ req, Structured.writing_feedback E reqBody = structured E req.
Proof.
  unfold Structured.writing_feedback. step; [|refuse].
  destruct (negb _ || negb _); [refuse|].
  step; [|refuse]. step; [|refuse]. step; [|refuse]. respond.
Qed.

Lemma structured_vocabulary_shape (reqBody : value) :
  refused (Structured.vocabulary E reqBody)
  ∨ ∃ req, Structured.vocabulary E reqBody = structured E req.
Proof.
  unfold Structured.vocabulary. step; [|refuse].
  destruct (fieldOr _ "words" (JArr [])) as [| | | |[|? ?]|]; try refuse.
  step; [|refuse]. step; [|refuse]. respond.
Qed.

Lemma structured_resume_score_shape (reqBody : value) :
  refused (Structured.resume_score E reqBody)
  ∨ ∃ req, Structured.resume_score E reqBody = structured E req.
Proof.
  unfold Structured.resume_score. step; [|refuse].
  step; [|refuse]. step; [|refuse]. step; [|refuse]. step; [|refuse].
  step; [|refuse]. respond.
Qed.

(** Every JSON endpoint of [Baseline] is a relay that reads the completion
    as [received] says and answers with the parsed reply, truthy replies
    only. *)
Lemma baseline_relay_shape (path : string)
    (h : value -> Response Num * list Event) (reqBody : value) :
  path ∈ jsonEndpoints →
  Baseline.post E path = Some h →
  refused (h reqBody)
  ∨ ∃ accept msg onError req,
      h reqBody = relayed E (received path) accept msg onError req
      ∧ (∀ v out, accept v = Some out → isTruthy E v = true ∧ out = v)
      ∧ (∀ e, status (onError e) = 500%nat).
Proof.
  unfold jsonEndpoints. rewrite !elem_of_cons, elem_of_nil.
  intros [->|[->|[->|[->|[]]]]] [= <-].
  - destruct (baseline_writing_feedback_shape reqBody) as [?|[req ->]]; [by left|].
    right. do 4 eexists. split; [reflexivity|]. unfold acceptTruthy.
    split; [intros v out|done]. by destruct (isTruthy E v); intros [=].
  - destruct (baseline_vocabulary_shape reqBody) as [?|[req ->]]; [by left|].
    right. do 4 eexists. split; [reflexivity|]. unfold acceptArray.
    split; [intros v out|done].
    by destruct (isTruthy E v), (isArray (Some v)); intros [=].
  - destruct (baseline_sentences_feedback_shape reqBody) as [?|[req ->]]; [by left|].
    right. do 4 eexists. split; [reflexivity|]. unfold acceptTruthy.
    split; [intros v out|done]. by destruct (isTruthy E v); intros [=].
  - destruct (baseline_resume_score_shape reqBody) as [?|[req ->]]; [by left|].
    right. do 4 eexists. split; [reflexivity|]. unfold acceptTruthy.
    split; [intros v out|done]. by destruct (isTruthy E v); intros [=].
Qed.

(** So is every JSON endpoint of [TedEd]; [/ai/vocabulary] answers with the
    normalised reply. *)
Lemma teded_relay_shape (path : string)
    (h : value -> Response Num * list Event) (reqBody : value) :
  path ∈ jsonEndpoints →
  TedEd.post E path = Some h →
  refused (h reqBody)
  ∨ ∃ accept msg onError req,
      h reqBody = relayed E (received path) accept msg onError req
      ∧ (∀ v out, accept v = Some out → isTruthy E v = true)
      ∧ (∀ e, status (onError e) = 500%nat).
Proof.
  unfold jsonEndpoints. rewrite !elem_of_cons, elem_of_nil.
  intros [->|[->|[->|[->|[]]]]] [= <-].
  - destruct (teded_writing_feedback_shape reqBody) as [?|[req ->]]; [by left|].
    right. do 4 eexists. split; [reflexivity|]. unfold acceptTruthy.
    split; [intros v out|done]. by destruct (isTruthy E v); intros [=].
  - destruct (teded_vocabulary_shape reqBody) as [?|[req ->]]; [by left|].
    right. do 4 eexists. split; [reflexivity|]. unfold acceptItems.
    split; [intros v out|done]. by destruct v; intros [=].
  - destruct (teded_sentences_feedback_shape reqBody) as [?|[req ->]]; [by left|].
    right. do 4 eexists. split; [reflexivity|]. unfold acceptTruthy.
    split; [intros v out|done]. by destruct (isTruthy E v); intros [=].
  - destruct (teded_resume_score_shape reqBody) as [?|[req ->]]; [by left|].
    right. do 4 eexists. split; [reflexivity|]. unfold acceptTruthy.
    split; [intros v out|done]. by destruct (isTruthy E v); intros [=].
Qed.

Lemma relay_shape_baseline (path : string)
    (h : value -> Response Num * list Event) (reqBody : value) :
  path ∈ jsonEndpoints →
  Baseline.post E path = Some h →
  refused (h reqBody)
  ∨ ∃ accept msg onError req,
      h reqBody = relayed E (received path) accept msg onError req
      ∧ (∀ v out, accept v = Some out → isTruthy E v = true)
      ∧ (∀ e, status (onError e) = 500%nat).
Proof.
  intros Hpath Hpost.
  destruct (baseline_relay_shape path h reqBody Hpath Hpost)
    as [?|(a & m & o & r & ? & Ha & ?)]; [by left|].
  right. exists a, m, o, r. split_and!; [done| |done].
  intros v out Hv. by apply (Ha v out).
Qed.

(** So is every JSON endpoint of [Lesson] and of [Topic], which register
    handlers of [Baseline] and of [TedEd] but for [/ai/sentences-feedback]
    of [Topic]. *)
Lemma relay_shape (path : string)
    (h : value -> Response Num * list Event) (reqBody : value) :
  path ∈ jsonEndpoints →
  relays E path h →
  refused (h reqBody)
  ∨ ∃ accept msg onError req,
      h reqBody = relayed E (received path) accept msg onError req
      ∧ (∀ v out, accept v = Some out → isTruthy E v = true)
      ∧ (∀ e, status (onError e) = 500%nat).
Proof.
  intros Hpath [Hpost|[Hpost|[Hpost|Hpost]]].
  - by apply relay_shape_baseline.
  - by apply teded_relay_shape.
  - revert Hpath Hpost. unfold jsonEndpoints, Lesson.post.
    rewrite !elem_of_cons, elem_of_nil.
    intros [->|[->|[->|[->|[]]]]] [= <-].
    + apply (relay_shape_baseline "/ai/writing-feedback"); [unfold jsonEndpoints; set_solver|reflexivity].
    + apply (relay_shape_baseline "/ai/vocabulary"); [unfold jsonEndpoints; set_solver|reflexivity].
    + apply (teded_relay_shape "/ai/sentences-feedback"); [unfold jsonEndpoints; set_solver|reflexivity].
    + apply (relay_shape_baseline "/ai/resume-score"); [unfold jsonEndpoints; set_solver|reflexivity].
  - revert Hpath Hpost. unfold jsonEndpoints, Topic.post.
    rewrite !elem_of_cons, elem_of_nil.
    intros [->|[->|[->|[->|[]]]]] [= <-].
    + apply (relay_shape_baseline "/ai/writing-feedback"); [unfold jsonEndpoints; set_solver|reflexivity].
    + apply (relay_shape_baseline "/ai/vocabulary"); [unfold jsonEndpoints; set_solver|reflexivity].
    + destruct (topic_sentences_feedback_shape reqBody) as [?|[req ->]]; [by left|].
      right. do 4 eexists. split; [reflexivity|]. unfold acceptTruthy.
      split; [intros v out|done]. by destruct (isTruthy E v); intros [=].
    + apply (relay_shape_baseline "/ai/resume-score"); [unfold jsonEndpoints; set_solver|reflexivity].
Qed.

Lemma structured_shape (path : string) (h : value -> Response Num * list Event)
    (reqBody : value) :
  Structured.post E path = Some h →
  refused (h reqBody) ∨ ∃ req, h reqBody = structured E req.
Proof.
  unfold Structured.post. repeat case_match; intros [= <-].
  - apply structured_writing_feedback_shape.
  - apply structured_vocabulary_shape.
  - apply structured_resume_score_shape.
Qed.

End RelayShape.

(** ** Replies that are not an acceptable JSON value *)

Section Replies.
Context {Num : Type} (E : Env Num).

Local Abbreviation value := (JSON Num).

Lemma refused_no_call (out : Response Num * list Event) (ev : Event) :
  refused out → ev ∉ out.2.
Proof. intros [-> _]. apply not_elem_of_nil. Qed.

Lemma refused_not_200 (out : Response Num * list Event) :
  refused out → status out.1 ≠ 200%nat.
Proof. intros [_ [->| ->]]; discriminate. Qed.

Lemma relayed_rejected read accept msg onError req completion :
  chat_completions_create E req = Returns completion →
  accept (parseJsonSafely E (read completion)) = None →
  relayed E read accept msg onError req =
    (json 502 (rawBody msg (read completion)), [EvChat req]).
Proof. unfold relayed. by intros -> ->. Qed.

Lemma relayed_200 read accept msg onError req :
  (∀ e, status (onError e) = 500%nat) →
  status (relayed E read accept msg onError req).1 = 200%nat →
  ∃ completion out,
    chat_completions_create E req = Returns completion
    ∧ accept (parseJsonSafely E (read completion)) = Some out
    ∧ (relayed E read accept msg onError req).1 = json 200 out.
Proof.
  unfold relayed. intros Herr.
  destruct (chat_completions_create E req) as [completion|e]; simpl.
  - destruct (accept _) as [out|] eqn:Hacc; simpl; [|discriminate]. eauto.
  - rewrite Herr. discriminate.
Qed.

Lemma parseJsonSafely_parsed text v :
  JSON_parse E text = Returns v → parseJsonSafely E text = v.
Proof. unfold parseJsonSafely. by intros ->. Qed.

Lemma parseJsonSafely_thrown text e :
  JSON_parse E text = Throws e → parseJsonSafely E text = JNull.
Proof. unfold parseJsonSafely. by intros ->. Qed.

Lemma parseJsonSafely_truthy text :
  isTruthy E (parseJsonSafely E text) = true →
  ∃ v, JSON_parse E text = Returns v ∧ isTruthy E v = true.
Proof.
  unfold parseJsonSafely. destruct (JSON_parse E text) as [v|e]; [eauto|discriminate].
Qed.

(** A reply the endpoint does not find truthy is answered with a 502 that
    carries the text read. *)
Lemma relay_rejects (path : string) (h : value -> Response Num * list Event)
    (reqBody : value) (req : ChatRequest) (completion : option string) :
  path ∈ jsonEndpoints →
  relays E path h →
  EvChat req ∈ (h reqBody).2 →
  chat_completions_create E req = Returns completion →
  isTruthy E (parseJsonSafely E (received path completion)) = false →
  status (h reqBody).1 = 502%nat
  ∧ carriesRaw (h reqBody).1 (received path completion).
Proof.
  intros Hpath Hpost Hcall Hreply Hfalsy.
  destruct (relay_shape E path h reqBody Hpath Hpost)
    as [Href|(accept & msg & onError & req' & Hshape & Hacc & _)].
  - by apply refused_no_call in Hcall.
  - rewrite Hshape in Hcall. simpl in Hcall.
    apply list_elem_of_singleton in Hcall. injection Hcall as ->.
    rewrite Hshape, (relayed_rejected _ _ _ _ _ completion); [| done |].
    + split; [reflexivity|]. by exists msg.
    + destruct (accept _) as [out|] eqn:Hout; [|done].
      apply Hacc in Hout. congruence.
Qed.

(** C9, as amended. On the JSON endpoints of the relay, in every revision
    that has them, a reply whose text, as the endpoint reads it (trimmed,
    except by [/ai/sentences-feedback]), parses to a falsy value is answered
    with a 502 that carries the text read, and a 200 is only produced from
    a text read that parses to a truthy value. *)
Theorem falsy_reply_is_502 (path : string)
    (h : value -> Response Num * list Event) (reqBody : value) :
  path ∈ jsonEndpoints →
  relays E path h →
  (∀ req completion v,
      EvChat req ∈ (h reqBody).2 →
      chat_completions_create E req = Returns completion →
      JSON_parse E (received path completion) = Returns v →
      isTruthy E v = false →
      status (h reqBody).1 = 502%nat
      ∧ carriesRaw (h reqBody).1 (received path completion))
  ∧ (status (h reqBody).1 = 200%nat →
      ∃ req completion v,
        (h reqBody).2 = [EvChat req]
        ∧ chat_completions_create E req = Returns completion
        ∧ JSON_parse E (received path completion) = Returns v
        ∧ isTruthy E v = true).
Proof.
  intros Hpath Hpost. split.
  - intros req completion v Hcall Hreply Hparse Hfalsy.
    apply (relay_rejects path h reqBody req completion); try done.
    by rewrite (parseJsonSafely_parsed _ v).
  - intros H200.
    destruct (relay_shape E path h reqBody Hpath Hpost)
      as [Href|(accept & msg & onError & req & Hshape & Hacc & Herr)].
    + by apply refused_not_200 in Href.
    + rewrite Hshape in H200 |- *.
      destruct (relayed_200 _ _ _ _ _ Herr H200) as (completion & out & Hreply & Hout & _).
      apply Hacc, parseJsonSafely_truthy in Hout as (v & Hv & Htruthy).
      by exists req, completion, v.
Qed.

(** On [Baseline] the body of a 200 is the parsed reply itself. *)
Lemma baseline_200_is_reply (path : string)
    (h : value -> Response Num * list Event) (reqBody : value) :
  path ∈ jsonEndpoints →
  Baseline.post E path = Some h →
  status (h reqBody).1 = 200%nat →
  ∃ req completion v,
    (h reqBody).2 = [EvChat req]
    ∧ chat_completions_create E req = Returns completion
    ∧ JSON_parse E (received path completion) = Returns v
    ∧ isTruthy E v = true
    ∧ body (h reqBody).1 = BJson v.
Proof.
  intros Hpath Hpost H200.
  destruct (baseline_relay_shape E path h reqBody Hpath Hpost)
    as [Href|(accept & msg & onError & req & Hshape & Hacc & Herr)].
  - by apply refused_not_200 in Href.
  - rewrite Hshape in H200 |- *.
    destruct (relayed_200 _ _ _ _ _ Herr H200) as (completion & out & Hreply & Hout & Hbody).
    destruct (Hacc _ _ Hout) as [Htruthy ->].
    apply parseJsonSafely_truthy in Htruthy as (v & Hv & Htruthy).
    exists req, completion, v. split_and!; try done.
    rewrite Hbody. simpl. by rewrite (parseJsonSafely_parsed _ v).
Qed.

(** C3, as amended. On the JSON endpoints of the relay, in every revision
    that has them, a reply whose text, as the endpoint reads it (trimmed,
    except by [/ai/sentences-feedback]), fails to parse is answered with a
    502 whose [raw] is the text read.  The endpoints of [Structured] answer
    an output that fails to parse with a 500 that carries the parser's
    message. *)
Theorem unparsable_reply (path : string)
    (h : value -> Response Num * list Event) (reqBody : value) :
  path ∈ jsonEndpoints →
  (relays E path h →
   ∀ req completion e,
     EvChat req ∈ (h reqBody).2 →
     chat_completions_create E req = Returns completion →
     JSON_parse E (received path completion) = Throws e →
     status (h reqBody).1 = 502%nat
     ∧ carriesRaw (h reqBody).1 (received path completion))
  ∧ (Structured.post E path = Some h →
     ∀ req output e,
       EvResponses req ∈ (h reqBody).2 →
       responses_create E req = Returns output →
       JSON_parse E output = Throws e →
       status (h reqBody).1 = 500%nat
       ∧ body (h reqBody).1 = BJson (errorBody (errorToString e))).
Proof.
  intros Hpath. split.
  - intros Hpost req completion e Hcall Hreply Hparse.
    apply (relay_rejects path h reqBody req completion); try done.
    by rewrite (parseJsonSafely_thrown _ e).
  - intros Hpost req output e Hcall Hreply Hparse.
    destruct (structured_shape E path h reqBody Hpost) as [Href|[req' Hshape]].
    + by apply refused_no_call in Hcall.
    + rewrite Hshape in Hcall |- *. simpl in Hcall.
      apply list_elem_of_singleton in Hcall. injection Hcall as ->.
      unfold structured. by rewrite Hreply, Hparse.
Qed.

End Replies.

(** ** The vocabulary endpoint *)

Section Vocabulary.
Context {Num : Type} (E : Env Num).

Local Abbreviation value := (JSON Num).

Lemma lookupProp_setProp_eq k (v : value) props :
  lookupProp k (setProp k v props) = Some v.
Proof.
  induction props as [|[k' v'] props IH]; simpl.
  - by rewrite String.eqb_refl.
  - destruct (String.eqb k k') eqn:Hk; simpl; rewrite ?Hk, ?String.eqb_refl; done.
Qed.

Lemma lookupProp_setProp_ne k k' (v : value) props :
  k ≠ k' → lookupProp k' (setProp k v props) = lookupProp k' props.
Proof.
  intros Hne. induction props as [|[k0 v0] props IH]; simpl.
  - by rewrite (proj2 (String.eqb_neq k' k)).
  - destruct (String.eqb k k0) eqn:Hk; simpl; [|by rewrite IH].
    apply String.eqb_eq in Hk as <-. by rewrite (proj2 (String.eqb_neq k' k)).
Qed.

Lemma objectValued_test (t : value) :
  isTruthy E t && typeofObject t = objectValued t.
Proof. destruct t; simpl; try done; by rewrite andb_false_r. Qed.

Lemma normalizeItem_object props :
  TedEd.normalizeItem E (JObj props) =
    JObj (setProp "translations"
            (match lookupProp "translations" props with
             | Some t => if objectValued t then t else JObj []
             | None => JObj []
             end) props).
Proof.
  unfold TedEd.normalizeItem. simpl.
  destruct (lookupProp "translations" props) as [t|]; [|done].
  by rewrite objectValued_test.
Qed.

(** Whatever the reply's item is, its normal form has [translations]. *)
Lemma normalizeItem_hasTranslations (it : value) :
  hasTranslations (TedEd.normalizeItem E it).
Proof.
  unfold TedEd.normalizeItem, hasTranslations.
  eexists _, _. split; [reflexivity|]. apply lookupProp_setProp_eq.
Qed.


(** An array item yields an object of its indices and an empty
    [translations]. *)
Lemma normalizeItem_array (xs : list value) :
  TedEd.normalizeItem E (JArr xs) =
    JObj (setProp "translations" (JObj [])
            (imap (fun (i : nat) x => (pretty i, x)) xs)).
Proof. reflexivity. Qed.

(** An item that is not an object (nor an array) is replaced by an object
    with empty [translations] only. *)
Lemma normalizeItem_other (it : value) :
  objectValued it = false →
  TedEd.normalizeItem E it = JObj [("translations", JObj [])].
Proof.
  unfold TedEd.normalizeItem. rewrite andb_comm, objectValued_test. by intros ->.
Qed.

(** C5, as amended. A 200 of [/ai/vocabulary] is the array the reply parsed
    to, item by item in normal form: of the length of the reply's array, and
    every element has [translations]. *)
Theorem vocabulary_200 (reqBody : value) :
  status (TedEd.vocabulary E reqBody).1 = 200%nat →
  ∃ req completion items out,
    (TedEd.vocabulary E reqBody).2 = [EvChat req]
    ∧ chat_completions_create E req = Returns completion
    ∧ JSON_parse E (trimmedContent completion) = Returns (JArr items)
    ∧ body (TedEd.vocabulary E reqBody).1 = BJson (JArr out)
    ∧ out = TedEd.normalizeItem E <$> items
    ∧ length out = length items
    ∧ (∀ o, o ∈ out → hasTranslations o).
Proof.
  intros H200.
  destruct (teded_vocabulary_shape E reqBody) as [Href|[req Hshape]].
  - by apply refused_not_200 in Href.
  - rewrite Hshape in H200 |- *.
    apply relayed_200 in H200 as (completion & out & Hreply & Hout & Hbody); [|done].
    unfold acceptItems in Hout.
    destruct (parseJsonSafely E _) as [| | | |items|] eqn:Hparsed; try discriminate.
    injection Hout as <-.
    exists req, completion, items, (TedEd.normalizeItem E <$> items). split_and!.
    + reflexivity.
    + done.
    + unfold parseJsonSafely in Hparsed.
      destruct (JSON_parse E _); [by subst|discriminate].
    + by rewrite Hbody.
    + reflexivity.
    + apply length_fmap.
    + intros o (it & -> & _)%list_elem_of_fmap. apply normalizeItem_hasTranslations.
Qed.

End Vocabulary.

(** ** The validation of the sentences endpoint *)

Section Sentences.
Context {Num : Type} (E : Env Num).

Local Abbreviation value := (JSON Num).

Lemma toStr_primitive (v : value) : primitive v → ∃ s, toStr E v = Returns s.
Proof. destruct v; intros Hv; try discriminate; by eexists. Qed.

Lemma toStr_or_plain (o : option value) (d : string) :
  (∀ v, o = Some v → primitive v) → ∃ s, toStr E (orDefault E o (JStr d)) = Returns s.
Proof.
  intros Ho. unfold orDefault, orElse. destruct o as [v|]; [|by eexists].
  destruct (truthy _ v); [|by eexists]. by apply toStr_primitive, Ho.
Qed.

Lemma strOrEmpty_plain (o : option value) :
  (∀ v, o = Some v → primitive v) → ∃ s, strOrEmpty E o = Returns s.
Proof. apply toStr_or_plain. Qed.

Lemma getProp_field (it : value) k : it ≠ JNull → getProp it k = Returns (field it k).
Proof. by destruct it. Qed.

Lemma mapRes_ext {A B} (f g : A → Res B) (l : list A) :
  (∀ x, f x = g x) → mapRes f l = mapRes g l.
Proof. intros Hfg. induction l as [|x l IH]; [done|]. cbn [mapRes]. by rewrite Hfg, IH. Qed.

Lemma strOrEmpty_string (d : string) : strOrEmpty E (Some (JStr d)) = Returns d.
Proof. unfold strOrEmpty, orDefault, orElse. simpl. by destruct d. Qed.

Lemma mapRes_trimmed (ss : list string) :
  mapRes (fun s : value => Js.trim <$> strOrEmpty E (Some s)) (JStr <$> ss)
    = Returns (Js.trim <$> ss).
Proof.
  induction ss as [|x ss IH]; [done|].
  rewrite !fmap_cons. cbn [mapRes]. by rewrite strOrEmpty_string, IH.
Qed.

(** The cleaning of an item of strings: its word and its sentences,
    trimmed. *)
Lemma cleanItem_entry (e : string * list string) :
  cleanItem E (itemOf e) = Returns (cleanEntry e).
Proof.
  unfold cleanItem, itemOf, cleanEntry. cbn [getProp lookupProp String.eqb Ascii.eqb].
  simpl. by rewrite strOrEmpty_string, mapRes_trimmed.
Qed.

Lemma nonEmpty_length (x : string) : (0 <? String.length x)%nat = Js.nonEmpty x.
Proof. by destruct x. Qed.

Lemma keepItem_entry (e : string * list string) : keepItem (cleanEntry e) = validEntry e.
Proof.
  unfold keepItem, cleanEntry, validEntry. cbn [word sentences].
  rewrite length_fmap. f_equal.
  induction e.2 as [|x l IH]; [done|]. rewrite fmap_cons. cbn [forallb].
  by rewrite IH, nonEmpty_length.
Qed.

Lemma mapRes_fmap {A B C} (g : A → B) (f : B → Res C) (l : list A) :
  mapRes f (g <$> l) = mapRes (fun x => f (g x)) l.
Proof. induction l as [|x l IH]; [done|]. rewrite fmap_cons. cbn [mapRes]. by rewrite IH. Qed.

Lemma mapRes_returns {A B} (f : A → B) (l : list A) :
  mapRes (fun x => Returns (f x)) l = Returns (f <$> l).
Proof. induction l as [|x l IH]; [done|]. cbn [mapRes]. by rewrite IH. Qed.

(** On items of strings, the cleaning pass keeps the valid ones, cleaned,
    in order. *)
Lemma cleanItems_entries (entries : list (string * list string)) :
  cleanItems E (itemOf <$> entries)
    = Returns (cleanEntry <$> List.filter validEntry entries).
Proof.
  unfold cleanItems. rewrite mapRes_fmap.
  rewrite (mapRes_ext _ (fun e => Returns (cleanEntry e))) by apply cleanItem_entry.
  rewrite mapRes_returns. cbn [fmap res_fmap]. f_equal.
  induction entries as [|e entries IH]; [done|].
  rewrite fmap_cons. cbn [List.filter]. rewrite keepItem_entry.
  destruct (validEntry e); [rewrite fmap_cons|]; by rewrite IH.
Qed.

(** One item that throws makes the pass throw. *)
Lemma mapRes_throws {A B} (f : A → Res B) (l : list A) x e :
  x ∈ l → f x = Throws e → ∃ e', mapRes f l = Throws e'.
Proof.
  intros Hx Hf. induction l as [|a l IH]; [by apply elem_of_nil in Hx|].
  cbn [mapRes]. destruct (f a) as [b|e0] eqn:Ha; [|by eexists].
  apply elem_of_cons in Hx as [->|Hx]; [congruence|].
  destruct (IH Hx) as [e' ->]. by eexists.
Qed.

Lemma mapRes_total {A B} (f : A → Res B) (l : list A) :
  Forall (fun x => ∃ y, f x = Returns y) l → ∃ ys, mapRes f l = Returns ys.
Proof.
  induction 1 as [|x l [y Hy] _ [ys Hys]]; simpl; [by eexists|].
  rewrite Hy, Hys. by eexists.
Qed.

Lemma cleanItem_total (it : value) :
  wellFormedItem it → ∃ c, cleanItem E it = Returns c.
Proof.
  intros (Hnull & Hword & Hsent). unfold cleanItem.
  rewrite !getProp_field by done. simpl.
  destruct (strOrEmpty_plain (field it "word") Hword) as [ws ->]. simpl.
  destruct (field it "sentences") as [[| | | |l|]|]; simpl; try by eexists.
  destruct (mapRes_total (fun s => Js.trim <$> strOrEmpty E (Some s)) l) as [ss ->].
  { eapply Forall_impl; [by apply Hsent|]. intros s Hs. simpl.
    destruct (strOrEmpty_plain (Some s)) as [t ->]; [by intros ? [= <-]|by eexists]. }
  by eexists.
Qed.

Lemma keepItem_valid (c : CleanItem) : keepItem c = true ↔ validItem c.
Proof.
  unfold keepItem, validItem. destruct c as [w ss]; simpl.
  rewrite !andb_true_iff. split.
  - intros [[Hw Hlen] Hall]. split; [by destruct w|].
    destruct ss as [|s1 [|s2 [|? ?]]]; try discriminate.
    exists s1, s2. simpl in Hall. rewrite !andb_true_iff in Hall.
    destruct Hall as (H1 & H2 & _). by destruct s1, s2.
  - intros [Hw (s1 & s2 & -> & H1 & H2)]. by destruct w, s1, s2.
Qed.

(** The cleaning pass completes on well-formed items, and keeps exactly the
    valid ones, in order. *)
Lemma cleanItems_spec (its : list value) :
  Forall wellFormedItem its →
  ∃ cleaned,
    mapRes (cleanItem E) its = Returns cleaned
    ∧ cleanItems E its = Returns (List.filter keepItem cleaned)
    ∧ (∀ c, c ∈ List.filter keepItem cleaned ↔ c ∈ cleaned ∧ validItem c).
Proof.
  intros Hwf. destruct (mapRes_total (cleanItem E) its) as [cleaned Hcleaned].
  { eapply Forall_impl; [done|]. apply cleanItem_total. }
  exists cleaned. split; [done|]. split.
  - unfold cleanItems. by rewrite Hcleaned.
  - intros c. rewrite !list_elem_of_In, filter_In, keepItem_valid. tauto.
Qed.

Lemma mapRes_elem {A B} (f : A → Res B) (l : list A) ys x y :
  mapRes f l = Returns ys → x ∈ l → f x = Returns y → y ∈ ys.
Proof.
  revert ys. induction l as [|a l IH]; intros ys Hmap Hx Hy; [by apply elem_of_nil in Hx|].
  simpl in Hmap. destruct (f a) as [b|] eqn:Hb; simpl in Hmap; [|done].
  destruct (mapRes f l) as [bs|]; simpl in Hmap; [|done]. injection Hmap as <-.
  apply elem_of_cons in Hx as [->|Hx].
  - rewrite Hy in Hb. injection Hb as ->. by left.
  - right. by apply IH.
Qed.

(** What the cleaning pass returns is the valid cleaned items, in order. *)
Lemma cleanItems_returned (its : list value) (cl : list CleanItem) :
  cleanItems E its = Returns cl →
  ∃ cleaned,
    mapRes (cleanItem E) its = Returns cleaned
    ∧ cl = List.filter keepItem cleaned
    ∧ (∀ c, c ∈ cl ↔ c ∈ cleaned ∧ validItem c).
Proof.
  unfold cleanItems. destruct (mapRes (cleanItem E) its) as [cleaned|e]; simpl; [|done].
  intros [= <-]. exists cleaned. split_and!; try done.
  intros c. rewrite !list_elem_of_In, filter_In, keepItem_valid. tauto.
Qed.

Ltac settle :=
  exec;
  destruct (chat_completions_create _ _); [destruct (isTruthy _ _)|];
  (split; [discriminate|by eexists]).

(** The three ways [/ai/sentences-feedback] leaves its validation. *)
Lemma baseline_sentences_cases (reqBody : value) :
  match cleanItems E (requestItems reqBody) with
  | Returns [] =>
      status (Baseline.sentences_feedback E reqBody).1 = 400%nat
      ∧ (Baseline.sentences_feedback E reqBody).2 = []
  | Returns (_ :: _) =>
      status (Baseline.sentences_feedback E reqBody).1 ≠ 400%nat
      ∧ (plainField reqBody "level" →
         ∃ req, (Baseline.sentences_feedback E reqBody).2 = [EvChat req])
  | Throws _ =>
      status (Baseline.sentences_feedback E reqBody).1 = 500%nat
      ∧ (Baseline.sentences_feedback E reqBody).2 = []
  end.
Proof.
  unfold Baseline.sentences_feedback, requestItems.
  destruct (field reqBody "items") as [[| | | |[|it its]|]|]; try done.
  exec. destruct (cleanItems E (it :: its)) as [[|c cl]|e]; try done.
  change (length (c :: cl) =? 0)%nat with false. exec.
  destruct (toStr E (orDefault E (field reqBody "level") (JStr "B2"))) as [lvl|e] eqn:Hlvl.
  - settle.
  - split; [discriminate|]. intros Hplain.
    destruct (toStr_or_plain (field reqBody "level") "B2" Hplain) as [lvl Hlvl'].
    congruence.
Qed.

Lemma normalizeLevel_plain (o : option value) :
  (∀ v, o = Some v → primitive v) → ∃ lvl, normalizeLevel E o = Returns lvl.
Proof.
  intros Ho. unfold normalizeLevel.
  destruct (toStr_or_plain o "B2" Ho) as [s ->]. by eexists.
Qed.

Lemma teded_sentences_cases (reqBody : value) :
  match cleanItems E (requestItems reqBody) with
  | Returns [] =>
      status (TedEd.sentences_feedback E reqBody).1 = 400%nat
      ∧ (TedEd.sentences_feedback E reqBody).2 = []
  | Returns (_ :: _) =>
      status (TedEd.sentences_feedback E reqBody).1 ≠ 400%nat
      ∧ (plainField reqBody "level" →
         ∃ req, (TedEd.sentences_feedback E reqBody).2 = [EvChat req])
  | Throws _ =>
      status (TedEd.sentences_feedback E reqBody).1 = 500%nat
      ∧ (TedEd.sentences_feedback E reqBody).2 = []
  end.
Proof.
  unfold TedEd.sentences_feedback, requestItems.
  destruct (field reqBody "items") as [[| | | |[|it its]|]|]; try done.
  exec. destruct (cleanItems E (it :: its)) as [[|c cl]|e]; try done.
  change (length (c :: cl) =? 0)%nat with false. exec.
  destruct (normalizeLevel E (field reqBody "level")) as [lvl|e] eqn:Hlvl.
  - settle.
  - split; [discriminate|]. intros Hplain.
    destruct (normalizeLevel_plain (field reqBody "level") Hplain) as [lvl Hlvl'].
    congruence.
Qed.

Lemma topic_sentences_cases (reqBody : value) :
  match cleanItems E (requestItems reqBody) with
  | Returns [] =>
      status (Topic.sentences_feedback E reqBody).1 = 400%nat
      ∧ (Topic.sentences_feedback E reqBody).2 = []
  | Returns (_ :: _) =>
      status (Topic.sentences_feedback E reqBody).1 ≠ 400%nat
      ∧ (plainField reqBody "level" →
         ∃ req, (Topic.sentences_feedback E reqBody).2 = [EvChat req])
  | Throws _ =>
      status (Topic.sentences_feedback E reqBody).1 = 500%nat
      ∧ (Topic.sentences_feedback E reqBody).2 = []
  end.
Proof.
  unfold Topic.sentences_feedback, requestItems.
  destruct (field reqBody "items") as [[| | | |[|it its]|]|]; try done.
  exec. destruct (cleanItems E (it :: its)) as [[|c cl]|e]; try done.
  change (length (c :: cl) =? 0)%nat with false. exec.
  destruct (toStr E (orDefault E (field reqBody "level") (JStr "B2"))) as [lvl|e] eqn:Hlvl.
  - settle.
  - split; [discriminate|]. intros Hplain.
    destruct (toStr_or_plain (field reqBody "level") "B2" Hplain) as [lvl Hlvl'].
    congruence.
Qed.


End Sentences.

(** ** The drafts of the resume endpoint *)

Section Drafts.
Context {Num : Type} (E : Env Num).

Local Abbreviation value := (JSON Num).

Lemma mapRes_strings (ds : list string) :
  mapRes (fun d : value => strOrEmpty E (Some d)) (JStr <$> ds) = Returns ds.
Proof.
  induction ds as [|d ds IH]; [done|].
  rewrite fmap_cons. cbn [mapRes]. by rewrite strOrEmpty_string, IH.
Qed.

Lemma finalDrafts_array (ds : list string) others :
  noDrafts others →
  TedEd.finalDrafts E (draftsBody ds others) = Returns (List.filter TedEd.notBlank ds).
Proof.
  intros Hno. unfold TedEd.finalDrafts, draftsBody, field. simpl.
  rewrite !Hno by set_solver. simpl. by rewrite mapRes_strings.
Qed.

Lemma finalDrafts_legacy (w1 w2 w100 : string) others :
  noDrafts others →
  TedEd.finalDrafts E (legacyBody w1 w2 w100 others) =
    Returns (List.filter TedEd.notBlank [w1; w2; w100]).
Proof.
  intros Hno. unfold TedEd.finalDrafts, legacyBody, field. simpl.
  by rewrite Hno by set_solver.
Qed.

(** A legacy field that is absent counts as the empty draft. *)
Lemma finalDrafts_legacy_two (w1 w2 : string) others :
  noDrafts others →
  TedEd.finalDrafts E (JObj (("writing1", JStr w1) :: ("writing2", JStr w2) :: others)) =
    Returns (List.filter TedEd.notBlank [w1; w2; ""]).
Proof.
  intros Hno. unfold TedEd.finalDrafts, field. simpl.
  by rewrite !Hno by set_solver.
Qed.

(** Once the level is normalised, the drafts go upstream: the one call of
    the request carries their list in the user message. *)
Lemma resume_score_sends (reqBody : value) (drafts : list string) :
  plainField reqBody "level" →
  TedEd.finalDrafts E reqBody = Returns drafts →
  sendsDrafts E (TedEd.resume_score E reqBody) drafts.
Proof.
  intros Hlevel Hdrafts. unfold TedEd.resume_score, sendsDrafts.
  destruct (normalizeLevel_plain E
              (Some (orDefault E (field reqBody "level") (JStr "B2")))) as [lvl ->].
  { intros v [= <-]. unfold orDefault, orElse.
    destruct (field reqBody "level") as [v|] eqn:Hv; [|done].
    destruct (truthy _ v); [by apply Hlevel|done]. }
  rewrite Hdrafts. exec. eexists _, _. unfold TedEd.resumeUser.
  destruct (chat_completions_create E _); [destruct (isTruthy E _)|]; reflexivity.
Qed.

(** C7, as amended. In [TedEd] the two shapes of a resume request normalise
    to the list of their non-blank drafts, and that list is what the prompt
    carries; when these lists agree the two requests are answered alike,
    through the same prompt.  So [drafts: ["a", "b"]] and [writing1: "a"],
    [writing2: "b"] with an empty [writing100] both give [["a"; "b"]]. *)
Theorem drafts_forms_agree (ds : list string) (w1 w2 w100 : string)
    (others : list (string * value)) :
  noDrafts others →
  TedEd.finalDrafts E (draftsBody ds others) = Returns (List.filter TedEd.notBlank ds)
  ∧ TedEd.finalDrafts E (legacyBody w1 w2 w100 others)
      = Returns (List.filter TedEd.notBlank [w1; w2; w100])
  ∧ ((∀ v, lookupProp "level" others = Some v → primitive v) →
     sendsDrafts E (TedEd.resume_score E (draftsBody ds others))
       (List.filter TedEd.notBlank ds)
     ∧ sendsDrafts E (TedEd.resume_score E (legacyBody w1 w2 w100 others))
         (List.filter TedEd.notBlank [w1; w2; w100]))
  ∧ (List.filter TedEd.notBlank ds = List.filter TedEd.notBlank [w1; w2; w100] →
     TedEd.resume_score E (draftsBody ds others)
       = TedEd.resume_score E (legacyBody w1 w2 w100 others))
  ∧ TedEd.finalDrafts E (draftsBody ["a"; "b"] others) = Returns ["a"; "b"]
  ∧ TedEd.finalDrafts E (legacyBody "a" "b" "" others) = Returns ["a"; "b"].
Proof.
  intros Hno. split_and!.
  - by apply finalDrafts_array.
  - by apply finalDrafts_legacy.
  - intros Hlevel. split.
    + apply resume_score_sends; [exact Hlevel|by apply finalDrafts_array].
    + apply resume_score_sends; [exact Hlevel|by apply finalDrafts_legacy].
  - intros Hsame. unfold TedEd.resume_score.
    rewrite finalDrafts_array, finalDrafts_legacy, Hsame by done.
    reflexivity.
  - by rewrite finalDrafts_array.
  - by rewrite finalDrafts_legacy.
Qed.

End Drafts.

(** ** The TED-Ed context *)

Section Context.
Context {Num : Type} (E : Env Num).

Local Abbreviation value := (JSON Num).

Lemma isAllowedTedEdUrl_allowListed (url : string) :
  TedEd.isAllowedTedEdUrl E url = true ↔ allowListed E url.
Proof.
  unfold TedEd.isAllowedTedEdUrl, allowListed.
  destruct (URL_parse E url) as [u|e].
  - destruct (String.eqb (protocol u) "https:") eqn:Hp; simpl.
    + apply String.eqb_eq in Hp. rewrite String.eqb_eq. split.
      * intros Hh. by exists u.
      * by intros (u' & [= <-] & _ & Hh).
    + apply String.eqb_neq in Hp. split; [done|]. by intros (u' & [= <-] & ? & _).
  - split; [done|]. by intros (u' & [=] & _).
Qed.

Lemma isValidTedEdLessonUrl_allowListed (url : string) :
  Lesson.isValidTedEdLessonUrl E url = true → allowListed E url.
Proof.
  unfold Lesson.isValidTedEdLessonUrl, allowListed.
  destruct (URL_parse E url) as [u|e]; [|done].
  rewrite !andb_true_iff, !String.eqb_eq. intros [[Hp Hh] _]. by exists u.
Qed.

(** C1, as amended. A URL that is not allow-listed makes no request: in
    [Lesson], [fetchTedEdContext] returns [ok: false] with the reason
    ["invalid_ted_ed_url"], or ["missing_url"] when the trimmed URL is
    empty; in [TedEd], [extractTedEdContext] returns [null]. *)
Theorem invalid_url_short_circuits (lessonUrl : string) (tr : list Event) :
  ¬ allowListed E (Js.trim lessonUrl) →
  Lesson.fetchTedEdContext E lessonUrl tr =
    (Returns (Lesson.mkTed (Js.trim lessonUrl) "" "" "" false
                (Some (if Js.nonEmpty (Js.trim lessonUrl)
                       then "invalid_ted_ed_url" else "missing_url"))),
     tr)
  ∧ TedEd.extractTedEdContext E (Js.trim lessonUrl) tr = (Returns None, tr).
Proof.
  intros Hnot. split.
  - unfold Lesson.fetchTedEdContext.
    destruct (Lesson.isValidTedEdLessonUrl E (Js.trim lessonUrl)) eqn:Hvalid.
    { by apply isValidTedEdLessonUrl_allowListed in Hvalid. }
    rewrite orb_true_r. by destruct (Js.nonEmpty (Js.trim lessonUrl)).
  - unfold TedEd.extractTedEdContext.
    destruct (TedEd.isAllowedTedEdUrl E (Js.trim lessonUrl)) eqn:Hvalid.
    { by apply isAllowedTedEdUrl_allowListed in Hvalid. }
    by rewrite orb_true_r.
Qed.

(** [fetchTedEdContext] returns whatever the network and the page do: it
    never throws, and makes at most one request. *)
Lemma fetchTedEdContext_returns (lessonUrl : string) (tr : list Event) :
  ∃ ted tr',
    Lesson.fetchTedEdContext E lessonUrl tr = (Returns ted, tr')
    ∧ (tr' = tr ∨ ∃ req, tr' = tr ++ [EvFetch req]).
Proof.
  unfold Lesson.fetchTedEdContext.
  destruct (negb _ || negb _); [by eexists _, _; split; [|left]|].
  exec. destruct (fetch E _) as [resp|e]; [|by eexists _, _; split; [|right; eexists]].
  destruct (resp_text resp) as [html|e]; [|by eexists _, _; split; [|right; eexists]].
  destruct (cheerio_load E html) as [dom|e]; [|by eexists _, _; split; [|right; eexists]].
  destruct (fold_left _ _ _) as [ldTitle ldDesc].
  by eexists _, _; split; [|right; eexists].
Qed.

(** In [Lesson], a fetch, a body or a page that throws is reported as
    ["fetch_failed"]. *)
Lemma fetchTedEdContext_failure (lessonUrl : string) (tr : list Event) :
  Js.nonEmpty (Js.trim lessonUrl) = true →
  Lesson.isValidTedEdLessonUrl E (Js.trim lessonUrl) = true →
  contextFails E (Js.trim lessonUrl) →
  ∃ req,
    Lesson.fetchTedEdContext E lessonUrl tr =
      (Returns (Lesson.failed (Js.trim lessonUrl) "fetch_failed"), tr ++ [EvFetch req]).
Proof.
  intros Hsome Hvalid Hfail. unfold Lesson.fetchTedEdContext.
  rewrite Hsome, Hvalid. simpl. exec. eexists.
  destruct Hfail as [[e ->]|[(resp & e & -> & ->)|(resp & html & e & -> & -> & ->)]];
    reflexivity.
Qed.

End Context.

(** ** The conversation endpoint *)

Ltac crunch :=
  repeat (exec;
          first
            [ match goal with
              | |- context [match ?x with Returns _ => _ | Throws _ => _ end] =>
                  destruct x eqn:?
              end
            | match goal with
              | |- context [if ?b then _ else _] =>
                  lazymatch b with
                  | true => fail
                  | false => fail
                  | _ => destruct b eqn:?
                  end
              end
            | match goal with
              | |- context [Lesson.fetchTedEdContext ?E ?u ?tr] =>
                  destruct (Lesson.fetchTedEdContext E u tr) as [[?ted|?e] ?pre] eqn:?
              end ]).

Ltac quiet Hin :=
  simpl in Hin;
  repeat (apply elem_of_cons in Hin as [Hin|Hin]; [discriminate Hin|]);
  by apply elem_of_nil in Hin.

Ltac silent := left; intros ? Hin; quiet Hin.

Section Conversation.
Context {Num : Type} (E : Env Num).

Local Abbreviation value := (JSON Num).

(** The completion call of [/ai/conversation] in [TedEd], when there is
    one, carries the context prompt built on [safeVocab]. *)
Lemma teded_conversation_shape (reqBody : value) :
  noChat (TedEd.conversation E reqBody).2
  ∨ ∃ lvl ctx u summary l history pre,
      TedEd.safeVocab E (field reqBody "vocabulary") = Returns l
      ∧ (TedEd.conversation E reqBody).2 =
          pre ++ [EvChat (mkChat (MODEL E) (7 # 10)
                    (mkMessage "system" (TedEd.conversationSystem lvl (levelSpec lvl))
                     :: mkMessage "user" (TedEd.conversationContext ctx u summary l)
                     :: history))]
      ∧ noChat pre.
Proof.
  unfold TedEd.conversation, TedEd.extractTedEdContext, TedEd.fetchWithTimeout.
  destruct (field reqBody "messages") as [[| | | |msgs|]|].
  all: crunch.
  all: try silent.
  all: right; eexists _, _, _, _, _, _, _;
    (split; [reflexivity|split; [reflexivity|intros ? Hin; quiet Hin]]).
Qed.

(** So does the one of [Lesson], built on [uniqueVocab]. *)
Lemma lesson_conversation_shape (reqBody : value) :
  noChat (Lesson.conversation E reqBody).2
  ∨ ∃ lvl ted summary cleaned history pre,
      Lesson.cleanedVocab E (fieldOr reqBody "vocabulary" (JArr [])) = Returns cleaned
      ∧ (Lesson.conversation E reqBody).2 =
          pre ++ [EvChat (mkChat (MODEL E) (6 # 10)
                    (mkMessage "system" (Lesson.conversationSystem lvl (levelSpec lvl))
                     :: mkMessage "user"
                          (Lesson.conversationContext ted summary
                             (Lesson.uniqueVocab E ∅ cleaned))
                     :: history))]
      ∧ noChat pre.
Proof.
  unfold Lesson.conversation.
  destruct (fieldOr reqBody "messages" (JArr [])) as [| | | |msgs|].
  all: crunch.
  all: try silent.
  all: try match goal with
           | H : Lesson.fetchTedEdContext _ ?u [] = (_, ?pre) |- _ =>
               destruct (fetchTedEdContext_returns E u []) as (? & ? & Hret & Hpre);
               rewrite Hret in H; injection H as ? ?; subst;
               destruct Hpre as [->|[? ->]]
           end.
  all: try silent.
  all: right; eexists _, _, _, _, _, _;
    (split; [reflexivity|split; [reflexivity|intros ? Hin; quiet Hin]]).
Qed.

Lemma cleanStrings_nonEmpty (ws : list value) (l : list string) :
  TedEd.cleanStrings E ws = Returns l → ∀ w, w ∈ l → w ≠ "".
Proof.
  unfold TedEd.cleanStrings. destruct (mapRes _ ws) as [ss|e]; simpl; [|done].
  intros [= <-] w [_ Hw]%list_elem_of_In%filter_In. by intros ->.
Qed.

Lemma safeVocab_capped (vocabulary : option value) (l : list string) :
  TedEd.safeVocab E vocabulary = Returns l →
  (length l ≤ 30)%nat ∧ ∀ w, w ∈ l → w ≠ "".
Proof.
  unfold TedEd.safeVocab.
  destruct vocabulary as [[| | | |ws|]|]; try (intros [= <-]; split; [simpl; lia|set_solver]).
  destruct (TedEd.cleanStrings E ws) as [ss|e] eqn:Hclean; simpl; [|done].
  intros [= <-]. split.
  - rewrite length_take. lia.
  - intros w Hw%subseteq_take. by apply (cleanStrings_nonEmpty ws ss).
Qed.

Lemma uniqueVocab_sound (seen : gset string) (ws : list string) :
  NoDup (toLowerCase E <$> Lesson.uniqueVocab E seen ws)
  ∧ ∀ w, w ∈ Lesson.uniqueVocab E seen ws → (toLowerCase E w ∉ seen) ∧ (w ∈ ws).
Proof.
  revert seen. induction ws as [|w ws IH]; intros seen; simpl.
  - split; [constructor|set_solver].
  - case_bool_decide as Hseen.
    + destruct (IH seen) as [Hnd Hin]. split; [done|].
      intros w' Hw'. destruct (Hin w' Hw'). set_solver.
    + destruct (IH ({[toLowerCase E w]} ∪ seen)) as [Hnd Hin]. split.
      * rewrite fmap_cons. apply NoDup_cons. split; [|done].
        intros (w' & Heq & Hw')%list_elem_of_fmap.
        destruct (Hin w' Hw') as [Hnot _]. set_solver.
      * intros w' [->|Hw']%elem_of_cons; [set_solver|].
        destruct (Hin w' Hw'). set_solver.
Qed.

Lemma uniqueVocab_complete (seen : gset string) (ws : list string) (w : string) :
  w ∈ ws →
  toLowerCase E w ∈ seen
  ∨ ∃ w', w' ∈ Lesson.uniqueVocab E seen ws ∧ equalIgnoringCase E w w'.
Proof.
  unfold equalIgnoringCase.
  revert seen. induction ws as [|w0 ws IH]; intros seen Hw; [set_solver|].
  simpl. apply elem_of_cons in Hw as [->|Hw].
  - case_bool_decide; [by left|]. right. exists w0. set_solver.
  - case_bool_decide as Hseen.
    + by apply IH.
    + destruct (IH ({[toLowerCase E w0]} ∪ seen) Hw) as [[Heq%elem_of_singleton|?]%elem_of_union|(w' & ? & ?)].
      * right. exists w0. set_solver.
      * by left.
      * right. exists w'. set_solver.
Qed.

(** A word is kept exactly where its key occurs first. *)
Lemma uniqueVocab_first (seen : gset string) (ws : list string) (w : string) :
  w ∈ Lesson.uniqueVocab E seen ws
  ↔ ∃ before after,
      ws = before ++ (w :: after)
      ∧ (toLowerCase E w ∉ seen)
      ∧ ∀ w', w' ∈ before → ¬ equalIgnoringCase E w' w.
Proof.
  unfold equalIgnoringCase.
  revert seen. induction ws as [|w0 ws IH]; intros seen.
  { split; [by intros ?%elem_of_nil|]. by intros ([|? ?] & ? & ? & _). }
  cbn [Lesson.uniqueVocab]. case_bool_decide as Hseen.
  - rewrite IH. split.
    + intros (before & after & -> & Hw & Hfirst). exists (w0 :: before), after.
      split_and!; [done..|]. intros w' [->|Hw']%elem_of_cons; [congruence|by apply Hfirst].
    + intros ([|w1 before] & after & Heq & Hw & Hfirst); injection Heq as -> ->.
      * done.
      * exists before, after. split_and!; [done..|]. intros w' Hw'. apply Hfirst. by right.
  - rewrite elem_of_cons, IH. split.
    + intros [->|(before & after & -> & Hw & Hfirst)].
      * exists [], ws. split_and!; [done..|]. by intros w' ?%elem_of_nil.
      * exists (w0 :: before), after. split_and!; [done|set_solver|].
        intros w' [->|Hw']%elem_of_cons; [set_solver|by apply Hfirst].
    + intros ([|w1 before] & after & Heq & Hw & Hfirst); injection Heq as -> ->.
      * by left.
      * right. exists before, after. split_and!; [done| |].
        -- assert (toLowerCase E w1 ≠ toLowerCase E w) by (apply Hfirst; by left).
           set_solver.
        -- intros w' Hw'. apply Hfirst. by right.
Qed.

Lemma uniqueVocab_sublist (seen : gset string) (ws : list string) :
  Lesson.uniqueVocab E seen ws `sublist_of` ws.
Proof.
  revert seen. induction ws as [|w ws IH]; intros seen; simpl; [done|].
  case_bool_decide; [by apply sublist_cons|by apply sublist_skip].
Qed.

(** The cleaning of a vocabulary of strings: trimmed, the blank ones
    dropped. *)
Lemma cleanStrings_strings (ws : list string) :
  TedEd.cleanStrings E (JStr <$> ws) = Returns (List.filter Js.nonEmpty (Js.trim <$> ws)).
Proof. unfold TedEd.cleanStrings. by rewrite mapRes_trimmed. Qed.

Lemma cleanedVocab_strings (ws : list string) :
  Lesson.cleanedVocab E (JArr (JStr <$> ws))
    = Returns (List.filter Js.nonEmpty (Js.trim <$> ws)).
Proof. unfold Lesson.cleanedVocab. by rewrite mapRes_trimmed. Qed.

Lemma cleanedVocab_nonEmpty (vocabulary : value) (l : list string) :
  Lesson.cleanedVocab E vocabulary = Returns l → ∀ w, w ∈ l → w ≠ "".
Proof.
  unfold Lesson.cleanedVocab. destruct vocabulary as [| | | |ws|]; try (intros [= <-]; set_solver).
  destruct (mapRes _ ws) as [ss|e]; simpl; [|done].
  intros [= <-] w [_ Hw]%list_elem_of_In%filter_In. by intros ->.
Qed.

Lemma chat_in_shape (tr pre : list Event) (req r0 : ChatRequest) :
  tr = pre ++ [EvChat r0] → noChat pre → EvChat req ∈ tr → req = r0.
Proof.
  intros -> Hpre [Hin|Hin%list_elem_of_singleton]%elem_of_app.
  - by apply Hpre in Hin.
  - by injection Hin.
Qed.


(** In [Lesson], a context fetch that fails does not fail the request: the
    prompt is built on the failed context and the fallback summary, and the
    answer is the one of the completion. *)
Lemma lesson_fetch_failure_recovered (reqBody : value) (lvl link summary : string)
    (msgs : list value) (cleaned : list string) (history : list Message) :
  normalizeLevel E (field reqBody "level") = Returns lvl →
  fieldOr reqBody "messages" (JArr []) = JArr msgs →
  toStr E (orDefault E (field reqBody "videoUrl")
             (orDefault E (field reqBody "tedUrl") (JStr "")))
    = Returns link →
  Js.nonEmpty (Js.trim link) = true →
  Lesson.isValidTedEdLessonUrl E (Js.trim link) = true →
  contextFails E (Js.trim link) →
  Lesson.cleanedVocab E (fieldOr reqBody "vocabulary" (JArr [])) = Returns cleaned →
  strOrEmpty E (field reqBody "topicResume") = Returns summary →
  mapRes (fun m => chatMessage E (getPropOpt (Some m) "role")
                                 (getPropOpt (Some m) "content")) msgs
    = Returns history →
  let ted := Lesson.failed (Js.trim link) "fetch_failed" in
  let req :=
    mkChat (MODEL E) (6 # 10)
      (mkMessage "system" (Lesson.conversationSystem lvl (levelSpec lvl))
       :: mkMessage "user"
            (Lesson.conversationContext ted summary (Lesson.uniqueVocab E ∅ cleaned))
       :: history) in
  ∃ freq,
    Lesson.conversation E reqBody =
      (match chat_completions_create E req with
       | Returns completion =>
           if Js.nonEmpty (trimmedContent completion)
           then json 200 (JObj [("reply", JStr (trimmedContent completion));
                                ("ted", Lesson.tedValue ted)])
           else json 502 (errorBody "Empty reply from model")
       | Throws e => json 500 (errorBody (messageOr e "Conversation error"))
       end,
       [EvFetch freq; EvChat req]).
Proof.
  intros Hlvl Hmsgs Hlink Hsome Hvalid Hfails Hvocab Hsummary Hhistory ted req.
  destruct (fetchTedEdContext_failure E (Js.trim link) []) as [freq Hted];
    rewrite ?trim_idem; try done.
  exists freq. unfold Lesson.conversation.
  rewrite Hlvl, Hmsgs. exec. rewrite Hlink, Hted, Hvocab, Hsummary, Hhistory.
  rewrite trim_idem. fold ted. fold req.
  destruct (chat_completions_create E req) as [completion|e]; [|reflexivity].
  by destruct (Js.nonEmpty (trimmedContent completion)).
Qed.

(** In [TedEd], a fetch that throws fails the request: a 500 with the
    message of the throw, and no completion call. *)
Lemma teded_fetch_failure_surfaces (reqBody : value) (lvl u : string)
    (msgs : list value) (e : JsError) :
  field reqBody "messages" = Some (JArr msgs) →
  isTruthyOpt E (field reqBody "level") = true →
  normalizeLevel E (field reqBody "level") = Returns lvl →
  isTruthyOpt E (field reqBody "tedUrl") = true →
  strOrEmpty E (field reqBody "tedUrl") = Returns u →
  Js.nonEmpty (Js.trim u) = true →
  TedEd.isAllowedTedEdUrl E (Js.trim u) = true →
  fetch E (Js.trim u) = Throws e →
  ∃ freq,
    TedEd.conversation E reqBody =
      (mkResponse 500 (BText (messageOr e "Conversation error")), [EvFetch freq]).
Proof.
  intros Hmsgs Hlevel Hlvl Hted Hu Hsome Hallowed Hfetch.
  unfold TedEd.conversation, TedEd.extractTedEdContext, TedEd.fetchWithTimeout.
  rewrite Hmsgs, Hlevel. simpl negb. exec. rewrite Hlvl, Hted, Hu. exec.
  rewrite Hsome, Hallowed. simpl. exec. rewrite Hfetch. by eexists.
Qed.

End Conversation.

(** ** What the cleaning helpers keep *)

Lemma mapRes_length {A B} (f : A → Res B) (l : list A) ys :
  mapRes f l = Returns ys → length ys = length l.
Proof.
  revert ys. induction l as [|a l IH]; intros ys; simpl.
  - by intros [= <-].
  - destruct (f a) as [b|]; simpl; [|done].
    destruct (mapRes f l) as [bs|]; simpl; [|done].
    intros [= <-]. simpl. by rewrite (IH bs).
Qed.

Lemma mapRes_image {A B} (f : A → Res B) (l : list A) ys y :
  mapRes f l = Returns ys → y ∈ ys → ∃ x, x ∈ l ∧ f x = Returns y.
Proof.
  revert ys. induction l as [|a l IH]; intros ys; simpl.
  - intros [= <-] Hy. by apply elem_of_nil in Hy.
  - destruct (f a) as [b|] eqn:Hb; simpl; [|done].
    destruct (mapRes f l) as [bs|]; simpl; [|done].
    intros [= <-] [->|Hy]%elem_of_cons.
    + exists a. split; [by left|done].
    + destruct (IH bs eq_refl Hy) as (x & Hx & Hfx). exists x. split; [by right|done].
Qed.

Lemma mapRes_Forall2 {A B} (f : A → Res B) (l : list A) ys :
  mapRes f l = Returns ys → Forall2 (fun x y => f x = Returns y) l ys.
Proof.
  revert ys. induction l as [|a l IH]; intros ys; simpl.
  - intros [= <-]. constructor.
  - destruct (f a) as [b|] eqn:Hb; simpl; [|done].
    destruct (mapRes f l) as [bs|]; simpl; [|done].
    intros [= <-]. constructor; [done|by apply IH].
Qed.

Lemma guard_passed (a b : bool) : negb a || negb b = false → a = true ∧ b = true.
Proof. by destruct a, b. Qed.

Lemma tag_trimmed (t : string) : t ∈ levels → Js.trim t = t.
Proof.
  unfold levels. rewrite !elem_of_cons, elem_of_nil.
  intros [->|[->|[->|[->|[->|[]]]]]]; reflexivity.
Qed.

Lemma levelSpec_other (other : string) :
  other ∉ levels → levelSpec other = levelSpec "".
Proof.
  unfold levels. rewrite !not_elem_of_cons. intros (H1 & H2 & H3 & H4 & H5 & _).
  unfold levelSpec.
  by rewrite !(proj2 (String.eqb_neq other _)) by done.
Qed.

Section Cleaning.
Context {Num : Type} (E : Env Num).

Local Abbreviation value := (JSON Num).

(** X1. A level that [normalizeLevel] returns is a fixed point of it: the
    handlers that normalise a level twice ([/ai/resume-score] passes
    [body.level || "B2"]) get the tag of a single pass. *)
Theorem normalizeLevel_idempotent (level : option value) (t : string) :
  normalizeLevel E level = Returns t → normalizeLevel E (Some (JStr t)) = Returns t.
Proof.
  intros Ht%normalizeLevel_range. revert Ht. unfold levels.
  rewrite !elem_of_cons, elem_of_nil.
  intros [->|[->|[->|[->|[->|[]]]]]]; rewrite normalizeLevel_string; reflexivity.
Qed.

(** X2. After [normalizeLevel], [levelSpec] never takes its [default]
    branch: the rules of a normalised level differ from the rules of every
    text that is not one of the five tags. *)
Theorem normalized_level_has_rules (level : option value) (t other : string) :
  normalizeLevel E level = Returns t →
  other ∉ levels →
  levelSpec t ≠ levelSpec other.
Proof.
  intros Ht%normalizeLevel_range Hother. rewrite (levelSpec_other other Hother).
  revert Ht. unfold levels. rewrite !elem_of_cons, elem_of_nil.
  intros [->|[->|[->|[->|[->|[]]]]]] Heq; vm_compute in Heq; discriminate Heq.
Qed.

Lemma cleanStrings_returned (ws : list value) (l : list string) :
  TedEd.cleanStrings E ws = Returns l →
  (length l ≤ length ws)%nat ∧ ∀ w, w ∈ l → w ≠ "" ∧ Js.trim w = w.
Proof.
  unfold TedEd.cleanStrings.
  destruct (mapRes _ ws) as [ss|e] eqn:Hss; simpl; [|done].
  intros [= <-]. split.
  - rewrite <- (mapRes_length _ _ _ Hss). apply filter_length_le.
  - intros w [Hin Hw]%list_elem_of_In%filter_In. split; [by intros ->|].
    apply list_elem_of_In in Hin.
    destruct (mapRes_image _ _ _ _ Hss Hin) as (x & _ & Hx).
    destruct (strOrEmpty E (Some x)) as [s|]; simpl in Hx; [|done].
    injection Hx as <-. apply trim_idem.
Qed.

(** X3. The cleaning of [words], of [nativeLanguageCodes] and of the
    conversation vocabulary ([map(String(w || "").trim()).filter(Boolean)])
    completes on primitive entries; what it returns is no longer than its
    input, and every entry of it is non-empty and already trimmed. *)
Theorem cleanStrings_clean (ws : list value) :
  (Forall primitive ws → ∃ l, TedEd.cleanStrings E ws = Returns l)
  ∧ ∀ l, TedEd.cleanStrings E ws = Returns l →
      (length l ≤ length ws)%nat
      ∧ ∀ w, w ∈ l → w ≠ "" ∧ Js.trim w = w.
Proof.
  split; [|apply cleanStrings_returned].
  intros Hws. unfold TedEd.cleanStrings.
  destruct (mapRes_total (fun w => Js.trim <$> strOrEmpty E (Some w)) ws) as [ss ->];
    [|by eexists].
  eapply Forall_impl; [done|]. intros w Hw. simpl.
  destruct (strOrEmpty_plain E (Some w)) as [s ->]; [by intros ? [= <-]|by eexists].
Qed.

Lemma single_code (code : option value) (l : list string) :
  (if isTruthyOpt E code
   then code_s ← strOrEmpty E code;
        if Js.nonEmpty (Js.trim code_s) then Returns [Js.trim code_s] else Returns []
   else Returns []) = Returns l →
  (∀ c, c ∈ l → c ≠ "" ∧ Js.trim c = c) ∧ (length l ≤ 1)%nat.
Proof.
  destruct (isTruthyOpt E code).
  - destruct (strOrEmpty E code) as [code_s|]; [|done]. cbn [mbind res_bind].
    destruct (Js.nonEmpty (Js.trim code_s)) eqn:Hcode; intros [= <-].
    + split; [|simpl; lia]. intros c ->%list_elem_of_singleton.
      split; [by intros Heq; rewrite Heq in Hcode|apply trim_idem].
    + split; [|simpl; lia]. intros c Hin. by apply elem_of_nil in Hin.
  - intros [= <-]. split; [|simpl; lia]. intros c Hin. by apply elem_of_nil in Hin.
Qed.

(** X4. The languages [/ai/vocabulary] is asked to translate into are
    non-empty, trimmed codes; a non-empty [nativeLanguageCodes] array makes
    [nativeLanguageCode] irrelevant, and without one there is at most one
    language. *)
Theorem requestedLangs_clean (codes code : option value) (l : list string) :
  TedEd.requestedLangs E codes code = Returns l →
  (∀ c, c ∈ l → c ≠ "" ∧ Js.trim c = c)
  ∧ (∀ c cs, codes = Some (JArr (c :: cs)) →
             ∀ code', TedEd.requestedLangs E codes code' = Returns l)
  ∧ ((∀ c cs, codes ≠ Some (JArr (c :: cs))) → (length l ≤ 1)%nat).
Proof.
  unfold TedEd.requestedLangs.
  destruct codes as [[| | | |[|c0 cs0]|]|].
  all: try (intros [Hclean Hlen]%single_code; split_and!;
            [done|by intros ? ? [=]|done]).
  intros Hl. split_and!.
  - by apply (cleanStrings_returned (c0 :: cs0)).
  - done.
  - intros Hno. by destruct (Hno c0 cs0).
Qed.

Lemma uniqueLangs_sound (seen : gset string) (langs : list string) :
  NoDup (langKey E <$> TedEd.uniqueLangs E seen langs)
  ∧ TedEd.uniqueLangs E seen langs `sublist_of` langs
  ∧ ∀ c, c ∈ TedEd.uniqueLangs E seen langs → langKey E c ≠ "" ∧ langKey E c ∉ seen.
Proof.
  revert seen. induction langs as [|c langs IH]; intros seen; simpl.
  - split_and!; [constructor|done|set_solver].
  - fold (langKey E c). destruct (Js.nonEmpty (langKey E c)) eqn:Hkey; simpl.
    + case_bool_decide as Hseen.
      * destruct (IH seen) as (Hnd & Hsub & Hin).
        split_and!; [done|by apply sublist_cons|done].
      * destruct (IH ({[langKey E c]} ∪ seen)) as (Hnd & Hsub & Hin). split_and!.
        -- rewrite fmap_cons. apply NoDup_cons. split; [|done].
           intros (c' & Heq & Hc')%list_elem_of_fmap.
           destruct (Hin c' Hc') as [_ Hnot]. set_solver.
        -- by apply sublist_skip.
        -- intros c' [->|Hc']%elem_of_cons.
           ++ split; [|done]. intros Hempty. by rewrite Hempty in Hkey.
           ++ destruct (Hin c' Hc') as [? ?]. split; [done|set_solver].
    + destruct (IH seen) as (Hnd & Hsub & Hin).
      split_and!; [done|by apply sublist_cons|done].
Qed.

Lemma uniqueLangs_complete (seen : gset string) (langs : list string) (c : string) :
  c ∈ langs → langKey E c ≠ "" →
  langKey E c ∈ seen
  ∨ ∃ c', c' ∈ TedEd.uniqueLangs E seen langs ∧ langKey E c' = langKey E c.
Proof.
  revert seen. induction langs as [|c0 langs IH]; intros seen Hc Hkey; [set_solver|].
  simpl. fold (langKey E c0). apply elem_of_cons in Hc as [<-|Hc].
  - destruct (Js.nonEmpty (langKey E c)) eqn:Hne; [|by destruct (langKey E c)]. simpl.
    case_bool_decide; [by left|]. right. exists c. split; [by left|done].
  - destruct (Js.nonEmpty (langKey E c0)) eqn:Hne; simpl; [|by apply IH].
    case_bool_decide as Hseen; [by apply IH|].
    destruct (IH ({[langKey E c0]} ∪ seen) Hc Hkey)
      as [[Heq%elem_of_singleton|?]%elem_of_union|(c' & ? & ?)].
    + right. exists c0. split; [by left|done].
    + by left.
    + right. exists c'. split; [by right|done].
Qed.

(** X5. The [seen] filter of the languages keeps one code per key (lower
    case, [_] read as [-]): the codes kept are a subsequence of the codes
    given, their keys are pairwise distinct and never empty, and every code
    given with a non-empty key has its key among them. *)
Theorem uniqueLangs_distinct (langs : list string) :
  NoDup (langKey E <$> TedEd.uniqueLangs E ∅ langs)
  ∧ TedEd.uniqueLangs E ∅ langs `sublist_of` langs
  ∧ (∀ c, c ∈ TedEd.uniqueLangs E ∅ langs → langKey E c ≠ "")
  ∧ (∀ c, c ∈ langs → langKey E c ≠ "" →
          ∃ c', c' ∈ TedEd.uniqueLangs E ∅ langs ∧ langKey E c' = langKey E c).
Proof.
  destruct (uniqueLangs_sound ∅ langs) as (Hnd & Hsub & Hin). split_and!; try done.
  - intros c Hc. by destruct (Hin c Hc).
  - intros c Hc Hkey.
    destruct (uniqueLangs_complete ∅ langs c Hc Hkey) as [?|?]; [set_solver|done].
Qed.

Lemma setProp_idem k (v : value) props :
  setProp k v (setProp k v props) = setProp k v props.
Proof.
  induction props as [|[k' v'] props IH]; simpl.
  - by rewrite String.eqb_refl.
  - destruct (String.eqb k k') eqn:Hk; simpl.
    + by rewrite String.eqb_refl.
    + by rewrite Hk, IH.
Qed.

Lemma normalizeItem_normal (props : list (string * value)) (t : value) :
  objectValued t = true →
  TedEd.normalizeItem E (JObj (setProp "translations" t props))
    = JObj (setProp "translations" t props).
Proof.
  intros Ht. rewrite normalizeItem_object, lookupProp_setProp_eq, Ht.
  by rewrite setProp_idem.
Qed.

(** X6. The output normalisation of [/ai/vocabulary] is idempotent: an
    item in normal form is left as it is, whatever the item was (an object,
    an array, a primitive). *)
Theorem normalizeItem_idempotent (it : value) :
  TedEd.normalizeItem E (TedEd.normalizeItem E it) = TedEd.normalizeItem E it.
Proof.
  destruct (objectValued it) eqn:Hit.
  - destruct it as [| | | |xs|props]; try discriminate.
    + rewrite normalizeItem_array. by apply normalizeItem_normal.
    + rewrite normalizeItem_object.
      destruct (lookupProp "translations" props) as [t|]; [|by apply normalizeItem_normal].
      destruct (objectValued t) eqn:Ht; by apply normalizeItem_normal.
  - rewrite !(normalizeItem_other E it Hit). reflexivity.
Qed.

Lemma notBlank_trim (d : string) : TedEd.notBlank d = true → Js.trim d ≠ "".
Proof. unfold TedEd.notBlank. intros Hd Heq. by rewrite Heq in Hd. Qed.

(** X7. The effective drafts of [/ai/resume-score] never hold a blank
    draft; there are no more of them than entries of [drafts] when that is
    an array, and at most three otherwise. *)
Theorem finalDrafts_not_blank (reqBody : value) (l : list string) :
  TedEd.finalDrafts E reqBody = Returns l →
  (∀ d, d ∈ l → Js.trim d ≠ "")
  ∧ (∀ ds, field reqBody "drafts" = Some (JArr ds) → (length l ≤ length ds)%nat)
  ∧ (isArray (field reqBody "drafts") = false → (length l ≤ 3)%nat).
Proof.
  unfold TedEd.finalDrafts.
  destruct (toStr E (TedEd.nullish (field reqBody "writing1") _)) as [w1|]; [|done].
  destruct (toStr E (TedEd.nullish (field reqBody "writing2") _)) as [w2|]; [|done].
  destruct (toStr E (TedEd.nullish (field reqBody "writing100") _)) as [w100|]; [|done].
  cbv beta iota delta [mbind res_bind].
  assert (∀ xs (d : string), d ∈ List.filter TedEd.notBlank xs → Js.trim d ≠ "") as Hfilter.
  { intros xs d [_ Hd]%list_elem_of_In%filter_In. by apply notBlank_trim. }
  destruct (field reqBody "drafts") as [[| | | |ds|]|] eqn:Hdrafts.
  all: try (intros Heq;
            assert (List.filter TedEd.notBlank [w1; w2; w100] = l) as <- by congruence;
            split_and!;
            [by apply Hfilter|done|intros _; apply (filter_length_le _ [w1; w2; w100])]).
  destruct (mapRes _ ds) as [ss|] eqn:Hss; [|done].
  intros [= <-]. split_and!; [by apply Hfilter| |done].
  intros ds' [= <-]. rewrite <- (mapRes_length _ _ _ Hss). apply filter_length_le.
Qed.

Lemma uniqueVocab_fresh (seen : gset string) (ws : list string) :
  NoDup (toLowerCase E <$> ws) →
  (∀ w, w ∈ ws → toLowerCase E w ∉ seen) →
  Lesson.uniqueVocab E seen ws = ws.
Proof.
  revert seen. induction ws as [|w ws IH]; intros seen Hnd Hfresh; [done|].
  rewrite fmap_cons in Hnd. apply NoDup_cons in Hnd as [Hw Hnd]. simpl.
  rewrite bool_decide_eq_false_2 by (apply Hfresh; by left).
  f_equal. apply IH; [done|]. intros w' Hw'.
  intros [Heq%elem_of_singleton|Hseen]%elem_of_union.
  - apply Hw. rewrite <- Heq. by apply list_elem_of_fmap_2.
  - by apply (Hfresh w'); [right|].
Qed.

(** X8. The [seen] filter of the conversation vocabulary keeps a
    subsequence of the words, starting with the first word, and filtering
    again changes nothing. *)
Theorem uniqueVocab_stable (ws : list string) :
  Lesson.uniqueVocab E ∅ ws `sublist_of` ws
  ∧ head (Lesson.uniqueVocab E ∅ ws) = head ws
  ∧ Lesson.uniqueVocab E ∅ (Lesson.uniqueVocab E ∅ ws) = Lesson.uniqueVocab E ∅ ws.
Proof.
  split_and!.
  - apply uniqueVocab_sublist.
  - destruct ws as [|w ws]; [done|]. simpl.
    by rewrite bool_decide_eq_false_2 by set_solver.
  - destruct (uniqueVocab_sound E ∅ ws) as [Hnd _].
    apply uniqueVocab_fresh; [done|set_solver].
Qed.

End Cleaning.

(** ** The lesson page *)

Lemma extracted_empty (t d : string) :
  Js.lines (List.filter Js.nonEmpty
              [if Js.nonEmpty t then "Title: " +:+ t else "";
               if Js.nonEmpty d then "Description: " +:+ d else ""]) = ""
  ↔ t = "" ∧ d = "".
Proof.
  destruct t as [|a t], d as [|b d]; split; try done.
  - by intros [_ [=]].
  - by intros [[=] _].
  - by intros [[=] _].
Qed.

Section Pages.
Context {Num : Type} (E : Env Num).

Local Abbreviation value := (JSON Num).

Lemma ldStep_keeps (t d : string) (script : string) :
  (t ≠ "" → (Lesson.ldStep E (t, d) script).1 = t)
  ∧ (d ≠ "" → (Lesson.ldStep E (t, d) script).2 = d).
Proof.
  unfold Lesson.ldStep. destruct (JSON_parse E script) as [j|]; [|done].
  destruct t as [|c t], d as [|c' d']; simpl; split; try done; intros _.
  all: repeat match goal with
       | |- context [if ?b then _ else _] => destruct b
       | |- context [match ?x with Returns _ => _ | Throws _ => _ end] => destruct x
       end; simpl; try done.
Qed.

(** X9. Over the ld+json scripts of a page, a title that has been found
    is never replaced by the title of a later script, and neither is a
    description. *)
Theorem ldJson_first_wins (scripts : list string) (t d : string) :
  (t ≠ "" → (fold_left (Lesson.ldStep E) scripts (t, d)).1 = t)
  ∧ (d ≠ "" → (fold_left (Lesson.ldStep E) scripts (t, d)).2 = d).
Proof.
  revert t d. induction scripts as [|s scripts IH]; intros t d; [done|].
  cbn [fold_left]. destruct (ldStep_keeps t d s) as [Ht Hd].
  destruct (Lesson.ldStep E (t, d) s) as [t' d']. cbn [fst snd] in Ht, Hd.
  destruct (IH t' d') as [IHt IHd]. split.
  - intros Hne. specialize (Ht Hne). subst t'. by apply IHt.
  - intros Hne. specialize (Hd Hne). subst d'. by apply IHd.
Qed.

(** X10. [fetchTedEdContext] always returns a record: its [url] is the
    trimmed argument, its [title] and [description] are trimmed, its
    [extractedText] is empty exactly when both are empty; [reason] is absent
    when [ok], and when not [ok] the texts are empty and the reason is one
    of three. *)
Theorem fetchTedEdContext_result (lessonUrl : string) (tr : list Event) :
  ∃ ted tr',
    Lesson.fetchTedEdContext E lessonUrl tr = (Returns ted, tr')
    ∧ Lesson.url ted = Js.trim lessonUrl
    ∧ Js.trim (Lesson.title ted) = Lesson.title ted
    ∧ Js.trim (Lesson.description ted) = Lesson.description ted
    ∧ (Lesson.extractedText ted = ""
       ↔ Lesson.title ted = "" ∧ Lesson.description ted = "")
    ∧ (Lesson.ok ted = true → Lesson.reason ted = None)
    ∧ (Lesson.ok ted = false →
       Lesson.title ted = "" ∧ Lesson.description ted = ""
       ∧ ∃ why, Lesson.reason ted = Some why
                ∧ why ∈ ["missing_url"; "invalid_ted_ed_url"; "fetch_failed"]).
Proof.
  assert (∀ why (tr' : list Event),
            why ∈ ["missing_url"; "invalid_ted_ed_url"; "fetch_failed"] →
            ∃ ted tr'',
              (Returns (Lesson.failed (Js.trim lessonUrl) why), tr') = (Returns ted, tr'')
              ∧ Lesson.url ted = Js.trim lessonUrl
              ∧ Js.trim (Lesson.title ted) = Lesson.title ted
              ∧ Js.trim (Lesson.description ted) = Lesson.description ted
              ∧ (Lesson.extractedText ted = ""
                 ↔ Lesson.title ted = "" ∧ Lesson.description ted = "")
              ∧ (Lesson.ok ted = true → Lesson.reason ted = None)
              ∧ (Lesson.ok ted = false →
                 Lesson.title ted = "" ∧ Lesson.description ted = ""
                 ∧ ∃ why, Lesson.reason ted = Some why
                          ∧ why ∈ ["missing_url"; "invalid_ted_ed_url"; "fetch_failed"]))
    as Hfailed.
  { intros why tr' Hwhy. eexists _, _. split; [reflexivity|].
    split_and!; try done. intros _. split_and!; try done. by exists why. }
  unfold Lesson.fetchTedEdContext.
  destruct (negb _ || negb _).
  { destruct (negb (Js.nonEmpty (Js.trim lessonUrl))); apply Hfailed; set_solver. }
  exec. destruct (fetch E _) as [resp|e]; [|apply Hfailed; set_solver].
  destruct (resp_text resp) as [html|e]; [|apply Hfailed; set_solver].
  destruct (cheerio_load E html) as [dom|e]; [|apply Hfailed; set_solver].
  destruct (fold_left _ _ _) as [ldTitle ldDesc].
  eexists _, _. split; [reflexivity|]. cbn.
  split_and!; try done; try apply trim_idem. apply extracted_empty.
Qed.

(** X11. [extractTedEdContext] returns a context only for an allow-listed
    URL whose fetch answered with an [ok] status and a readable body; the
    fetch is the one call made, and the four fields of the context are
    trimmed. *)
Theorem extractTedEdContext_context (u : string) (tr tr' : list Event)
    (c : TedEd.TedContext) :
  TedEd.extractTedEdContext E u tr = (Returns (Some c), tr') →
  allowListed E u
  ∧ (∃ resp html, fetch E u = Returns resp ∧ resp_ok resp = true
                  ∧ resp_text resp = Returns html)
  ∧ (∃ freq, tr' = tr ++ [EvFetch freq] ∧ fetch_url freq = u)
  ∧ Js.trim (TedEd.title c) = TedEd.title c
  ∧ Js.trim (TedEd.description c) = TedEd.description c
  ∧ Js.trim (TedEd.canonical c) = TedEd.canonical c
  ∧ Js.trim (TedEd.keywords c) = TedEd.keywords c.
Proof.
  unfold TedEd.extractTedEdContext, TedEd.fetchWithTimeout.
  destruct (negb _ || negb _) eqn:Hguard; [done|].
  apply guard_passed in Hguard as [_ Hallowed%isAllowedTedEdUrl_allowListed].
  exec. destruct (fetch E u) as [resp|e] eqn:Hfetch; [|done].
  destruct (resp_ok resp) eqn:Hok; cbn [negb]; [|done].
  destruct (resp_text resp) as [html|e] eqn:Hhtml; [|done].
  destruct (cheerio_load E html) as [dom|e]; [|done].
  intros [= <- <-]. cbn [TedEd.title TedEd.description TedEd.canonical TedEd.keywords].
  split_and!; try apply trim_idem; [done|by eexists _, _|by eexists].
Qed.

(** X12. A page answered with an HTTP error status: [extractTedEdContext]
    returns [null] after its fetch, without reading the body;
    [fetchTedEdContext] does not look at the status, and reports [ok: true]
    once the body is read and loaded. *)
Theorem http_error_status (u : string) (resp : HttpResponse) (tr : list Event) :
  Js.nonEmpty u = true →
  Js.trim u = u →
  fetch E u = Returns resp →
  resp_ok resp = false →
  (TedEd.isAllowedTedEdUrl E u = true →
   ∃ freq, TedEd.extractTedEdContext E u tr = (Returns None, tr ++ [EvFetch freq]))
  ∧ (Lesson.isValidTedEdLessonUrl E u = true →
     ∀ html dom,
       resp_text resp = Returns html →
       cheerio_load E html = Returns dom →
       ∃ ted freq,
         Lesson.fetchTedEdContext E u tr = (Returns ted, tr ++ [EvFetch freq])
         ∧ Lesson.ok ted = true
         ∧ Lesson.reason ted = None).
Proof.
  intros Hsome Htrim Hfetch Hok. split.
  - intros Hallowed. unfold TedEd.extractTedEdContext, TedEd.fetchWithTimeout.
    rewrite Hsome, Hallowed. cbn [negb orb]. exec. rewrite Hfetch, Hok.
    by eexists.
  - intros Hvalid html dom Hhtml Hdom. unfold Lesson.fetchTedEdContext.
    rewrite Htrim, Hsome, Hvalid. cbn [negb orb]. exec. rewrite Hfetch, Hhtml, Hdom.
    destruct (fold_left _ _ _) as [ldTitle ldDesc]. by eexists _, _.
Qed.

End Pages.

(** ** The JSON endpoints: what is refused, what is sent upstream *)

Section Endpoints.
Context {Num : Type} (E : Env Num).

Local Abbreviation value := (JSON Num).

Lemma text_guard (reqBody : value) :
  negb (isTruthyOpt E (field reqBody "text"))
  || negb (typeofString (field reqBody "text")) = false
  ↔ hasText reqBody.
Proof.
  unfold hasText. destruct (field reqBody "text") as [[| | |s| |]|]; simpl.
  all: rewrite ?orb_true_r.
  all: try (split; [done|by intros (s' & [=] & _)]).
  destruct s; simpl; split; try done.
  - by intros (s' & [= <-] & ?).
  - intros _. by eexists.
Qed.

(** X13. [/ai/writing-feedback] of [Baseline] and of [TedEd] answers 400
    exactly when [text] is not a non-empty string; the one of [Structured],
    which destructures the body as it is, exactly when moreover the body is
    not [null]: a [null] body is answered with a 500.  A 400, and that 500,
    are answered without any call. *)
Theorem writing_feedback_validation (reqBody : value) :
  (∀ h : value → Response Num * list Event,
     h = Baseline.writing_feedback E ∨ h = TedEd.writing_feedback E →
     (status (h reqBody).1 = 400%nat ↔ ¬ hasText reqBody)
     ∧ (status (h reqBody).1 = 400%nat → (h reqBody).2 = []))
  ∧ (status (Structured.writing_feedback E reqBody).1 = 400%nat
     ↔ reqBody ≠ JNull ∧ ¬ hasText reqBody)
  ∧ (status (Structured.writing_feedback E reqBody).1 = 400%nat →
     (Structured.writing_feedback E reqBody).2 = [])
  ∧ (reqBody = JNull →
     status (Structured.writing_feedback E reqBody).1 = 500%nat
     ∧ (Structured.writing_feedback E reqBody).2 = []).
Proof.
  split_and!.
  - intros h [->| ->].
    all: unfold Baseline.writing_feedback, TedEd.writing_feedback.
    all: destruct (negb _ || negb _) eqn:Hguard;
      [ split; [split; [intros _ Hhas; apply text_guard in Hhas; congruence|done]|done]
      | apply text_guard in Hguard ].
    all: crunch; (split; [split; [discriminate|done]|discriminate]).
  - unfold Structured.writing_feedback, Structured.relay, Structured.createResponse.
    assert (reqBody = JNull ∨ reqBody ≠ JNull) as [->|Hbody]
      by (destruct reqBody; (by left) || by right).
    { split; [discriminate|by intros [? _]]. }
    assert (Structured.destructured reqBody "text" = Returns reqBody) as ->
      by by destruct reqBody.
    exec.
    destruct (negb _ || negb _) eqn:Hguard;
      [ split; [split; [done|intros Hhas; apply text_guard in Hhas; congruence]|done]
      | apply text_guard in Hguard ].
    crunch; (split; [discriminate|by intros [_ ?]]).
  - unfold Structured.writing_feedback, Structured.relay, Structured.createResponse.
    destruct reqBody; cbn [Structured.destructured]; exec.
    all: try discriminate.
    all: destruct (negb _ || negb _); [done|].
    all: crunch; discriminate.
  - intros ->. by split.
Qed.

(** X14. [/ai/vocabulary] of [TedEd]: when the cleaned words are empty
    ([words] missing, not an array, empty, or blank entries only) the answer
    is the 400, with no call; when some word is left the answer is never a
    400; when the cleaning throws the answer is the 500 of that throw, with
    no call. *)
Theorem vocabulary_validation (reqBody : value) :
  match TedEd.cleanStrings E (requestWords reqBody) with
  | Returns [] =>
      TedEd.vocabulary E reqBody =
        (json 400 (errorBody "Missing or invalid 'words' array."), [])
  | Returns (_ :: _) => status (TedEd.vocabulary E reqBody).1 ≠ 400%nat
  | Throws e => TedEd.vocabulary E reqBody = (json 500 (errorBody (describe e)), [])
  end.
Proof.
  unfold TedEd.vocabulary, requestWords.
  destruct (field reqBody "words") as [[| | | |[|w ws]|]|]; try reflexivity.
  exec. destruct (TedEd.cleanStrings E (w :: ws)) as [[|c cl]|e]; try reflexivity.
  change (length (c :: cl) =? 0)%nat with false.
  crunch; try destruct (parseJsonSafely _ _); discriminate.
Qed.

(** X15. [/ai/vocabulary] of [Baseline] does not clean the words: it
    answers 400 exactly when [words] is not a non-empty array, and then
    without any call. *)
Theorem baseline_vocabulary_validation (reqBody : value) :
  (status (Baseline.vocabulary E reqBody).1 = 400%nat ↔ requestWords reqBody = [])
  ∧ (status (Baseline.vocabulary E reqBody).1 = 400%nat →
     (Baseline.vocabulary E reqBody).2 = []).
Proof.
  unfold Baseline.vocabulary, requestWords.
  destruct (field reqBody "words") as [[| | | |[|w ws]|]|]; try done.
  crunch; (split; [split; [discriminate|done]|discriminate]).
Qed.

(** X16. [/ai/resume-score] validates nothing: in no revision is its
    answer a 400, and the empty body goes upstream. *)
Theorem resume_score_has_no_validation (reqBody : value) :
  status (Baseline.resume_score E reqBody).1 ≠ 400%nat
  ∧ status (TedEd.resume_score E reqBody).1 ≠ 400%nat
  ∧ status (Structured.resume_score E reqBody).1 ≠ 400%nat
  ∧ (∃ req, (Baseline.resume_score E (JObj [])).2 = [EvChat req])
  ∧ (∃ req, (TedEd.resume_score E (JObj [])).2 = [EvChat req])
  ∧ (∃ req, (Structured.resume_score E (JObj [])).2 = [EvResponses req]).
Proof.
  split_and!.
  - unfold Baseline.resume_score. crunch; discriminate.
  - unfold TedEd.resume_score. crunch; discriminate.
  - unfold Structured.resume_score, Structured.relay, Structured.createResponse.
    crunch; discriminate.
  - unfold Baseline.resume_score. simpl. exec. eexists.
    match goal with
    | |- context [chat_completions_create E ?r] => destruct (chat_completions_create E r)
    end; [destruct (isTruthy E _)|]; reflexivity.
  - unfold TedEd.resume_score.
    assert (normalizeLevel E (Some (orDefault E (field (JObj []) "level") (JStr "B2")))
              = Returns "B2") as -> by reflexivity.
    assert (TedEd.finalDrafts E (JObj []) = Returns []) as -> by reflexivity.
    exec. eexists.
    match goal with
    | |- context [chat_completions_create E ?r] => destruct (chat_completions_create E r)
    end; [destruct (isTruthy E _)|]; reflexivity.
  - unfold Structured.resume_score, Structured.relay, Structured.createResponse.
    cbn [Structured.destructured]. exec. simpl.
    change (joinValues (numToString E) ", " []) with (@Returns string "").
    exec. eexists.
    match goal with
    | |- context [responses_create E ?r] =>
        destruct (responses_create E r) as [output|]
    end; [destruct (JSON_parse E output)|]; reflexivity.
Qed.

(** X17. [/ai/sentences-feedback] of [TedEd] and of [Topic] tells nothing
    of a failure: whatever was thrown, by the cleaning, the level or the
    completion service, a 500 carries the same fixed message. *)
Theorem sentences_failure_is_opaque (h : value → Response Num * list Event)
    (reqBody : value) :
  h = TedEd.sentences_feedback E ∨ h = Topic.sentences_feedback E →
  status (h reqBody).1 = 500%nat →
  (h reqBody).1 = json 500 (errorBody "Internal server error").
Proof.
  intros [->| ->]; unfold TedEd.sentences_feedback, Topic.sentences_feedback.
  all: destruct (field reqBody "items") as [[| | | |[|it its]|]|].
  all: crunch; intros H; first [discriminate H|reflexivity].
Qed.

(** X18. [/ai/sentences-feedback] of [Topic] puts the level in upper case
    without normalising it; on a level that spells one of the five tags, in
    any case and without surrounding space, it answers as the one of
    [TedEd] does. *)
Theorem topic_sentences_feedback_agrees (reqBody : value) (s : string) :
  toStr E (orDefault E (field reqBody "level") (JStr "B2")) = Returns s →
  toUpperCase E s ∈ levels →
  Topic.sentences_feedback E reqBody = TedEd.sentences_feedback E reqBody.
Proof.
  intros Hs Htag.
  assert (normalizeLevel E (field reqBody "level") = Returns (toUpperCase E s)) as Hlvl.
  { unfold normalizeLevel. rewrite Hs. cbn [mbind res_bind].
    rewrite (tag_trimmed _ Htag).
    by rewrite bool_decide_eq_true_2 by by apply allowed_levels. }
  unfold Topic.sentences_feedback, TedEd.sentences_feedback.
  destruct (field reqBody "items") as [[| | | |[|it its]|]|]; try reflexivity.
  exec. destruct (cleanItems E (it :: its)) as [cl|e]; [|reflexivity].
  destruct (length cl =? 0)%nat; [reflexivity|].
  by rewrite Hs, Hlvl.
Qed.

(** X19. A route of [Structured] answers 200, 400 or 500, never 502; an
    output that parses is relayed as it is, whatever it parses to. *)
Theorem structured_relays_parsed_output (path : string)
    (h : value → Response Num * list Event) (reqBody : value) :
  Structured.post E path = Some h →
  status (h reqBody).1 ∈ [200; 400; 500]%nat
  ∧ ∀ req output v,
      EvResponses req ∈ (h reqBody).2 →
      responses_create E req = Returns output →
      JSON_parse E output = Returns v →
      h reqBody = (json 200 v, [EvResponses req]).
Proof.
  intros Hpost.
  destruct (structured_shape E path h reqBody Hpost) as [[Htr Hst]|[req0 ->]].
  - split; [destruct Hst as [-> | ->]; set_solver|].
    intros req output v Hin. rewrite Htr in Hin. by apply elem_of_nil in Hin.
  - unfold structured. cbn [fst snd]. split.
    + destruct (responses_create E req0) as [output|e];
        [destruct (JSON_parse E output)|]; set_solver.
    + intros req output v Hin%list_elem_of_singleton. injection Hin as ->.
      by intros -> ->.
Qed.

(** X20. [/ai/resume-score] of [Structured] joins [newWords]: a
    [newWords] that is present and not an array is answered with a 500, and
    nothing is sent upstream. *)
Theorem structured_resume_score_needs_array (reqBody v : value) :
  field reqBody "newWords" = Some v →
  isArray (Some v) = false →
  status (Structured.resume_score E reqBody).1 = 500%nat
  ∧ (Structured.resume_score E reqBody).2 = [].
Proof.
  intros Hfield Hv. unfold Structured.resume_score.
  assert (Structured.destructured reqBody "writing1" = Returns reqBody) as ->
    by by destruct reqBody.
  exec.
  assert (fieldOr reqBody "newWords" (JArr []) = v) as ->.
  { unfold fieldOr. by rewrite Hfield. }
  destruct v; try discriminate Hv.
  all: crunch; done.
Qed.

End Endpoints.

(** ** The conversation endpoint, case by case *)

Ltac walk :=
  repeat (exec;
          first
            [ match goal with
              | |- context [match ?x with Returns _ => _ | Throws _ => _ end] =>
                  lazymatch x with
                  | chat_completions_create _ _ => fail
                  | _ => destruct x eqn:?
                  end
              end
            | match goal with
              | |- context [if ?b then _ else _] =>
                  lazymatch b with
                  | true => fail
                  | false => fail
                  | context [TedEd.title] => fail
                  | _ => destruct b eqn:?
                  end
              end ]).

Ltac passed :=
  repeat match goal with
         | H : negb _ || negb _ = false |- _ => apply guard_passed in H as [? ?]
         | H : negb _ = false |- _ => apply negb_false_iff in H
         | H : negb _ = true |- _ => apply negb_true_iff in H
         end.

Ltac converse :=
  unfold conversed, tedFields;
  destruct (chat_completions_create _ _) as [?completion|?e]; [|reflexivity];
  destruct (Js.nonEmpty (trimmedContent _)); reflexivity.

Section Cases.
Context {Num : Type} (E : Env Num).

Local Abbreviation value := (JSON Num).

Lemma contextCalls_fetches (pre : list Event) (ev : Event) :
  contextCalls E pre → ev ∈ pre → isCompletion ev = false.
Proof.
  intros [->|(freq & -> & _)] Hin; [by apply elem_of_nil in Hin|].
  by apply list_elem_of_singleton in Hin as ->.
Qed.

Lemma contextCalls_one (u : string) (headers : list (string * string)) (ms : Z) :
  allowListed E u → contextCalls E ([] ++ [EvFetch (mkFetch u headers ms)]).
Proof. intros Hu. right. by eexists. Qed.

(** [/ai/conversation] of [TedEd]: the 400 of its validation, or a 500
    after the context calls, or the completion call and its answer. *)
Lemma teded_conversation_cases (reqBody : value) :
  ((isTruthyOpt E (field reqBody "level") = false
    ∨ isArray (field reqBody "messages") = false)
   ∧ TedEd.conversation E reqBody =
       (json 400 (errorBody "Missing required fields: level, messages"), []))
  ∨ ∃ msgs pre,
      isTruthyOpt E (field reqBody "level") = true
      ∧ field reqBody "messages" = Some (JArr msgs)
      ∧ (((TedEd.conversation E reqBody).2 = pre
          ∧ status (TedEd.conversation E reqBody).1 = 500%nat)
         ∨ ∃ lvl ctx u summary l history,
             normalizeLevel E (field reqBody "level") = Returns lvl
             ∧ mapRes (fun m => r ← getProp m "role"; c ← getProp m "content";
                                chatMessage E r c) msgs = Returns history
             ∧ TedEd.conversation E reqBody =
                 conversed E (tedFields ctx)
                   (fun err => mkResponse 500 (BText (messageOr err "Conversation error")))
                   pre
                   (mkChat (MODEL E) (7 # 10)
                      (mkMessage "system" (TedEd.conversationSystem lvl (levelSpec lvl))
                       :: mkMessage "user" (TedEd.conversationContext ctx u summary l)
                       :: history)))
      ∧ contextCalls E pre.
Proof.
  generalize (eq_refl (TedEd.conversation E reqBody)).
  generalize (TedEd.conversation E reqBody) at 2 3 4 5 6 as out.
  intros out.
  unfold TedEd.conversation, TedEd.extractTedEdContext, TedEd.fetchWithTimeout.
  destruct (field reqBody "messages") as [[| | | |msgs|]|].
  all: walk; passed; intros <-.
  all: try (left; split; [first [by left|by right]|reflexivity]).
  all: right; eexists _, _; split; [done|]; split; [reflexivity|]; split;
    [ first
        [ left; split; [reflexivity|reflexivity]
        | right;
          match goal with
          | |- context [EvChat (mkChat _ _
                 (mkMessage _ (TedEd.conversationSystem ?lvl _)
                  :: mkMessage _ (TedEd.conversationContext ?ctx ?u ?s ?l) :: ?h))] =>
              exists lvl, ctx, u, s, l, h
          end;
          split; [first [reflexivity|eassumption]|]; split; [eassumption|];
          converse ]
    | first [ by left
            | apply contextCalls_one; by apply isAllowedTedEdUrl_allowListed ] ].
Qed.

(** [fetchTedEdContext] returns, after no call or after the fetch of a
    valid lesson URL. *)
Lemma fetchTedEdContext_calls (lessonUrl : string) (tr : list Event) :
  ∃ ted tr',
    Lesson.fetchTedEdContext E lessonUrl tr = (Returns ted, tr')
    ∧ (tr' = tr
       ∨ Lesson.isValidTedEdLessonUrl E (Js.trim lessonUrl) = true
         ∧ ∃ headers ms, tr' = tr ++ [EvFetch (mkFetch (Js.trim lessonUrl) headers ms)]).
Proof.
  unfold Lesson.fetchTedEdContext.
  destruct (negb _ || negb _) eqn:Hguard; [by eexists _, _; split; [|left]|].
  apply guard_passed in Hguard as [_ Hvalid].
  exec. destruct (fetch E _) as [resp|e];
    [|by eexists _, _; split; [|right; split; [|eexists _, _]]].
  destruct (resp_text resp) as [html|e];
    [|by eexists _, _; split; [|right; split; [|eexists _, _]]].
  destruct (cheerio_load E html) as [dom|e];
    [|by eexists _, _; split; [|right; split; [|eexists _, _]]].
  destruct (fold_left _ _ _) as [ldTitle ldDesc].
  by eexists _, _; split; [|right; split; [|eexists _, _]].
Qed.

(** [/ai/conversation] of [Lesson], likewise; the level is normalised
    before [messages] is looked at. *)
Lemma lesson_conversation_cases (reqBody : value) :
  ((∃ lvl, normalizeLevel E (field reqBody "level") = Returns lvl)
   ∧ isArray (Some (fieldOr reqBody "messages" (JArr []))) = false
   ∧ Lesson.conversation E reqBody =
       (json 400 (errorBody "Invalid 'messages' array."), []))
  ∨ ∃ pre,
      (((Lesson.conversation E reqBody).2 = pre
        ∧ status (Lesson.conversation E reqBody).1 = 500%nat)
       ∨ ∃ lvl msgs ted summary cleaned history,
           normalizeLevel E (field reqBody "level") = Returns lvl
           ∧ fieldOr reqBody "messages" (JArr []) = JArr msgs
           ∧ mapRes (safeMessage E) msgs = Returns history
           ∧ Lesson.conversation E reqBody =
               conversed E [("ted", Lesson.tedValue ted)]
                 (fun err => json 500 (errorBody (messageOr err "Conversation error")))
                 pre
                 (mkChat (MODEL E) (6 # 10)
                    (mkMessage "system" (Lesson.conversationSystem lvl (levelSpec lvl))
                     :: mkMessage "user"
                          (Lesson.conversationContext ted summary
                             (Lesson.uniqueVocab E ∅ cleaned))
                     :: history)))
      ∧ contextCalls E pre.
Proof.
  generalize (eq_refl (Lesson.conversation E reqBody)).
  generalize (Lesson.conversation E reqBody) at 2 3 4 5 6 as out.
  intros out.
  unfold Lesson.conversation, safeMessage.
  destruct (fieldOr reqBody "messages" (JArr [])) as [| | | |msgs|].
  all: walk.
  all: try match goal with
           | |- context [Lesson.fetchTedEdContext ?E ?u ?tr] =>
               destruct (fetchTedEdContext_calls u tr)
                 as (?ted & ?pre & -> & [->|[? (? & ? & ->)]])
           end.
  all: walk; intros <-.
  all: try (left; split; [by eexists|]; split; reflexivity).
  all: right; eexists; split;
    [ first
        [ left; split; [reflexivity|reflexivity]
        | right;
          match goal with
          | |- context [EvChat (mkChat _ _
                 (mkMessage _ (Lesson.conversationSystem ?lvl _)
                  :: mkMessage _ (Lesson.conversationContext ?ted ?s
                                    (Lesson.uniqueVocab E _ ?cl)) :: ?h))] =>
              eexists lvl, _, ted, s, cl, h
          end;
          split; [first [reflexivity|eassumption]|]; split; [reflexivity|];
          split; [eassumption|];
          converse ]
    | first [ by left
            | apply contextCalls_one; by apply isValidTedEdLessonUrl_allowListed ] ].
Qed.

(** [/ai/conversation] of [Topic]: no context call. *)
Lemma topic_conversation_cases (reqBody : value) :
  ((isTruthyOpt E (field reqBody "level") = false
    ∨ isArray (field reqBody "messages") = false)
   ∧ Topic.conversation E reqBody =
       (json 400 (errorBody "Missing required fields: level, messages"), []))
  ∨ ∃ msgs,
      isTruthyOpt E (field reqBody "level") = true
      ∧ field reqBody "messages" = Some (JArr msgs)
      ∧ (((Topic.conversation E reqBody).2 = []
          ∧ status (Topic.conversation E reqBody).1 = 500%nat)
         ∨ ∃ level_s summary vocab history,
             toStr E (orDefault E (field reqBody "level") (JStr "B2")) = Returns level_s
             ∧ Topic.trimmedSummary E (field reqBody "topicResume") = Returns summary
             ∧ mapRes (fun m => r ← getProp m "role"; c ← getProp m "content";
                                chatMessage E r c) msgs = Returns history
             ∧ Topic.conversation E reqBody =
                 conversed E []
                   (fun err => mkResponse 500 (BText (messageOr err "Conversation error")))
                   []
                   (mkChat (MODEL E) (7 # 10)
                      (mkMessage "system"
                         (TedEd.conversationSystem (Js.trim (toUpperCase E level_s))
                            (Topic.levelSpec (Js.trim (toUpperCase E level_s))))
                       :: mkMessage "user" (Topic.conversationContext summary vocab)
                       :: history))).
Proof.
  generalize (eq_refl (Topic.conversation E reqBody)).
  generalize (Topic.conversation E reqBody) at 2 3 4 5 6 as out.
  intros out.
  unfold Topic.conversation.
  destruct (field reqBody "messages") as [[| | | |msgs|]|].
  all: walk; passed; intros <-.
  all: try (left; split; [first [by left|by right]|reflexivity]).
  all: right; eexists; split; [done|]; split; [reflexivity|];
    first
      [ left; split; [reflexivity|reflexivity]
      | right;
        match goal with
        | |- context [EvChat (mkChat _ _
               (mkMessage _ (TedEd.conversationSystem (Js.trim (toUpperCase E ?a)) _)
                :: mkMessage _ (Topic.conversationContext ?s ?v) :: ?h))] =>
            exists a, s, v, h
        end;
        split; [first [reflexivity|eassumption]|];
        split; [first [reflexivity|eassumption]|];
        split; [eassumption|];
        converse ].
Qed.

End Cases.

(** ** The conversation endpoint: validation, messages, reply *)

Section Talk.
Context {Num : Type} (E : Env Num).

Local Abbreviation value := (JSON Num).

Lemma conversed_status extra onError pre req :
  (∀ e, status (onError e) = 500%nat) →
  status (conversed E extra onError pre req).1 ≠ 400%nat.
Proof.
  intros Herr. unfold conversed. cbn [fst].
  destruct (chat_completions_create E req); [destruct (Js.nonEmpty _)|rewrite Herr];
    discriminate.
Qed.

(** X21. [/ai/conversation] answers 400 exactly when its validation
    fails: in [TedEd] and [Topic] when [level] is falsy or [messages] is not
    an array; in [Lesson], where both are optional, when the level has been
    normalised and a [messages] that is present is not an array. *)
Theorem conversation_validation (reqBody : value) :
  (status (TedEd.conversation E reqBody).1 = 400%nat
   ↔ isTruthyOpt E (field reqBody "level") = false
     ∨ isArray (field reqBody "messages") = false)
  ∧ (status (Topic.conversation E reqBody).1 = 400%nat
     ↔ isTruthyOpt E (field reqBody "level") = false
       ∨ isArray (field reqBody "messages") = false)
  ∧ (status (Lesson.conversation E reqBody).1 = 400%nat
     ↔ (∃ lvl, normalizeLevel E (field reqBody "level") = Returns lvl)
       ∧ isArray (Some (fieldOr reqBody "messages" (JArr []))) = false).
Proof.
  split_and!.
  - destruct (teded_conversation_cases E reqBody)
      as [[Hinvalid ->]|(msgs & pre & Hlevel & Hmsgs & Hout & _)]; [done|].
    split.
    + intros H400. exfalso.
      destruct Hout as [[_ Hst]|(? & ? & ? & ? & ? & ? & _ & _ & Heq)].
      * rewrite Hst in H400. discriminate.
      * rewrite Heq in H400. by apply conversed_status in H400.
    + rewrite Hlevel, Hmsgs. by intros [?|?].
  - destruct (topic_conversation_cases E reqBody)
      as [[Hinvalid ->]|(msgs & Hlevel & Hmsgs & Hout)]; [done|].
    split.
    + intros H400. exfalso.
      destruct Hout as [[_ Hst]|(? & ? & ? & ? & _ & _ & _ & Heq)].
      * rewrite Hst in H400. discriminate.
      * rewrite Heq in H400. by apply conversed_status in H400.
    + rewrite Hlevel, Hmsgs. by intros [?|?].
  - destruct (lesson_conversation_cases E reqBody)
      as [(Hlvl & Hmsgs & ->)|(pre & Hout & _)]; [done|].
    split.
    + intros H400. exfalso.
      destruct Hout as [[_ Hst]|(? & ? & ? & ? & ? & ? & _ & _ & _ & Heq)].
      * rewrite Hst in H400. discriminate.
      * rewrite Heq in H400. by apply conversed_status in H400.
    + intros [[lvl Hlvl] Hmsgs]. exfalso.
      destruct Hout as [[Htr Hst]|(? & ? & ? & ? & ? & ? & _ & Hm & _ & _)].
      * revert Hst. unfold Lesson.conversation. rewrite Hlvl.
        destruct (fieldOr reqBody "messages" (JArr [])); try discriminate Hmsgs; done.
      * by rewrite Hm in Hmsgs.
Qed.

Lemma getProp_returns (m : value) (k : string) (v : option value) :
  getProp m k = Returns v → v = getPropOpt (Some m) k.
Proof. destruct m; simpl; congruence. Qed.

Lemma readMessage_safe (m : value) (msg : Message) :
  (r ← getProp m "role"; c ← getProp m "content"; chatMessage E r c) = Returns msg →
  safeMessage E m = Returns msg.
Proof.
  unfold safeMessage.
  destruct (getProp m "role") as [r|] eqn:Hr; simpl; [|done].
  destruct (getProp m "content") as [c|] eqn:Hc; simpl; [|done].
  by rewrite (getProp_returns _ _ _ Hr), (getProp_returns _ _ _ Hc).
Qed.

Lemma safeMessage_role (m : value) (msg : Message) :
  safeMessage E m = Returns msg → role msg = "user" ∨ role msg = "assistant".
Proof.
  unfold safeMessage, chatMessage.
  destruct (strOrEmpty E (getPropOpt (Some m) "role")) as [rs|]; simpl; [|done].
  destruct (strOrEmpty E _) as [cs|]; simpl; [|done].
  intros [= <-]. simpl. destruct (String.eqb _ _); [by right|by left].
Qed.

Lemma history_roles (msgs : list value) (history : list Message) :
  Forall2 (fun m msg => safeMessage E m = Returns msg) msgs history →
  Forall (fun msg => role msg = "user" ∨ role msg = "assistant") history.
Proof.
  induction 1 as [|m msg msgs history Hm _ IH]; constructor; [|done].
  by apply (safeMessage_role m).
Qed.

Lemma chat_of_conversed extra onError pre req req' :
  contextCalls E pre →
  EvChat req' ∈ (conversed E extra onError pre req).2 → req' = req.
Proof.
  unfold conversed. cbn [snd].
  intros Hpre [Hin|Hin%list_elem_of_singleton]%elem_of_app.
  - by apply (contextCalls_fetches E pre) in Hin.
  - by injection Hin.
Qed.

(** X22. The completion request of [/ai/conversation] is the system
    prompt, the context prompt under the role [user], then the messages of
    the request, each converted, in order: the role of a converted message
    is [user] or [assistant], so that no message of the request is sent
    under the role [system]; the model is [MODEL]. *)
Theorem conversation_roles (reqBody : value) (req : ChatRequest) :
  EvChat req ∈ (TedEd.conversation E reqBody).2
  ∨ EvChat req ∈ (Lesson.conversation E reqBody).2
  ∨ EvChat req ∈ (Topic.conversation E reqBody).2 →
  ∃ sys ctx history,
    chat_messages req = mkMessage "system" sys :: mkMessage "user" ctx :: history
    ∧ Forall2 (fun m msg => safeMessage E m = Returns msg)
        (requestMessages reqBody) history
    ∧ Forall (fun msg => role msg = "user" ∨ role msg = "assistant") history
    ∧ chat_model req = MODEL E.
Proof.
  assert (∀ sys ctx history temp,
            Forall2 (fun m msg => safeMessage E m = Returns msg)
              (requestMessages reqBody) history →
            req = mkChat (MODEL E) temp
                    (mkMessage "system" sys :: mkMessage "user" ctx :: history) →
            ∃ sys ctx history,
              chat_messages req = mkMessage "system" sys :: mkMessage "user" ctx :: history
              ∧ Forall2 (fun m msg => safeMessage E m = Returns msg)
                  (requestMessages reqBody) history
              ∧ Forall (fun msg => role msg = "user" ∨ role msg = "assistant") history
              ∧ chat_model req = MODEL E) as Hgoal.
  { intros sys ctx history temp Hall ->. exists sys, ctx, history.
    split_and!; [done|done|by eapply history_roles|done]. }
  intros [Hin|[Hin|Hin]].
  - destruct (teded_conversation_cases E reqBody)
      as [[_ Heq]|(msgs & pre & _ & Hmsgs & Hout & Hpre)].
    { rewrite Heq in Hin. by apply elem_of_nil in Hin. }
    destruct Hout as [[Htr Hst]|(lvl & ctx & u & summary & l & history & _ & Hhist & Heq)].
    + rewrite Htr in Hin. by apply (contextCalls_fetches E pre) in Hin.
    + rewrite Heq in Hin. apply chat_of_conversed in Hin; [|done].
      eapply Hgoal; [|done]. unfold requestMessages. rewrite Hmsgs.
      apply mapRes_Forall2 in Hhist. eapply Forall2_impl; [done|].
      intros m msg. apply readMessage_safe.
  - destruct (lesson_conversation_cases E reqBody)
      as [(_ & _ & Heq)|(pre & Hout & Hpre)].
    { rewrite Heq in Hin. by apply elem_of_nil in Hin. }
    destruct Hout
      as [[Htr Hst]|(lvl & msgs & ted & summary & cl & history & _ & Hmsgs & Hhist & Heq)].
    + rewrite Htr in Hin. by apply (contextCalls_fetches E pre) in Hin.
    + rewrite Heq in Hin. apply chat_of_conversed in Hin; [|done].
      eapply Hgoal; [|done].
      assert (requestMessages reqBody = msgs) as ->.
      { revert Hmsgs. unfold requestMessages, fieldOr.
        destruct (field reqBody "messages") as [v|]; simpl; by intros [= ->]. }
      by apply mapRes_Forall2.
  - destruct (topic_conversation_cases E reqBody)
      as [[_ Heq]|(msgs & _ & Hmsgs & Hout)].
    { rewrite Heq in Hin. by apply elem_of_nil in Hin. }
    destruct Hout as [[Htr Hst]|(level_s & summary & vocab & history & _ & _ & Hhist & Heq)].
    + rewrite Htr in Hin. by apply elem_of_nil in Hin.
    + rewrite Heq in Hin. apply chat_of_conversed in Hin; [|by left].
      eapply Hgoal; [|done]. unfold requestMessages. rewrite Hmsgs.
      apply mapRes_Forall2 in Hhist. eapply Forall2_impl; [done|].
      intros m msg. apply readMessage_safe.
Qed.

Lemma talk_cases (h : value → Response Num * list Event) (reqBody : value) :
  h = TedEd.conversation E ∨ h = Lesson.conversation E ∨ h = Topic.conversation E →
  (status (h reqBody).1 = 400%nat ∨ status (h reqBody).1 = 500%nat)
  ∨ ∃ extra onError pre req,
      (∀ e, status (onError e) = 500%nat)
      ∧ h reqBody = conversed E extra onError pre req.
Proof.
  intros [->|[->| ->]].
  - destruct (teded_conversation_cases E reqBody)
      as [[_ ->]|(msgs & pre & _ & _ & [[_ Hst]|(? & ? & ? & ? & ? & ? & _ & _ & Heq)] & _)].
    + left. by left.
    + left. by right.
    + right. eexists _, _, _, _. split; [|exact Heq]. done.
  - destruct (lesson_conversation_cases E reqBody)
      as [(_ & _ & ->)|(pre & [[_ Hst]|(? & ? & ? & ? & ? & ? & _ & _ & _ & Heq)] & _)].
    + left. by left.
    + left. by right.
    + right. eexists _, _, _, _. split; [|exact Heq]. done.
  - destruct (topic_conversation_cases E reqBody)
      as [[_ ->]|(msgs & _ & _ & [[_ Hst]|(? & ? & ? & ? & _ & _ & _ & Heq)])].
    + left. by left.
    + left. by right.
    + right. eexists _, _, _, _. split; [|exact Heq]. done.
Qed.

(** X23. A 200 of [/ai/conversation] carries the trimmed text of the
    completion that its last call returned, and that text is not empty; a
    502 is the answer to a completion whose text is missing or blank. *)
Theorem conversation_reply (h : value → Response Num * list Event) (reqBody : value) :
  h = TedEd.conversation E ∨ h = Lesson.conversation E ∨ h = Topic.conversation E →
  (status (h reqBody).1 = 200%nat →
   ∃ req text extra,
     last (h reqBody).2 = Some (EvChat req)
     ∧ chat_completions_create E req = Returns (Some text)
     ∧ Js.trim text ≠ ""
     ∧ (h reqBody).1 = json 200 (JObj (("reply", JStr (Js.trim text)) :: extra)))
  ∧ (status (h reqBody).1 = 502%nat →
     ∃ req completion,
       last (h reqBody).2 = Some (EvChat req)
       ∧ chat_completions_create E req = Returns completion
       ∧ trimmedContent completion = ""
       ∧ (h reqBody).1 = json 502 (errorBody "Empty reply from model")).
Proof.
  intros Hh.
  destruct (talk_cases h reqBody Hh)
    as [[Hst|Hst]|(extra & onError & pre & req & Herr & ->)].
  1,2: rewrite Hst; split; discriminate.
  unfold conversed. cbn [fst snd]. rewrite last_snoc.
  destruct (chat_completions_create E req) as [completion|e] eqn:Hchat.
  - destruct completion as [text|]; cbn [trimmedContent Js.nonEmpty].
    + destruct (Js.trim text) as [|c t] eqn:Htext; cbn [Js.nonEmpty].
      * split; [discriminate|]. intros _. exists req, (Some text).
        by split_and!.
      * split; [|discriminate]. intros _. exists req, text, extra.
        split_and!; try done; by rewrite Htext.
    + split; [discriminate|]. intros _. by exists req, None.
  - rewrite Herr. split; discriminate.
Qed.

(** X24. [/ai/conversation] of [Topic] calls [trim] on [topicResume]: a
    summary that is truthy and not a string ends the request before the
    completion call, with a 400 or a 500. *)
Theorem topic_summary_must_be_string (reqBody v : value) :
  field reqBody "topicResume" = Some v →
  isTruthy E v = true →
  typeofString (Some v) = false →
  refused (Topic.conversation E reqBody).
Proof.
  intros Hfield Htruthy Hv.
  destruct (topic_conversation_cases E reqBody)
    as [[_ ->]|(msgs & _ & _ & [[Htr Hst]|(? & ? & ? & ? & _ & Hsum & _)])].
  - split; [done|by left].
  - split; [done|by right].
  - exfalso. revert Hsum. rewrite Hfield. unfold Topic.trimmedSummary, orDefault, orElse.
    unfold isTruthy in Htruthy. rewrite Htruthy. by destruct v.
Qed.

End Talk.

(** ** The system prompt *)

Ltac sent Hin :=
  simpl in Hin;
  first [by apply elem_of_nil in Hin|apply list_elem_of_singleton in Hin].

Section Prompts.
Context {Num : Type} (E : Env Num).

Local Abbreviation value := (JSON Num).

Lemma normalizeLevel_fieldOr (reqBody : value) :
  normalizeLevel E (Some (fieldOr reqBody "level" (JStr "B2")))
    = normalizeLevel E (field reqBody "level").
Proof. unfold fieldOr. by destruct (field reqBody "level"). Qed.

Lemma normalizeLevel_orDefault (level : option value) :
  normalizeLevel E (Some (orDefault E level (JStr "B2"))) = normalizeLevel E level.
Proof.
  unfold normalizeLevel, orDefault, orElse.
  destruct level as [v|]; [|done]. by destruct (truthy _ v) eqn:Hv; rewrite ?Hv.
Qed.

Lemma teded_writing_feedback_prompt : levelDecides E (TedEd.writing_feedback E).
Proof.
  eexists. intros reqBody req. unfold TedEd.writing_feedback.
  rewrite normalizeLevel_fieldOr.
  crunch; intros Hin; sent Hin.
  all: injection Hin as ->; eexists; split; [reflexivity|];
    split; [by eapply normalizeLevel_range|]; reflexivity.
Qed.

Lemma teded_sentences_feedback_prompt : levelDecides E (TedEd.sentences_feedback E).
Proof.
  exists TedEd.sentencesSystem. intros reqBody req. unfold TedEd.sentences_feedback.
  destruct (field reqBody "items") as [[| | | |[|it its]|]|].
  all: crunch; intros Hin; sent Hin.
  all: injection Hin as ->; eexists; split; [reflexivity|];
    split; [by eapply normalizeLevel_range|]; reflexivity.
Qed.

Lemma teded_resume_score_prompt : levelDecides E (TedEd.resume_score E).
Proof.
  eexists. intros reqBody req. unfold TedEd.resume_score.
  rewrite normalizeLevel_orDefault.
  crunch; intros Hin; sent Hin.
  all: injection Hin as ->; eexists; split; [reflexivity|];
    split; [by eapply normalizeLevel_range|]; reflexivity.
Qed.

Lemma teded_conversation_prompt : levelDecides E (TedEd.conversation E).
Proof.
  exists (fun lvl => TedEd.conversationSystem lvl (levelSpec lvl)). intros reqBody req Hin.
  destruct (teded_conversation_cases E reqBody)
    as [[_ Heq]|(msgs & pre & _ & _ & Hout & Hpre)].
  { rewrite Heq in Hin. by apply elem_of_nil in Hin. }
  destruct Hout as [[Htr Hst]|(lvl & ctx & u & summary & l & history & Hlvl & _ & Heq)].
  - rewrite Htr in Hin. by apply (contextCalls_fetches E pre) in Hin.
  - rewrite Heq in Hin. apply chat_of_conversed in Hin as ->; [|done].
    exists lvl. split_and!; [done|by eapply normalizeLevel_range|done].
Qed.

Lemma lesson_conversation_prompt : levelDecides E (Lesson.conversation E).
Proof.
  exists (fun lvl => Lesson.conversationSystem lvl (levelSpec lvl)). intros reqBody req Hin.
  destruct (lesson_conversation_cases E reqBody)
    as [(_ & _ & Heq)|(pre & Hout & Hpre)].
  { rewrite Heq in Hin. by apply elem_of_nil in Hin. }
  destruct Hout
    as [[Htr Hst]|(lvl & msgs & ted & summary & cl & history & Hlvl & _ & _ & Heq)].
  - rewrite Htr in Hin. by apply (contextCalls_fetches E pre) in Hin.
  - rewrite Heq in Hin. apply chat_of_conversed in Hin as ->; [|done].
    exists lvl. split_and!; [done|by eapply normalizeLevel_range|done].
Qed.

(** X25. In the handlers that normalise the level
    ([/ai/writing-feedback], [/ai/sentences-feedback], [/ai/resume-score]
    and [/ai/conversation] of [TedEd], [/ai/conversation] of [Lesson]), the
    first message of the completion request is a system message fixed by
    the normalised level, one of the five tags: no other part of the body
    reaches it. *)
Theorem system_prompt_by_level (h : value → Response Num * list Event) :
  h = TedEd.writing_feedback E
  ∨ h = TedEd.sentences_feedback E
  ∨ h = TedEd.resume_score E
  ∨ h = TedEd.conversation E
  ∨ h = Lesson.conversation E →
  levelDecides E h.
Proof.
  intros [->|[->|[->|[->| ->]]]].
  - apply teded_writing_feedback_prompt.
  - apply teded_sentences_feedback_prompt.
  - apply teded_resume_score_prompt.
  - apply teded_conversation_prompt.
  - apply lesson_conversation_prompt.
Qed.

End Prompts.

(** ** Every route of every revision *)

Section Outcomes.
Context {Num : Type} (E : Env Num).

Local Abbreviation value := (JSON Num).

Lemma relay_outcome (out : Response Num * list Event) read accept msg onError :
  (∀ e, status (onError e) = 500%nat) →
  refused out ∨ (∃ req, out = relayed E read accept msg onError req) →
  outcome E out.
Proof.
  intros Herr [Href|[req Hreq]]; [by apply Refused|by eapply Relayed].
Qed.

Lemma structured_outcome (out : Response Num * list Event) :
  refused out ∨ (∃ req, out = structured E req) → outcome E out.
Proof. intros [Href|[req Hreq]]; [by apply Refused|by eapply Answered]. Qed.

Lemma teded_conversation_outcome (reqBody : value) :
  outcome E (TedEd.conversation E reqBody).
Proof.
  destruct (teded_conversation_cases E reqBody)
    as [[_ ->]|(msgs & pre & _ & _ & Hout & Hcalls)].
  { apply Refused. split; [done|by left]. }
  destruct Hout as [[Htr Hst]|(lvl & ctx & u & summary & l & history & _ & _ & Heq)].
  - by eapply (Failed E _ pre).
  - eapply Conversed; [exact Hcalls| |exact Heq]. done.
Qed.

Lemma lesson_conversation_outcome (reqBody : value) :
  outcome E (Lesson.conversation E reqBody).
Proof.
  destruct (lesson_conversation_cases E reqBody)
    as [(_ & _ & ->)|(pre & Hout & Hcalls)].
  { apply Refused. split; [done|by left]. }
  destruct Hout as [[Htr Hst]|(lvl & msgs & ted & summary & cl & history & _ & _ & _ & Heq)].
  - by eapply (Failed E _ pre).
  - eapply Conversed; [exact Hcalls| |exact Heq]. done.
Qed.

Lemma topic_conversation_outcome (reqBody : value) :
  outcome E (Topic.conversation E reqBody).
Proof.
  destruct (topic_conversation_cases E reqBody)
    as [[_ ->]|(msgs & _ & _ & Hout)].
  { apply Refused. split; [done|by left]. }
  destruct Hout as [[Htr Hst]|(level_s & summary & vocab & history & _ & _ & _ & Heq)].
  - apply Refused. split; [done|by right].
  - eapply Conversed; [by left| |done]. done.
Qed.

(** Whatever the route, the request ends in one of the five ways. *)
Lemma routed_outcome (path : string) (h : value → Response Num * list Event)
    (reqBody : value) :
  routed E path h → outcome E (h reqBody).
Proof.
  unfold routed, Baseline.post, TedEd.post, Lesson.post, Topic.post, Structured.post.
  intros [H|[H|[H|[H|H]]]]; repeat case_match; try discriminate H; injection H as <-.
  all: lazymatch goal with
       | |- outcome _ (TedEd.conversation _ _) => apply teded_conversation_outcome
       | |- outcome _ (Lesson.conversation _ _) => apply lesson_conversation_outcome
       | |- outcome _ (Topic.conversation _ _) => apply topic_conversation_outcome
       | |- outcome _ (Baseline.writing_feedback _ _) =>
           eapply relay_outcome; [|apply baseline_writing_feedback_shape]
       | |- outcome _ (Baseline.vocabulary _ _) =>
           eapply relay_outcome; [|apply baseline_vocabulary_shape]
       | |- outcome _ (Baseline.sentences_feedback _ _) =>
           eapply relay_outcome; [|apply baseline_sentences_feedback_shape]
       | |- outcome _ (Baseline.resume_score _ _) =>
           eapply relay_outcome; [|apply baseline_resume_score_shape]
       | |- outcome _ (TedEd.writing_feedback _ _) =>
           eapply relay_outcome; [|apply teded_writing_feedback_shape]
       | |- outcome _ (TedEd.vocabulary _ _) =>
           eapply relay_outcome; [|apply teded_vocabulary_shape]
       | |- outcome _ (TedEd.sentences_feedback _ _) =>
           eapply relay_outcome; [|apply teded_sentences_feedback_shape]
       | |- outcome _ (TedEd.resume_score _ _) =>
           eapply relay_outcome; [|apply teded_resume_score_shape]
       | |- outcome _ (Topic.sentences_feedback _ _) =>
           eapply relay_outcome; [|apply topic_sentences_feedback_shape]
       | |- outcome _ (Structured.writing_feedback _ _) =>
           apply structured_outcome, structured_writing_feedback_shape
       | |- outcome _ (Structured.vocabulary _ _) =>
           apply structured_outcome, structured_vocabulary_shape
       | |- outcome _ (Structured.resume_score _ _) =>
           apply structured_outcome, structured_resume_score_shape
       end.
  all: done.
Qed.

Lemma contextCalls_no_completion (pre : list Event) :
  contextCalls E pre → List.filter isCompletion pre = [].
Proof. by intros [->|(freq & -> & _)]. Qed.

Lemma filter_isCompletion_app (pre : list Event) (ev : Event) :
  List.filter isCompletion pre = [] → isCompletion ev = true →
  List.filter isCompletion (pre ++ [ev]) = [ev].
Proof. intros Hpre Hev. rewrite List.filter_app, Hpre. simpl. by rewrite Hev. Qed.

(** X26. Every route of every revision answers with one of four
    statuses; a 400 is answered before any call; a handler calls a [create]
    method of the client at most once in a request; and a 200 or a 502 is
    only answered after that call, which is then the last call made. *)
Theorem routes_answer_in_four_ways (path : string)
    (h : value → Response Num * list Event) (reqBody : value) :
  routed E path h →
  status (h reqBody).1 ∈ [200; 400; 500; 502]%nat
  ∧ (status (h reqBody).1 = 400%nat → (h reqBody).2 = [])
  ∧ (length (List.filter isCompletion (h reqBody).2) ≤ 1)%nat
  ∧ (status (h reqBody).1 = 200%nat ∨ status (h reqBody).1 = 502%nat →
     ∃ pre ev, (h reqBody).2 = pre ++ [ev]
               ∧ isCompletion ev = true
               ∧ contextCalls E pre).
Proof.
  intros Hrouted.
  destruct (routed_outcome path h reqBody Hrouted)
    as [[-> Hst]|pre Hpre -> Hst|read accept msg onError req Herr ->
        |extra onError pre req Hpre Herr ->|req ->].
  - split_and!.
    + destruct Hst as [-> | ->]; set_solver.
    + done.
    + simpl. lia.
    + intros [H|H]; destruct Hst as [Hst|Hst]; rewrite Hst in H; discriminate.
  - rewrite Hst. split_and!.
    + set_solver.
    + discriminate.
    + rewrite contextCalls_no_completion by done. simpl. lia.
    + intros [H|H]; discriminate.
  - unfold relayed. cbn [fst snd].
    destruct (chat_completions_create E req) as [completion|e];
      [destruct (accept _)|rewrite Herr].
    all: split_and!;
      [set_solver|discriminate|simpl; lia
      |intros _ + intros [H|H]; try discriminate H].
    all: by exists [], (EvChat req); split_and!; [| |left].
  - unfold conversed. cbn [fst snd].
    rewrite (filter_isCompletion_app pre (EvChat req))
      by (done || by apply contextCalls_no_completion).
    destruct (chat_completions_create E req) as [completion|e];
      [destruct (Js.nonEmpty _)|rewrite Herr].
    all: split_and!;
      [set_solver|discriminate|simpl; lia
      |intros _ + intros [H|H]; try discriminate H].
    all: by exists pre, (EvChat req).
  - unfold structured. cbn [fst snd].
    destruct (responses_create E req) as [output|e];
      [destruct (JSON_parse E output)|].
    all: split_and!;
      [set_solver|discriminate|simpl; lia
      |intros _ + intros [H|H]; try discriminate H].
    all: by exists [], (EvResponses req); split_and!; [| |left].
Qed.

(** X27. Whatever the route and the request, a fetch that is made is the
    first call of the request and goes to an allow-listed URL: [https] and
    the TED-Ed host. *)
Theorem every_fetch_is_allow_listed (path : string)
    (h : value → Response Num * list Event) (reqBody : value) (freq : FetchRequest) :
  routed E path h →
  EvFetch freq ∈ (h reqBody).2 →
  allowListed E (fetch_url freq) ∧ (h reqBody).2 !! 0%nat = Some (EvFetch freq).
Proof.
  intros Hrouted.
  assert (∀ pre, contextCalls E pre → EvFetch freq ∈ pre →
                 allowListed E (fetch_url freq) ∧ pre = [EvFetch freq]) as Hctx.
  { intros pre [->|(f & -> & Hf)] Hin; [by apply elem_of_nil in Hin|].
    apply list_elem_of_singleton in Hin. by injection Hin as ->. }
  destruct (routed_outcome path h reqBody Hrouted)
    as [[-> Hst]|pre Hpre -> Hst|read accept msg onError req Herr ->
        |extra onError pre req Hpre Herr ->|req ->]; cbn [fst snd].
  - intros Hin. by apply elem_of_nil in Hin.
  - intros Hin. by destruct (Hctx pre Hpre Hin) as [? ->].
  - intros Hin%list_elem_of_singleton. discriminate Hin.
  - intros [Hin|Hin%list_elem_of_singleton]%elem_of_app; [|discriminate Hin].
    by destruct (Hctx pre Hpre Hin) as [? ->].
  - intros Hin%list_elem_of_singleton. discriminate Hin.
Qed.

(** X28. Whatever the route, a completion service that throws is
    answered with a 500: never with a 502, never with a 200. *)
Theorem upstream_failure_is_500 (path : string)
    (h : value → Response Num * list Event) (reqBody : value) (e : JsError) :
  routed E path h →
  (∀ req, EvChat req ∈ (h reqBody).2 → chat_completions_create E req = Throws e →
          status (h reqBody).1 = 500%nat)
  ∧ (∀ req, EvResponses req ∈ (h reqBody).2 → responses_create E req = Throws e →
            status (h reqBody).1 = 500%nat).
Proof.
  intros Hrouted.
  destruct (routed_outcome path h reqBody Hrouted)
    as [[-> Hst]|pre Hpre -> Hst|read accept msg onError req Herr ->
        |extra onError pre req Hpre Herr ->|req ->]; cbn [fst snd].
  - split; intros req0 Hin; by apply elem_of_nil in Hin.
  - by split.
  - split; intros req0 Hin%list_elem_of_singleton; [|discriminate Hin].
    injection Hin as ->. intros Hthrows. unfold relayed. cbn [fst]. by rewrite Hthrows.
  - split; intros req0 [Hin|Hin%list_elem_of_singleton]%elem_of_app.
    + by apply (contextCalls_fetches E pre) in Hin.
    + injection Hin as ->. intros Hthrows. unfold conversed. cbn [fst]. by rewrite Hthrows.
    + by apply (contextCalls_fetches E pre) in Hin.
    + discriminate Hin.
  - split; intros req0 Hin%list_elem_of_singleton; [discriminate Hin|].
    injection Hin as ->. intros Hthrows. unfold structured. cbn [fst]. by rewrite Hthrows.
Qed.

End Outcomes.

(** ** Closed examples *)

(** C9 at the reply [null] of [/ai/writing-feedback]. *)
Lemma falsy_reply_is_502_witness :
  status (Baseline.writing_feedback (Sample.chatting "null") Sample.greeting).1 = 502%nat
  ∧ carriesRaw (Baseline.writing_feedback (Sample.chatting "null") Sample.greeting).1
      "null".
Proof.
  eapply (proj1 (falsy_reply_is_502 (Sample.chatting "null") "/ai/writing-feedback"
                   (Baseline.writing_feedback (Sample.chatting "null"))
                   Sample.greeting _ _) _ (Some "null") JNull).
  - apply list_elem_of_singleton. reflexivity.
  - reflexivity.
  - reflexivity.
  - reflexivity.
  Unshelve.
  + unfold jsonEndpoints. apply elem_of_cons. by left.
  + left. reflexivity.
Defined.

(** C9 as stated fails: the reply [ null] parses to [null], and the 502
    carries [null], the text once trimmed. *)
Lemma falsy_reply_counterexample :
  JSON_parse (Sample.chatting " null") " null" = Returns JNull
  ∧ (Baseline.writing_feedback (Sample.chatting " null") Sample.greeting).1
      = json 502 (rawBody "Model did not return valid JSON." "null")
  ∧ ¬ carriesRaw (Baseline.writing_feedback (Sample.chatting " null") Sample.greeting).1
        " null".
Proof.
  split_and!; [reflexivity..|].
  intros [msg Hmsg]. vm_compute in Hmsg. discriminate Hmsg.
Qed.


(** C5 as stated fails: one word asked, an empty array answered, and the
    200 carries the empty array. *)
Lemma vocabulary_length_counterexample :
  ∃ out cleanWords,
    status (TedEd.vocabulary (Sample.chatting "[]") Sample.oneWord).1 = 200%nat
    ∧ body (TedEd.vocabulary (Sample.chatting "[]") Sample.oneWord).1 = BJson (JArr out)
    ∧ TedEd.cleanStrings (Sample.chatting "[]") [JStr "cat"] = Returns cleanWords
    ∧ length out ≠ length cleanWords.
Proof. exists [], ["cat"]. split_and!; [reflexivity..|discriminate]. Qed.

(** C5, as amended, at a reply of one item without [translations]. *)
Lemma vocabulary_200_witness :
  ∃ out,
    body (TedEd.vocabulary (Sample.chatting Sample.catReply) Sample.oneWord).1
      = BJson (JArr out)
    ∧ length out = 1%nat
    ∧ (∀ o, o ∈ out → hasTranslations o).
Proof.
  destruct (vocabulary_200 (Sample.chatting Sample.catReply) Sample.oneWord)
    as (req & completion & items & out & Htr & Hreply & Hparse & Hbody & _ & Hlen & Hall).
  { reflexivity. }
  exists out. split; [exact Hbody|]. split; [|exact Hall].
  rewrite Hlen. injection Htr as <-.
  injection Hreply as <-. by injection Hparse as <-.
Defined.

(** C1 as stated fails: the reason reported for a foreign host is not
    ["invalid_url"]. *)
Lemma invalid_url_counterexample :
  ∃ ted,
    Lesson.fetchTedEdContext Sample.quiet "https://evil.example.com/x" []
      = (Returns ted, [])
    ∧ Lesson.ok ted = false
    ∧ Lesson.reason ted = Some "invalid_ted_ed_url"
    ∧ Lesson.reason ted ≠ Some "invalid_url".
Proof. eexists. split_and!; [reflexivity..|discriminate]. Qed.

(** C1, as amended, at a plain-HTTP URL of the allowed host. *)
Lemma invalid_url_short_circuits_witness :
  Lesson.fetchTedEdContext Sample.quiet "http://ed.ted.com/lessons/x" [] =
    (Returns (Lesson.mkTed (Js.trim "http://ed.ted.com/lessons/x") "" "" "" false
                (Some (if Js.nonEmpty (Js.trim "http://ed.ted.com/lessons/x")
                       then "invalid_ted_ed_url" else "missing_url"))),
     [])
  ∧ TedEd.extractTedEdContext Sample.quiet (Js.trim "http://ed.ted.com/lessons/x") []
      = (Returns None, []).
Proof.
  apply (invalid_url_short_circuits Sample.quiet "http://ed.ted.com/lessons/x" []).
  intros (u & Hu & Hp & _). vm_compute in Hu. injection Hu as <-. discriminate Hp.
Defined.

(** C2 at a lesson link whose fetch throws: [TedEd] answers 500 and never
    calls the completion service. *)
Theorem teded_fetch_failure_is_500 :
  TedEd.conversation (Sample.chatting "Hello!") Sample.lessonRequest =
    (mkResponse 500 (BText "fetch failed"),
     [EvFetch (mkFetch "https://ed.ted.com/lessons/x"
        [("User-Agent",
          "Mozilla/5.0 (compatible; EnglishFlowBot/1.0; +https://englishflow-ai.onrender.com)");
         ("Accept", "text/html,application/xhtml+xml")]
        8000)]).
Proof. reflexivity. Qed.

(** The same request in [Lesson]: the fetch failure is reported in the 200. *)
Lemma lesson_fetch_failure_is_200 :
  (Lesson.conversation (Sample.chatting "Hello!") Sample.lessonRequest).1 =
    json 200
      (JObj [("reply", JStr "Hello!");
             ("ted", JObj [("url", JStr "https://ed.ted.com/lessons/x");
                           ("title", JStr ""); ("description", JStr "");
                           ("ok", JBool false); ("reason", JStr "fetch_failed")])]).
Proof. reflexivity. Qed.


(** The falsy literals, the empty JSON string and the empty text, each
    answered with a 502 that carries it. *)
Lemma falsy_literals_are_502 :
  Forall (fun text =>
            (Baseline.writing_feedback (Sample.chatting text) Sample.greeting).1
              = json 502 (rawBody "Model did not return valid JSON." text))
         ["null"; "false"; "0"; Js.quoted "''"; ""].
Proof. repeat constructor. Qed.

(** C4, as amended, at a level written in lower case between a no-break
    space and a space. *)
Lemma normalizeLevel_five_tags_witness :
  ∃ t, normalizeLevel Sample.quiet (Some (JStr (nbsp +:+ "b1 "))) = Returns t ∧ t = "B1".
Proof.
  destruct (normalizeLevel_five_tags Sample.quiet) as (_ & _ & _ & _ & Hstring).
  destruct (Hstring (nbsp +:+ "b1 ")) as (t & Ht & _ & Htag & _).
  exists t. split; [exact Ht|]. apply Htag; [|reflexivity].
  unfold levels. repeat constructor.
Defined.

(** C4 as stated fails: on a level whose conversion to a string throws,
    [normalizeLevel] throws, and the request is answered with a 500. *)
Lemma normalizeLevel_total_counterexample :
  normalizeLevel Sample.quiet (Some oddLevel)
    = Throws (TypeError "Cannot convert object to primitive value")
  ∧ TedEd.writing_feedback Sample.quiet
      (JObj [("text", JStr "Hi."); ("level", oddLevel)])
    = (json 500 (errorBody "Cannot convert object to primitive value"), []).
Proof. split; reflexivity. Qed.

(** C3 as stated fails: [Structured] answers an unparsable output with a
    500; the [raw] of a relay's 502 is the trimmed text; and a reply that
    parses once trimmed only is answered with a 200. *)
Lemma unparsable_reply_counterexample :
  (∃ e, JSON_parse (Sample.responding "not json") "not json" = Throws e)
  ∧ status (Structured.writing_feedback (Sample.responding "not json")
              Sample.greeting).1 = 500%nat
  ∧ (∃ e, JSON_parse (Sample.chatting " not json") " not json" = Throws e)
  ∧ body (Baseline.writing_feedback (Sample.chatting " not json") Sample.greeting).1
      = BJson (rawBody "Model did not return valid JSON." "not json")
  ∧ ¬ carriesRaw (Baseline.writing_feedback (Sample.chatting " not json")
                    Sample.greeting).1 " not json"
  ∧ (∃ e, JSON_parse (Sample.chatting (vtab +:+ "{}")) (vtab +:+ "{}") = Throws e)
  ∧ (Baseline.writing_feedback (Sample.chatting (vtab +:+ "{}")) Sample.greeting).1
      = json 200 (JObj []).
Proof.
  split_and!; [by eexists|reflexivity|by eexists|reflexivity| |by eexists|reflexivity].
  intros [msg Hmsg]. vm_compute in Hmsg. discriminate Hmsg.
Qed.

(** C3, as amended, at the reply [not json] of [/ai/writing-feedback]. *)
Lemma unparsable_reply_witness :
  (status (Baseline.writing_feedback (Sample.chatting "not json") Sample.greeting).1
     = 502%nat
   ∧ carriesRaw (Baseline.writing_feedback (Sample.chatting "not json") Sample.greeting).1
       "not json")
  ∧ (status (Structured.writing_feedback (Sample.responding "not json")
               Sample.greeting).1 = 500%nat
     ∧ body (Structured.writing_feedback (Sample.responding "not json")
               Sample.greeting).1
         = BJson (errorBody "SyntaxError: Unexpected token in JSON")).
Proof.
  split.
  - eapply (proj1 (unparsable_reply (Sample.chatting "not json") "/ai/writing-feedback"
                     (Baseline.writing_feedback (Sample.chatting "not json"))
                     Sample.greeting _) _ _ (Some "not json")).
    + apply list_elem_of_singleton. reflexivity.
    + reflexivity.
    + reflexivity.
  - eapply (proj2 (unparsable_reply (Sample.responding "not json") "/ai/writing-feedback"
                     (Structured.writing_feedback (Sample.responding "not json"))
                     Sample.greeting _) _ _ "not json"
              (SyntaxError "Unexpected token in JSON")).
    + apply list_elem_of_singleton. reflexivity.
    + reflexivity.
    + reflexivity.
  Unshelve.
  all: try (unfold jsonEndpoints; apply elem_of_cons; by left).
  all: try (left; reflexivity).
  all: reflexivity.
Defined.



(** C7, as amended, at the drafts [a] and [b]. *)
Lemma drafts_forms_agree_witness :
  TedEd.finalDrafts Sample.quiet (draftsBody ["a"; "b"] [("level", JStr "B1")])
    = Returns ["a"; "b"]
  ∧ TedEd.finalDrafts Sample.quiet (legacyBody "a" "b" "" [("level", JStr "B1")])
      = Returns ["a"; "b"]
  ∧ sendsDrafts Sample.quiet
      (TedEd.resume_score Sample.quiet (draftsBody ["a"; "b"] [("level", JStr "B1")]))
      ["a"; "b"]
  ∧ TedEd.resume_score Sample.quiet (draftsBody ["a"; "b"] [("level", JStr "B1")])
      = TedEd.resume_score Sample.quiet (legacyBody "a" "b" "" [("level", JStr "B1")]).
Proof.
  destruct (drafts_forms_agree Sample.quiet ["a"; "b"] "a" "b" ""
              [("level", JStr "B1")])
    as (_ & _ & Hsend & Hsame & Ha & Hb).
  { intros k Hk. simpl.
    destruct (String.eqb k "level") eqn:Heq; [|reflexivity].
    apply String.eqb_eq in Heq. subst k. exfalso.
    repeat (apply elem_of_cons in Hk as [Hk|Hk]; [discriminate Hk|]).
    by apply elem_of_nil in Hk. }
  split_and!; [exact Ha|exact Hb| |apply Hsame; reflexivity].
  apply Hsend. intros v Hv. injection Hv as <-. reflexivity.
Defined.

(** C7 as stated fails on [src/server.js]: its [/ai/resume-score] does not
    read [drafts], so that the prompt of the drafts [a] and [b] carries
    empty drafts and is not the prompt of the legacy fields. *)
Lemma drafts_ignored_counterexample :
  ∃ req,
    (Baseline.resume_score Sample.quiet (draftsBody ["a"; "b"] [])).2 = [EvChat req]
    ∧ chat_messages req !! 1%nat
        = Some (mkMessage "user"
                  (Js.lines ["Student session data:";
                             "- Draft 1: ";
                             "- Draft 2: ";
                             "- 100-word paragraph: ";
                             "- New words: []";
                             "- Sentences by word: {}";
                             "";
                             "Return the JSON now."]))
    ∧ (Baseline.resume_score Sample.quiet (draftsBody ["a"; "b"] [])).2
        ≠ (Baseline.resume_score Sample.quiet (legacyBody "a" "b" "" [])).2.
Proof.
  eexists. split_and!; [reflexivity|reflexivity|].
  intros Heq. vm_compute in Heq. discriminate Heq.
Qed.


(** [trim] removes the white space of ECMAScript, beyond ASCII too, from
    both ends only. *)
Lemma trim_unicode_spaces :
  Js.trim (nbsp +:+ bom +:+ " a" +:+ nbsp +:+ "b" +:+ ideographicSpace +:+ vtab)
    = "a" +:+ nbsp +:+ "b".
Proof. reflexivity. Qed.

(** So a lesson link behind a no-break space is fetched, a link that is a
    no-break space is missing, a level behind a byte order mark is read, a
    word that is an ideographic space is blank, and a reply that is a
    no-break space is empty. *)
Lemma unicode_spaces_are_trimmed :
  (∃ ted freq,
     Lesson.fetchTedEdContext (emptyPages true)
       (nbsp +:+ "https://ed.ted.com/lessons/x") []
       = (Returns ted, [EvFetch freq])
     ∧ fetch_url freq = "https://ed.ted.com/lessons/x"
     ∧ Lesson.ok ted = true)
  ∧ Lesson.fetchTedEdContext Sample.quiet nbsp []
      = (Returns (Lesson.failed "" "missing_url"), [])
  ∧ normalizeLevel Sample.quiet (Some (JStr (bom +:+ "c1"))) = Returns "C1"
  ∧ TedEd.vocabulary Sample.quiet (JObj [("words", JArr [JStr ideographicSpace])])
      = (json 400 (errorBody "Missing or invalid 'words' array."), [])
  ∧ (Topic.conversation (Sample.chatting nbsp) Sample.chatRequest).1
      = json 502 (errorBody "Empty reply from model").
Proof. split_and!; [by eexists _, _|reflexivity..]. Qed.

(** X1 at a level written in lower case between spaces. *)
Lemma normalizeLevel_idempotent_witness :
  normalizeLevel Sample.quiet (Some (JStr " b1 ")) = Returns "B1"
  ∧ normalizeLevel Sample.quiet (Some (JStr "B1")) = Returns "B1".
Proof.
  split; [reflexivity|].
  apply (normalizeLevel_idempotent Sample.quiet (Some (JStr " b1 "))). reflexivity.
Defined.

(** X2 at the level [b1] and the text [Z9]. *)
Lemma normalized_level_has_rules_witness :
  normalizeLevel Sample.quiet (Some (JStr " b1 ")) = Returns "B1"
  ∧ levelSpec "B1" ≠ levelSpec "Z9".
Proof.
  split; [reflexivity|].
  apply (normalized_level_has_rules Sample.quiet (Some (JStr " b1 "))); [reflexivity|].
  unfold levels. intros Hin.
  repeat (apply elem_of_cons in Hin as [Hin|Hin]; [discriminate Hin|]).
  by apply elem_of_nil in Hin.
Defined.

(** X4 at two codes, one blank, beside a single code. *)
Lemma requestedLangs_clean_witness :
  TedEd.requestedLangs Sample.quiet (Some (JArr [JStr " pt "; JStr " "]))
    (Some (JStr "es")) = Returns ["pt"]
  ∧ TedEd.requestedLangs Sample.quiet (Some (JArr [JStr " pt "; JStr " "])) None
      = Returns ["pt"].
Proof.
  split; [reflexivity|].
  destruct (requestedLangs_clean Sample.quiet (Some (JArr [JStr " pt "; JStr " "]))
              (Some (JStr "es")) ["pt"] eq_refl) as (_ & Hcodes & _).
  by apply (Hcodes (JStr " pt ") [JStr " "]).
Defined.

(** X7 at the drafts [a] and a blank one. *)
Lemma finalDrafts_not_blank_witness :
  TedEd.finalDrafts Sample.quiet (draftsBody ["a"; " "] []) = Returns ["a"]
  ∧ ∀ d, d ∈ ["a"] → Js.trim d ≠ "".
Proof.
  split; [reflexivity|].
  by destruct (finalDrafts_not_blank Sample.quiet (draftsBody ["a"; " "] []) ["a"] eq_refl).
Defined.

(** X11 at an empty page of the TED-Ed host. *)
Lemma extractTedEdContext_context_witness :
  ∃ c tr',
    TedEd.extractTedEdContext (emptyPages true) "https://ed.ted.com/lessons/x" []
      = (Returns (Some c), tr')
    ∧ allowListed (emptyPages true) "https://ed.ted.com/lessons/x"
    ∧ ∃ freq, tr' = [] ++ [EvFetch freq]
              ∧ fetch_url freq = "https://ed.ted.com/lessons/x".
Proof.
  eexists _, _. split; [reflexivity|].
  by destruct (extractTedEdContext_context (emptyPages true)
                 "https://ed.ted.com/lessons/x" [] _ _ eq_refl) as (? & _ & ? & _).
Defined.

(** X12 at a page of the TED-Ed host answered with an error status. *)
Lemma http_error_status_witness :
  (∃ freq, TedEd.extractTedEdContext (emptyPages false) "https://ed.ted.com/lessons/x" []
             = (Returns None, [] ++ [EvFetch freq]))
  ∧ ∃ ted freq,
      Lesson.fetchTedEdContext (emptyPages false) "https://ed.ted.com/lessons/x" []
        = (Returns ted, [] ++ [EvFetch freq])
      ∧ Lesson.ok ted = true
      ∧ Lesson.reason ted = None.
Proof.
  destruct (http_error_status (emptyPages false) "https://ed.ted.com/lessons/x"
              (mkHttp false (Returns "")) [] eq_refl eq_refl eq_refl eq_refl)
    as [Hextract Hfetch].
  split; [by apply Hextract|].
  by apply (Hfetch eq_refl "" Sample.blankPage).
Defined.

(** X13 at the empty body and at the [null] body. *)
Lemma writing_feedback_validation_witness :
  status (Baseline.writing_feedback Sample.quiet (JObj [])).1 = 400%nat
  ∧ status (Structured.writing_feedback Sample.quiet (JObj [])).1 = 400%nat
  ∧ status (Structured.writing_feedback Sample.quiet JNull).1 = 500%nat.
Proof.
  destruct (writing_feedback_validation Sample.quiet (JObj []))
    as (Hrelay & Hstructured & _).
  destruct (writing_feedback_validation Sample.quiet JNull) as (_ & _ & _ & Hnull).
  split_and!.
  - apply (Hrelay (Baseline.writing_feedback Sample.quiet) (or_introl eq_refl)).
    by intros (s & [=] & _).
  - apply Hstructured. split; [discriminate|]. by intros (s & [=] & _).
  - by apply Hnull.
Defined.

(** X17 at a completion service that is down. *)
Lemma sentences_failure_is_opaque_witness :
  status (TedEd.sentences_feedback Sample.quiet Sample.sentencesRequest).1 = 500%nat
  ∧ (TedEd.sentences_feedback Sample.quiet Sample.sentencesRequest).1
      = json 500 (errorBody "Internal server error").
Proof.
  split; [reflexivity|].
  apply (sentences_failure_is_opaque Sample.quiet
           (TedEd.sentences_feedback Sample.quiet) Sample.sentencesRequest).
  - left. reflexivity.
  - reflexivity.
Defined.

(** X18 at the level [b1]. *)
Lemma topic_sentences_feedback_agrees_witness :
  Topic.sentences_feedback (Sample.chatting "{}")
    (JObj [("level", JStr "b1"); ("items", JArr Sample.twoItems)])
  = TedEd.sentences_feedback (Sample.chatting "{}")
      (JObj [("level", JStr "b1"); ("items", JArr Sample.twoItems)]).
Proof.
  apply (topic_sentences_feedback_agrees (Sample.chatting "{}") _ "b1").
  - reflexivity.
  - unfold levels. apply elem_of_cons. right. apply elem_of_cons. right.
    apply elem_of_cons. by left.
Defined.

(** X19 at an output that is the empty object. *)
Lemma structured_relays_parsed_output_witness :
  ∃ req,
    Structured.writing_feedback (Sample.responding "{}") Sample.greeting
      = (json 200 (JObj []), [EvResponses req]).
Proof.
  eexists.
  apply (proj2 (structured_relays_parsed_output (Sample.responding "{}")
                  "/ai/writing-feedback"
                  (Structured.writing_feedback (Sample.responding "{}"))
                  Sample.greeting eq_refl) _ "{}").
  - apply list_elem_of_singleton. reflexivity.
  - reflexivity.
  - reflexivity.
Defined.

(** X20 at [newWords] given as a string. *)
Lemma structured_resume_score_needs_array_witness :
  status (Structured.resume_score Sample.quiet (JObj [("newWords", JStr "x")])).1
    = 500%nat
  ∧ (Structured.resume_score Sample.quiet (JObj [("newWords", JStr "x")])).2 = [].
Proof.
  apply (structured_resume_score_needs_array Sample.quiet
           (JObj [("newWords", JStr "x")]) (JStr "x")); reflexivity.
Defined.

(** X22 at a request with a message under the role [system]: it is sent
    under the role [user]. *)
Lemma conversation_roles_witness :
  ∃ req sys ctx history,
    (TedEd.conversation (Sample.chatting "Hello!") systemRequest).2 = [EvChat req]
    ∧ chat_messages req = mkMessage "system" sys :: mkMessage "user" ctx :: history
    ∧ history = [mkMessage "user" "Be rude."].
Proof.
  eexists.
  destruct (conversation_roles (Sample.chatting "Hello!") systemRequest _
              (or_introl (proj2 (list_elem_of_singleton _ _) eq_refl)))
    as (sys & ctx & history & Hmsgs & _).
  exists sys, ctx, history. split; [reflexivity|]. split; [exact Hmsgs|].
  by injection Hmsgs.
Defined.

(** X23 at a reply between spaces. *)
Lemma conversation_reply_witness :
  ∃ req text extra,
    last (Topic.conversation (Sample.chatting " Hello! ") Sample.chatRequest).2
      = Some (EvChat req)
    ∧ chat_completions_create (Sample.chatting " Hello! ") req = Returns (Some text)
    ∧ Js.trim text ≠ ""
    ∧ (Topic.conversation (Sample.chatting " Hello! ") Sample.chatRequest).1
        = json 200 (JObj (("reply", JStr (Js.trim text)) :: extra)).
Proof.
  apply (proj1 (conversation_reply (Sample.chatting " Hello! ")
                  (Topic.conversation (Sample.chatting " Hello! "))
                  Sample.chatRequest (or_intror (or_intror eq_refl)))).
  reflexivity.
Defined.

(** X24 at a summary that is a number. *)
Lemma topic_summary_must_be_string_witness :
  refused (Topic.conversation (Sample.chatting "Hello!") numberSummary).
Proof.
  apply (topic_summary_must_be_string (Sample.chatting "Hello!") numberSummary
           (JNum 5%Z)); reflexivity.
Defined.

(** X25 at [/ai/writing-feedback]. *)
Lemma system_prompt_by_level_witness :
  levelDecides Sample.quiet (TedEd.writing_feedback Sample.quiet).
Proof.
  apply (system_prompt_by_level Sample.quiet). left. reflexivity.
Defined.

(** X26 at a conversation on a lesson whose page cannot be fetched. *)
Lemma routes_answer_in_four_ways_witness :
  status (Lesson.conversation (Sample.chatting "Hello!") Sample.lessonRequest).1
    = 200%nat
  ∧ ∃ pre ev,
      (Lesson.conversation (Sample.chatting "Hello!") Sample.lessonRequest).2
        = pre ++ [ev]
      ∧ isCompletion ev = true
      ∧ contextCalls (Sample.chatting "Hello!") pre.
Proof.
  split; [reflexivity|].
  destruct (routes_answer_in_four_ways (Sample.chatting "Hello!") "/ai/conversation"
              (Lesson.conversation (Sample.chatting "Hello!")) Sample.lessonRequest)
    as (_ & _ & _ & Hlast).
  - right. right. left. reflexivity.
  - apply Hlast. left. reflexivity.
Defined.

(** X27 at a conversation on a lesson. *)
Lemma every_fetch_is_allow_listed_witness :
  ∃ freq,
    allowListed Sample.quiet (fetch_url freq)
    ∧ (Lesson.conversation Sample.quiet Sample.lessonRequest).2 !! 0%nat
        = Some (EvFetch freq).
Proof.
  eexists.
  apply (every_fetch_is_allow_listed Sample.quiet "/ai/conversation"
           (Lesson.conversation Sample.quiet) Sample.lessonRequest).
  - right. right. left. reflexivity.
  - apply elem_of_cons. left. reflexivity.
Defined.

(** X28 at a completion service that is down. *)
Lemma upstream_failure_is_500_witness :
  status (Baseline.writing_feedback Sample.quiet Sample.greeting).1 = 500%nat.
Proof.
  eapply (proj1 (upstream_failure_is_500 Sample.quiet "/ai/writing-feedback"
                   (Baseline.writing_feedback Sample.quiet) Sample.greeting
                   (mkError "Error" "Connection error.") (or_introl eq_refl))).
  - apply list_elem_of_singleton. reflexivity.
  - reflexivity.
Defined.
